(** * Chunking strategies of app/chunking/strategies.py

    A shallow embedding of [BasicChunkingStrategy] and
    [SmartChunkingStrategy] and the properties of the chunking engine
    that the specification states about them.

    Conventions of the embedding.
    - A Python [int] is a [Z]; [len] returns a [Z].
    - A text ([str]) is a list of characters.  Characters are the code
      points below 256 ([ascii]); the character classes used by the source
      ([str.strip], [\s], [\d], case folding) are the Python ones
      restricted to that range.
    - Slices and [rfind] follow Python for every integer index, the
      negative ones included.
    - The two comparisons against a float ([max_chunk_size * 0.8] and
      [max_chunk_size * 0.5]) are written over the integers, scaled by 5
      and by 2.  The test against [max_chunk_size * 0.8] is reached only
      with [start + max_chunk_size] below the length of the text, and is
      the scaled one for a positive size and a text of fewer than 2^50
      characters.  The test against [max_chunk_size * 0.5] is reached
      whatever the size is, and is the scaled one as long as
      [max_chunk_size] converts to a float without rounding, up to 2^53
      in magnitude ([exact_as_float]); beyond that the product is rounded,
      and from 2^1024 on the conversion raises [OverflowError].  The
      statements about the break-point splitter by itself carry that
      bound; within a document the splitter is called only on a text
      longer than [max_chunk_size].
    - [int] refuses a run of more than 4300 digits, the interpreter's
      default limit.
    - [async def] functions are computations in the [outcome] monad, which
      records a returned value, a raised exception, or a [while] loop that
      used up the iterations the embedding grants it.
    - Progress output ([print], [tqdm]) is left out. *)

From Stdlib Require Import ZArith Lia Ascii String DecimalString.
From stdpp Require Import base tactics list sorting.

Open Scope Z_scope.

(** ** Python primitives *)

Abbreviation str := (list ascii).

Definition text_of (s : string) : str := list_ascii_of_string s.

Definition len {A} (l : list A) : Z := Z.of_nat (length l).

(** [str.isspace] on one character: TAB..CR, FS..US, space, NEL, NBSP. *)
Definition isspace (c : ascii) : bool :=
  let n := Z.of_N (N_of_ascii c) in
  ((9 <=? n) && (n <=? 13)) || ((28 <=? n) && (n <=? 32))
  || (n =? 133) || (n =? 160).

Definition isdigit (c : ascii) : bool :=
  let n := Z.of_N (N_of_ascii c) in (48 <=? n) && (n <=? 57).

Fixpoint lstrip (s : str) : str :=
  match s with
  | c :: s' => if isspace c then lstrip s' else s
  | [] => []
  end.

Definition rstrip (s : str) : str := rev (lstrip (rev s)).

Definition strip (s : str) : str := rstrip (lstrip s).

(** Truth value of a sequence: non-empty. *)
Definition truthy {A} (l : list A) : bool :=
  match l with [] => false | _ :: _ => true end.

(** An index of a slice, brought into [0, n] the way Python does. *)
Definition clamp_index (n i : Z) : Z :=
  if i <? 0 then Z.max (i + n) 0 else Z.min i n.

(** [l[i:j]] *)
Definition slice {A} (l : list A) (i j : Z) : list A :=
  let a := clamp_index (len l) i in
  let b := clamp_index (len l) j in
  take (Z.to_nat (b - a)) (drop (Z.to_nat a) l).

(** [l[i:]] *)
Definition slice_from {A} (l : list A) (i : Z) : list A :=
  drop (Z.to_nat (clamp_index (len l) i)) l.

(** Last position of [c] in [l], whose first element stands at [pos];
    [acc] when there is none. *)
Fixpoint rfind_at (c : ascii) (l : str) (pos acc : Z) : Z :=
  match l with
  | [] => acc
  | x :: l' => rfind_at c l' (pos + 1) (if Ascii.eqb x c then pos else acc)
  end.

(** [s.rfind(c, i, j)] for a one-character needle. *)
Definition rfind (c : ascii) (s : str) (i j : Z) : Z :=
  rfind_at c (slice s i j) (clamp_index (len s) i) (-1).

(** [range(start, stop, step)] for a positive step. *)
Definition range (start stop step : Z) : list Z :=
  map (fun k : nat => start + step * Z.of_nat k)
      (seq 0 (Z.to_nat ((stop - start + step - 1) / step))).

Fixpoint sum (l : list Z) : Z :=
  match l with
  | [] => 0
  | x :: l' => x + sum l'
  end.

(** [str(n)] for an integer. *)
Definition str_of_int (n : Z) : str :=
  text_of (NilZero.string_of_int (Z.to_int n)).

(** The number a run of decimal digits denotes. *)
Definition decimal_value (s : str) : Z :=
  fold_left (fun acc c => 10 * acc + (Z.of_N (N_of_ascii c) - 48)) s 0.

(** Case folding of [re.IGNORECASE] for the characters below 256 that can
    meet an ASCII letter of a pattern. *)
Definition to_lower (c : ascii) : ascii :=
  let n := N_of_ascii c in
  if ((65 <=? n) && (n <=? 90))%N then ascii_of_N (n + 32) else c.

(** The pattern (a literal) matches at the head of [s], ignoring case. *)
Fixpoint match_literal_ci (pat s : str) : bool :=
  match pat, s with
  | [], _ => true
  | _ :: _, [] => false
  | p :: pat', c :: s' =>
      Ascii.eqb (to_lower p) (to_lower c) && match_literal_ci pat' s'
  end.

(** [bool(re.search("a1|a2|...", s, re.IGNORECASE))] for literal
    alternatives: some alternative matches at some position. *)
Fixpoint search_alternatives_ci (alts : list str) (s : str) : bool :=
  existsb (fun pat => match_literal_ci pat s) alts
  || match s with
     | [] => false
     | _ :: s' => search_alternatives_ci alts s'
     end.

(** [re.findall(r"\d+", s)]: the maximal digit runs, left to right.
    [cur] is the run being read, in reverse. *)
Fixpoint findall_digits_from (cur : str) (s : str) : list str :=
  match s with
  | [] => if truthy cur then [rev cur] else []
  | c :: s' =>
      if isdigit c then findall_digits_from (c :: cur) s'
      else if truthy cur then rev cur :: findall_digits_from [] s'
      else findall_digits_from [] s'
  end.

Definition findall_digits (s : str) : list str := findall_digits_from [] s.

(** The whitespace run at the head of [s] and, within it, the number of
    characters up to and including its last newline ([None] when the run
    holds no newline): what [\s*\n] consumes, by backtracking from the
    longest run. *)
Fixpoint blank_run_to_newline (s : str) : option nat :=
  match s with
  | c :: s' =>
      if isspace c then
        match blank_run_to_newline s' with
        | Some k => Some (S k)
        | None => if Ascii.eqb c "010" then Some 1%nat else None
        end
      else None
  | [] => None
  end.

(** [[m.start() for m in re.finditer(r"\n\s*\n", s)]].  [pos] is the
    offset of the head of [s]; [skip] counts the characters still inside
    the previous match. *)
Fixpoint finditer_blank_lines (s : str) (pos : Z) (skip : nat) : list Z :=
  match s with
  | [] => []
  | c :: s' =>
      match skip with
      | S k => finditer_blank_lines s' (pos + 1) k
      | O =>
          if Ascii.eqb c "010" then
            match blank_run_to_newline s' with
            | Some k => pos :: finditer_blank_lines s' (pos + 1) k
            | None => finditer_blank_lines s' (pos + 1) O
            end
          else finditer_blank_lines s' (pos + 1) O
      end
  end.

(** ** Outcomes of a call *)

(** A raised exception (an instance of [Exception]). *)
Inductive exn : Type := Exception (msg : string).

Inductive outcome (A : Type) : Type :=
| Ret (a : A)
| Raise (e : exn)
| OutOfFuel.

Arguments Ret {A} a.
Arguments Raise {A} e.
Arguments OutOfFuel {A}.

Definition bind {A B} (m : outcome A) (k : A -> outcome B) : outcome B :=
  match m with
  | Ret a => k a
  | Raise e => Raise e
  | OutOfFuel => OutOfFuel
  end.

Notation "x <- m ;; k" := (bind m (fun x => k))
  (at level 100, m at next level, right associativity).

(** [try: body  except Exception as e: handler e] *)
Definition try_except {A} (body : outcome A) (handler : exn -> outcome A)
  : outcome A :=
  match body with
  | Raise e => handler e
  | other => other
  end.

(** The longest run of digits [int] converts
    ([sys.get_int_max_str_digits()], 4300 unless the interpreter is
    configured otherwise). *)
Definition int_max_str_digits : Z := 4300.

(** [int(s)] for a run of decimal digits: a run longer than the limit
    raises [ValueError]. *)
Definition int_of_str (s : str) : outcome Z :=
  if int_max_str_digits <? len s
  then Raise (Exception "ValueError: Exceeds the limit for integer string conversion")
  else Ret (decimal_value s).

(** Awaiting a list of tasks one after the other. *)
Fixpoint await_each {A} (tasks : list (outcome A)) : outcome (list A) :=
  match tasks with
  | [] => Ret []
  | t :: rest =>
      r <- t ;; rs <- await_each rest ;; Ret (r :: rs)
  end.

(** [asyncio.gather] with [return_exceptions=True]: results in
    submission order, a raised exception taken as the result. *)
Fixpoint gather_return_exceptions {A} (tasks : list (outcome A))
  : outcome (list (exn + A)) :=
  match tasks with
  | [] => Ret []
  | t :: rest =>
      r <- match t with
           | Ret a => Ret (inr a)
           | Raise e => Ret (inl e)
           | OutOfFuel => OutOfFuel
           end ;;
      rs <- gather_return_exceptions rest ;;
      Ret (r :: rs)
  end.

(** ** Data model *)

(** Modelled from the spec: [ChunkMetadata] and [Chunk] are declared in
    app/chunking/models.py, which is not among the sources.  The fields are
    those the strategies set; a field that a constructor call leaves out
    takes its default: no tab id, no total, and 0 for the overlap counts
    (the spec's value for a chunk that spans a whole section). *)
Record ChunkMetadata : Type := {
  source_document_id : string;
  source_tab : option string;
  source_tab_id : option string;
  source_section : string;
  chunk_index : Z;
  start_position : Z;
  end_position : Z;
  overlap_before : Z;
  overlap_after : Z;
  heading_level : Z;
  contains_question : bool;
  estimated_tokens : Z;
  total_chunks : option Z
}.

Definition default_source_tab_id : option string := None.
Definition default_overlap : Z := 0.
Definition default_total_chunks : option Z := None.

Record Chunk : Type := {
  content : str;
  metadata : option ChunkMetadata;
  summary : option str
}.

(** [Chunk(content=c, metadata=m)] *)
Definition new_Chunk (c : str) (m : ChunkMetadata) : Chunk :=
  {| content := c; metadata := Some m; summary := None |}.

(** [chunk.metadata.total_chunks = n], under [if chunk.metadata:] *)
Definition set_total_chunks (n : Z) (chunk : Chunk) : Chunk :=
  match metadata chunk with
  | Some m =>
      {| content := content chunk;
         metadata := Some
           {| source_document_id := source_document_id m;
              source_tab := source_tab m;
              source_tab_id := source_tab_id m;
              source_section := source_section m;
              chunk_index := chunk_index m;
              start_position := start_position m;
              end_position := end_position m;
              overlap_before := overlap_before m;
              overlap_after := overlap_after m;
              heading_level := heading_level m;
              contains_question := contains_question m;
              estimated_tokens := estimated_tokens m;
              total_chunks := Some n |};
         summary := summary chunk |}
  | None => chunk
  end.

(** [chunk.summary = s] *)
Definition set_summary (s : str) (chunk : Chunk) : Chunk :=
  {| content := content chunk; metadata := metadata chunk;
     summary := Some s |}.

(** Modelled from the spec: [DocumentSection] and [ParsedDocument] come
    from app/google_docs/parser.py, which is not among the sources.  A
    section is what the strategies read from it: its title, nesting level,
    optional tab title and id, the length of its own [content], and the
    text [get_full_text()] returns. *)
Record DocumentSection : Type := {
  title : string;
  level : Z;
  tab_title : option string;
  tab_id : option string;
  content_len : nat;
  get_full_text : str
}.

Record ParsedDocument : Type := {
  document_id : string;
  sections : list DocumentSection
}.

(** Modelled from the spec: [LLMProvider] comes from app/llm/base.py, which
    is not among the sources.  A call completes with a response or raises;
    a response reports success and carries an optional content. *)
Record LLMResponse : Type := {
  success : bool;
  response_content : option str
}.

Record LLMProvider : Type := {
  generate_response : str -> exn + LLMResponse;
  summarize : str -> Z -> exn + LLMResponse
}.

(** Awaiting a backend call. *)
Definition await_call {A} (r : exn + A) : outcome A :=
  match r with
  | inl e => Raise e
  | inr a => Ret a
  end.

(** ** BasicChunkingStrategy *)

Module BasicChunkingStrategy.

Record t : Type := {
  max_chunk_size : Z;
  overlap_size : Z;
  respect_sections : bool
}.

(** The constructor's defaults. *)
Definition default : t :=
  {| max_chunk_size := 1000; overlap_size := 100; respect_sections := true |}.

Definition question_patterns : list str :=
  map text_of ["?"; "what"; "how"; "why"; "when"; "where"; "who"]%string.

Definition _contains_question (text : str) : bool :=
  search_alternatives_ci question_patterns text.

(** The [while start < len(text)] loop of [_split_text_with_overlap];
    [fuel] bounds the number of iterations. *)
Fixpoint split_loop (self : t) (text : str) (fuel : nat) (start : Z)
    (chunks : list str) : outcome (list str) :=
  if start <? len text then
    match fuel with
    | O => OutOfFuel
    | S fuel' =>
        let end0 := Z.min (start + max_chunk_size self) (len text) in
        let end_ :=
          if end0 <? len text then
            let last_space := rfind " " text start end0 in
            if 5 * start + 4 * max_chunk_size self <? 5 * last_space
            then last_space else end0
          else end0 in
        let chunk_text := strip (slice text start end_) in
        let chunks' :=
          if truthy chunk_text then chunks ++ [chunk_text] else chunks in
        split_loop self text fuel'
          (Z.max (start + max_chunk_size self - overlap_size self) end_)
          chunks'
    end
  else Ret chunks.

Definition _split_text_with_overlap (self : t) (text : str)
  : outcome (list str) :=
  split_loop self text (S (length text)) 0 [].

Definition _chunk_section (self : t) (section : DocumentSection)
    (document_id : string) (start_chunk_index : Z)
    (tab_name tab_id : option string) : outcome (list Chunk) :=
  let section_text := get_full_text section in
  if negb (truthy (strip section_text)) then Ret []
  else if len section_text <=? max_chunk_size self then
    let metadata :=
      {| source_document_id := document_id;
         source_tab := tab_name;
         source_tab_id := tab_id;
         source_section := title section;
         chunk_index := start_chunk_index;
         start_position := 0;
         end_position := len section_text;
         overlap_before := default_overlap;
         overlap_after := default_overlap;
         heading_level := level section;
         contains_question := _contains_question section_text;
         estimated_tokens := len section_text / 4;
         total_chunks := default_total_chunks |} in
    Ret [new_Chunk section_text metadata]
  else
    chunk_pieces <- _split_text_with_overlap self section_text ;;
    Ret (imap (fun (i : nat) (piece : str) =>
           let metadata :=
             {| source_document_id := document_id;
                source_tab := tab_name;
                source_tab_id := tab_id;
                source_section := title section;
                chunk_index := start_chunk_index + Z.of_nat i;
                start_position := 0;
                end_position := len piece;
                overlap_before :=
                  if 0 <? Z.of_nat i then overlap_size self else 0;
                overlap_after :=
                  if Z.of_nat i <? len chunk_pieces - 1
                  then overlap_size self else 0;
                heading_level := level section;
                contains_question := _contains_question piece;
                estimated_tokens := len piece / 4;
                total_chunks := default_total_chunks |} in
           new_Chunk piece metadata) chunk_pieces).

(** The [for section in document.sections] loop of [chunk_document]. *)
Fixpoint chunk_sections (self : t) (document_id : string)
    (todo : list DocumentSection) (chunk_index : Z) (chunks : list Chunk)
  : outcome (list Chunk) :=
  match todo with
  | [] => Ret chunks
  | section :: rest =>
      section_chunks <-
        _chunk_section self section document_id chunk_index
          (tab_title section) (tab_id section) ;;
      chunk_sections self document_id rest
        (chunk_index + len section_chunks) (chunks ++ section_chunks)
  end.

Definition chunk_document (self : t) (document : ParsedDocument)
  : outcome (list Chunk) :=
  chunks <- chunk_sections self (document_id document)
              (sections document) 0 [] ;;
  Ret (map (set_total_chunks (len chunks)) chunks).

End BasicChunkingStrategy.

(** ** SmartChunkingStrategy *)

(** The order in which [asyncio.as_completed] hands over the tasks of a
    batch: for each batch number, a rearrangement of the submitted tasks. *)
Definition completion_order : Type :=
  Z -> list (outcome (list Chunk)) -> list (outcome (list Chunk)).

(** Tasks handed over in the order they were submitted. *)
Definition submission_order : completion_order := fun _ tasks => tasks.

(** A loop whose body may raise: [for x in xs: state = body state x]. *)
Fixpoint for_each {A S} (xs : list A) (state : S)
    (body : S -> A -> outcome S) : outcome S :=
  match xs with
  | [] => Ret state
  | x :: rest => state' <- body state x ;; for_each rest state' body
  end.

Module SmartChunkingStrategy.

Record t : Type := {
  llm_provider : LLMProvider;
  max_chunk_size : Z;
  overlap_size : Z;
  use_summaries : bool
}.

(** The constructor's defaults. *)
Definition default (llm : LLMProvider) : t :=
  {| llm_provider := llm; max_chunk_size := 1500; overlap_size := 150;
     use_summaries := true |}.

(** [self.basic_strategy]: the constructor builds it from the same sizes. *)
Definition basic_strategy (self : t) : BasicChunkingStrategy.t :=
  {| BasicChunkingStrategy.max_chunk_size := max_chunk_size self;
     BasicChunkingStrategy.overlap_size := overlap_size self;
     BasicChunkingStrategy.respect_sections := true |}.

Definition question_patterns : list str :=
  map text_of ["?"; "what"; "how"; "why"; "when"; "where"; "who"]%string.

Definition _contains_question (text : str) : bool :=
  search_alternatives_ci question_patterns text.

Definition nl : str := ["010"%char].

(** The prompt of [_find_semantic_breaks]. *)
Definition break_prompt (self : t) (text : str) : str :=
  text_of "Analyze this text and identify good break points for chunking into semantic units." ++ nl
  ++ text_of "            " ++ nl
  ++ text_of "Text length: " ++ str_of_int (len text)
  ++ text_of " characters" ++ nl
  ++ text_of "Target chunk size: " ++ str_of_int (max_chunk_size self)
  ++ text_of " characters" ++ nl
  ++ nl
  ++ text_of "Text:" ++ nl
  ++ slice text 0 2000
  ++ (if 2000 <? len text then text_of "..." else []) ++ nl
  ++ nl
  ++ text_of "Return positions (character indices) where natural breaks occur, such as:" ++ nl
  ++ text_of "- Topic transitions" ++ nl
  ++ text_of "- End of examples or lists  " ++ nl
  ++ text_of "- Paragraph boundaries" ++ nl
  ++ text_of "- Logical conclusion points" ++ nl
  ++ nl
  ++ text_of "Return only numbers separated by commas, e.g.: 150, 450, 750".

Definition _find_paragraph_breaks (text : str) : list Z :=
  finditer_blank_lines text 0 0.

(** The offsets read from a response, inside the [try] block: the loop
    over the digit runs converts each with [int] (which may raise) and
    keeps the positions strictly between 0 and [len(text)]; the list is
    then sorted. *)
Definition parse_break_points (text response : str) : outcome (list Z) :=
  break_points <-
    for_each (findall_digits response) []
      (fun break_points m =>
         pos <- int_of_str m ;;
         Ret (if (0 <? pos) && (pos <? len text)
              then break_points ++ [pos] else break_points)) ;;
  Ret (merge_sort Z.le break_points).

(** The [try] block returns from the function on a usable response
    ([Some]); otherwise, and after the handler, control falls through to
    the paragraph breaks ([None]). *)
Definition _find_semantic_breaks (self : t) (text : str)
  : outcome (list Z) :=
  returned <-
    try_except
      (response <- await_call
                     (generate_response (llm_provider self)
                        (break_prompt self text)) ;;
       match response_content response with
       | Some c =>
           if success response && truthy c
           then break_points <- parse_break_points text c ;;
                Ret (Some break_points)
           else Ret None
       | None => Ret None
       end)
      (fun e => Ret None) ;;
  match returned with
  | Some break_points => Ret break_points
  | None => Ret (_find_paragraph_breaks text)
  end.

(** One round of the [for break_point in break_points] loop, on the pair
    of [start] and [chunks].  The test [break_point - start >
    max_chunk_size * 0.5] is written over the integers: the two agree for
    a [max_chunk_size] of at most 2^53 in magnitude. *)
Definition break_step (self : t) (text : str) (state : Z * list str)
    (break_point : Z) : Z * list str :=
  let (start, chunks) := state in
  if max_chunk_size self <? 2 * (break_point - start) then
    let chunk := strip (slice text start break_point) in
    (Z.max 0 (break_point - overlap_size self),
     if truthy chunk then chunks ++ [chunk] else chunks)
  else state.

Definition _split_at_break_points (self : t) (text : str)
    (break_points : list Z) : outcome (list str) :=
  if negb (truthy break_points) then
    BasicChunkingStrategy._split_text_with_overlap (basic_strategy self) text
  else
    let (start, chunks) :=
      fold_left (break_step self text) break_points (0, []) in
    if start <? len text then
      let final_chunk := strip (slice_from text start) in
      Ret (if truthy final_chunk then chunks ++ [final_chunk] else chunks)
    else Ret chunks.

Definition _chunk_section_semantically (self : t)
    (section : DocumentSection) (document_id : string)
    (start_chunk_index : Z) (tab_name tab_id : option string)
  : outcome (list Chunk) :=
  let section_text := get_full_text section in
  if negb (truthy (strip section_text)) then Ret []
  else if len section_text <=? max_chunk_size self then
    BasicChunkingStrategy._chunk_section (basic_strategy self) section
      document_id start_chunk_index tab_name tab_id
  else
    break_points <- _find_semantic_breaks self section_text ;;
    chunk_texts <- _split_at_break_points self section_text break_points ;;
    Ret (imap (fun (i : nat) (chunk_text : str) =>
           let metadata :=
             {| source_document_id := document_id;
                source_tab := tab_name;
                source_tab_id := default_source_tab_id;
                source_section := title section;
                chunk_index := start_chunk_index + Z.of_nat i;
                start_position := 0;
                end_position := len chunk_text;
                overlap_before := default_overlap;
                overlap_after := default_overlap;
                heading_level := level section;
                contains_question := _contains_question chunk_text;
                estimated_tokens := len chunk_text / 4;
                total_chunks := default_total_chunks |} in
           new_Chunk (strip chunk_text) metadata) chunk_texts).

(** [_generate_summary]; the prompt it builds is not passed on, the
    backend receives the content itself. *)
Definition _generate_summary (self : t) (content : str)
  : outcome (option str) :=
  try_except
    (response <- await_call
                   (summarize (llm_provider self) content 100) ;;
     match response_content response with
     | Some c =>
         if success response && truthy c then Ret (Some (strip c))
         else Ret None
     | None => Ret None
     end)
    (fun e => Ret None).

(** One batch of sections: the body of the [for i in range(0, n, 3)] loop
    on [all_chunks]. *)
Definition section_batch (self : t) (order : completion_order)
    (document : ParsedDocument) (all_chunks : list Chunk) (i : Z)
  : outcome (list Chunk) :=
  let batch := slice (sections document) i (i + 3) in
  let batch_num := i / 3 + 1 in
  let tasks :=
    imap (fun (j : nat) (section : DocumentSection) =>
            let chunk_index :=
              sum (map (fun s => Z.of_nat (content_len s))
                     (slice (sections document) 0 (i + Z.of_nat j)))
              / 1000 in
            _chunk_section_semantically self section
              (document_id document) chunk_index
              (tab_title section) (tab_id section))
         batch in
  batch_results <- await_each (order batch_num tasks) ;;
  Ret (all_chunks ++ concat batch_results).

(** The task queued for a chunk: a summary request, or the placeholder
    [asyncio.sleep(0)], which yields [None]. *)
Definition summary_task (self : t) (chunk : Chunk) : outcome (option str) :=
  if 200 <? len (content chunk) then _generate_summary self (content chunk)
  else Ret None.

(** The body of [for j, result in enumerate(batch_summaries)]: the result
    goes to the chunk at [i + j] when that index exists and the result is
    neither an exception nor empty. *)
Definition assign_summary (i : Z) (all_chunks : list Chunk)
    (j_result : nat * (exn + option str)) : list Chunk :=
  let chunk_idx := i + Z.of_nat (fst j_result) in
  match snd j_result with
  | inr (Some result) =>
      if (chunk_idx <? len all_chunks) && truthy result
      then alter (set_summary result) (Z.to_nat chunk_idx) all_chunks
      else all_chunks
  | _ => all_chunks
  end.

Definition assign_summaries (i : Z)
    (batch_summaries : list (exn + option str)) (all_chunks : list Chunk)
  : list Chunk :=
  fold_left (assign_summary i) (imap pair batch_summaries) all_chunks.

(** One batch of summaries: the body of the [for i in range(0, n, 5)]
    loop on [all_chunks]. *)
Definition summary_batch (summary_tasks : list (outcome (option str)))
    (all_chunks : list Chunk) (i : Z) : outcome (list Chunk) :=
  let batch_tasks := slice summary_tasks i (i + 5) in
  batch_summaries <- gather_return_exceptions batch_tasks ;;
  Ret (assign_summaries i batch_summaries all_chunks).

(** The [try] block of [chunk_document]. *)
Definition chunk_document_body (self : t) (order : completion_order)
    (document : ParsedDocument) : outcome (list Chunk) :=
  all_chunks <-
    for_each (range 0 (len (sections document)) 3) []
      (section_batch self order document) ;;
  all_chunks <-
    (if use_summaries self then
       let summary_tasks := map (summary_task self) all_chunks in
       for_each (range 0 (len summary_tasks) 5) all_chunks
         (summary_batch summary_tasks)
     else Ret all_chunks) ;;
  Ret (map (set_total_chunks (len all_chunks)) all_chunks).

Definition chunk_document (self : t) (order : completion_order)
    (document : ParsedDocument) : outcome (list Chunk) :=
  try_except (chunk_document_body self order document)
    (fun e =>
       BasicChunkingStrategy.chunk_document (basic_strategy self) document).

End SmartChunkingStrategy.

(** ** Notions used by the statements *)

(** The call completes with a value. *)
Definition returns {A} (m : outcome A) : Prop := exists a, m = Ret a.

(** The value of [end] in one iteration of the splitter's loop: the end
    of the window that starts at [start]. *)
Definition window_end (self : BasicChunkingStrategy.t) (text : str)
    (start : Z) : Z :=
  let end0 :=
    Z.min (start + BasicChunkingStrategy.max_chunk_size self) (len text) in
  if end0 <? len text then
    let last_space := rfind " " text start end0 in
    if 5 * start + 4 * BasicChunkingStrategy.max_chunk_size self
       <? 5 * last_space
    then last_space else end0
  else end0.

(** The trimmed content of the window [text[s:e]]. *)
Definition window_text (text : str) (w : Z * Z) : str :=
  strip (slice text (fst w) (snd w)).

(** The pieces a list of windows yields: the trimmed contents, the blank
    ones dropped. *)
Definition pieces_of (text : str) (ws : list (Z * Z)) : list str :=
  List.filter truthy (map (window_text text) ws).

(** A piece as the splitter emits it: non-empty, trimmed, within the size. *)
Definition well_formed_piece (max_size : Z) (p : str) : Prop :=
  truthy p = true /\ strip p = p /\ len p <= max_size.

(** The index a chunk carries. *)
Definition index_of (c : Chunk) : option Z :=
  match metadata c with
  | Some m => Some (chunk_index m)
  | None => None
  end.

(** What every chunk of the basic strategy satisfies, for the index [i]
    it is given. *)
Definition basic_chunk (max_size i : Z) (c : Chunk) : Prop :=
  index_of c = Some i /\ len (content c) <= max_size /\ summary c = None.

(** The text put back from the pieces of a split: the first piece, then
    every later piece without its first [overlap] characters. *)
Definition without_overlaps (overlap : nat) (pieces : list str) : str :=
  match pieces with
  | [] => []
  | p :: rest => p ++ concat (map (drop overlap) rest)
  end.

(** The pattern occurs in the text as a substring, ignoring case. *)
Definition occurs_ci (pat text : str) : Prop :=
  exists pre w post,
    text = pre ++ w ++ post /\ map to_lower w = map to_lower pat.

Definition isalpha (c : ascii) : bool :=
  let n := Z.of_N (N_of_ascii (to_lower c)) in (97 <=? n) && (n <=? 122).

(** The words of a text: its maximal runs of letters.  [cur] is the word
    being read, in reverse. *)
Fixpoint words_from (cur : str) (s : str) : list str :=
  match s with
  | [] => if truthy cur then [rev cur] else []
  | c :: s' =>
      if isalpha c then words_from (c :: cur) s'
      else if truthy cur then rev cur :: words_from [] s'
      else words_from [] s'
  end.

Fixpoint str_eqb (a b : str) : bool :=
  match a, b with
  | [], [] => true
  | x :: a', y :: b' => Ascii.eqb x y && str_eqb a' b'
  | _, _ => false
  end.

(** Question detection by whole words, as the specification words it: a
    question mark, or one of the six keywords as a word of the text. *)
Definition contains_question_by_words (text : str) : bool :=
  existsb (Ascii.eqb "?") text
  || existsb
       (fun w =>
          existsb (str_eqb (map to_lower w))
            (map text_of ["what"; "how"; "why"; "when"; "where"; "who"]%string))
       (words_from [] text).

(** Sample inputs. *)
Definition tiny_basic : BasicChunkingStrategy.t :=
  {| BasicChunkingStrategy.max_chunk_size := 10;
     BasicChunkingStrategy.overlap_size := 2;
     BasicChunkingStrategy.respect_sections := true |}.

Definition section_of (tab tab_ident : option string) (size : nat)
    (body : string) : DocumentSection :=
  {| title := "Notes"; level := 1; tab_title := tab; tab_id := tab_ident;
     content_len := size; get_full_text := text_of body |}.

Definition hello_world : DocumentSection :=
  section_of None None 11%nat "Hello world".

Definition hello_again : DocumentSection :=
  section_of (Some "Tab 1"%string) (Some "t.1"%string) 17%nat
    "Hello world again".


(** A backend whose every call raises. *)
Definition failing_backend : LLMProvider :=
  {| generate_response := fun _ => inl (Exception "backend unavailable");
     summarize := fun _ _ => inl (Exception "backend unavailable") |}.

(** A backend that answers every request with the same text. *)
Definition constant_backend (answer : string) : LLMProvider :=
  {| generate_response := fun _ =>
       inr {| success := true; response_content := Some (text_of answer) |};
     summarize := fun _ _ =>
       inr {| success := true; response_content := Some (text_of answer) |} |}.

Definition tiny_smart (llm : LLMProvider) : SmartChunkingStrategy.t :=
  {| SmartChunkingStrategy.llm_provider := llm;
     SmartChunkingStrategy.max_chunk_size := 10;
     SmartChunkingStrategy.overlap_size := 2;
     SmartChunkingStrategy.use_summaries := true |}.

(** "one", a blank line, "two". *)
Definition two_paragraphs : str :=
  text_of "one" ++ SmartChunkingStrategy.nl ++ SmartChunkingStrategy.nl
  ++ text_of "two".


(** The summary a backend's reply amounts to: the trimmed content of a
    successful, non-empty response. *)
Definition summary_reply (llm : LLMProvider) (text : str) : option str :=
  match summarize llm text 100 with
  | inr r =>
      match response_content r with
      | Some body =>
          if success r && truthy body then Some (strip body) else None
      | None => None
      end
  | inl _ => None
  end.

(** A completion order hands over exactly the tasks it was given. *)
Definition rearranges (order : completion_order) : Prop :=
  forall (batch_num : Z) (tasks : list (outcome (list Chunk))),
    Permutation tasks (order batch_num tasks).

Definition two_notes : ParsedDocument :=
  {| document_id := "doc"; sections := [hello_world; hello_world] |}.


(** What assigning a gathered result does to a chunk. *)
Definition apply_result (r : exn + option str) (c : Chunk) : Chunk :=
  match r with
  | inr (Some s) => if truthy s then set_summary s c else c
  | _ => c
  end.

(** The result of the task queued for a chunk. *)
Definition summary_result (self : SmartChunkingStrategy.t) (chunk : Chunk)
  : option str :=
  if 200 <? len (content chunk)
  then summary_reply (SmartChunkingStrategy.llm_provider self) (content chunk)
  else None.

(** A chunk after the summary phase. *)
Definition annotate (self : SmartChunkingStrategy.t) (chunk : Chunk) : Chunk :=
  apply_result (inr (summary_result self chunk)) chunk.


(** A section of 201 characters, and a backend whose summaries are a
    single blank. *)
Definition long_note : DocumentSection :=
  {| title := "Notes"; level := 1; tab_title := None; tab_id := None;
     content_len := 201%nat; get_full_text := repeat "a"%char 201 |}.

Definition blank_backend : LLMProvider := constant_backend " ".


(** The response holds no digit. *)
Definition digitless (response : str) : bool :=
  forallb (fun c => negb (isdigit c)) response.


(** The start index [chunk_document] estimates for the section at
    position [pos]: the content lengths of the sections before it, summed
    and divided by 1000. *)
Definition estimated_index (document : ParsedDocument) (pos : Z) : Z :=
  sum (map (fun s => Z.of_nat (content_len s))
         (slice (sections document) 0 pos)) / 1000.

(** What every chunk of the smart strategy's section phase satisfies: no
    summary yet, and an index counted onwards from the estimate of some
    position. *)
Definition section_phase_chunk (document : ParsedDocument) (c : Chunk)
  : Prop :=
  summary c = None
  /\ exists (pos : Z) (j : nat),
       index_of c = Some (estimated_index document pos + Z.of_nat j).

(** The value a task returned, the empty list when it did not return. *)
Definition result_of {A} (m : outcome (list A)) : list A :=
  match m with
  | Ret a => a
  | _ => []
  end.

(** The task [chunk_document] queues for the section at position [k]. *)
Definition section_task (self : SmartChunkingStrategy.t)
    (document : ParsedDocument) (k : nat) (section : DocumentSection)
  : outcome (list Chunk) :=
  SmartChunkingStrategy._chunk_section_semantically self section
    (document_id document) (estimated_index document (Z.of_nat k))
    (tab_title section) (tab_id section).


(** A chunk with its index blanked, to compare chunks up to their index. *)
Definition erase_index (c : Chunk) : Chunk :=
  match metadata c with
  | Some m =>
      {| content := content c;
         metadata := Some
           {| source_document_id := source_document_id m;
              source_tab := source_tab m;
              source_tab_id := source_tab_id m;
              source_section := source_section m;
              chunk_index := 0;
              start_position := start_position m;
              end_position := end_position m;
              overlap_before := overlap_before m;
              overlap_after := overlap_after m;
              heading_level := heading_level m;
              contains_question := contains_question m;
              estimated_tokens := estimated_tokens m;
              total_chunks := total_chunks m |};
         summary := summary c |}
  | None => c
  end.

(** Every call of the backend raises or reports failure. *)
Definition always_fails (llm : LLMProvider) : Prop :=
  (forall prompt,
     match generate_response llm prompt with
     | inl _ => True
     | inr r => success r = false
     end)
  /\ (forall text max_length,
        match summarize llm text max_length with
        | inl _ => True
        | inr r => success r = false
        end).

(** The section's text is blank or within the size: the smart strategy
    hands such a section to the basic one. *)
Definition fits (max_size : Z) (section : DocumentSection) : Prop :=
  truthy (strip (get_full_text section)) = false
  \/ len (get_full_text section) <= max_size.

(** The tasks of a batch handed over last first. *)
Definition reversed_order : completion_order := fun _ tasks => rev tasks.

Definition hello_bye : ParsedDocument :=
  {| document_id := "doc";
     sections := [hello_world; section_of None None 3%nat "Bye"] |}.


(** The windows the splitter's loop cuts from [start] on, one for each
    iteration. *)
Fixpoint split_windows (self : BasicChunkingStrategy.t) (text : str)
    (fuel : nat) (start : Z) : list (Z * Z) :=
  if start <? len text then
    match fuel with
    | O => []
    | S fuel' =>
        let e := window_end self text start in
        (start, e)
        :: split_windows self text fuel'
             (Z.max (start + BasicChunkingStrategy.max_chunk_size self
                     - BasicChunkingStrategy.overlap_size self) e)
    end
  else [].

(** The untrimmed content of a window. *)
Definition window_slice (text : str) (w : Z * Z) : str :=
  slice text (fst w) (snd w).

(** No window reaches into the one after it. *)
Fixpoint windows_apart (ws : list (Z * Z)) : Prop :=
  match ws with
  | w :: rest =>
      match rest with
      | w' :: _ => snd w <= fst w'
      | [] => True
      end
      /\ windows_apart rest
  | [] => True
  end.


(** The metadata of a chunk describes its content: the document, the
    positions, the token estimate and the question flag. *)
Definition describes_content (doc_id : string) (c : Chunk) : Prop :=
  exists m,
    metadata c = Some m
    /\ source_document_id m = doc_id
    /\ start_position m = 0
    /\ end_position m = len (content c)
    /\ estimated_tokens m = len (content c) / 4
    /\ contains_question m
       = BasicChunkingStrategy._contains_question (content c).

(** The chunk names the section as its origin: title, tab title and
    heading level. *)
Definition copied_from (section : DocumentSection) (c : Chunk) : Prop :=
  exists m,
    metadata c = Some m
    /\ source_section m = title section
    /\ source_tab m = tab_title section
    /\ heading_level m = level section.

Definition tab_id_of (c : Chunk) : option string :=
  match metadata c with
  | Some m => source_tab_id m
  | None => None
  end.

Definition total_of (c : Chunk) : option Z :=
  match metadata c with
  | Some m => total_chunks m
  | None => None
  end.

(** A section holding more than blanks. *)
Definition nonblank (section : DocumentSection) : bool :=
  truthy (strip (get_full_text section)).


(** The chunk is a chunk of the section: it names it as its origin and
    carries its tab id, and the section is not blank. *)
Definition chunk_of_section (section : DocumentSection) (c : Chunk) : Prop :=
  copied_from section c
  /\ tab_id_of c = tab_id section
  /\ nonblank section = true.

Definition overlaps_of (c : Chunk) : option (Z * Z) :=
  match metadata c with
  | Some m => Some (overlap_before m, overlap_after m)
  | None => None
  end.

(** A section of two paragraphs with a tab. *)
Definition long_section : DocumentSection :=
  section_of (Some "Tab 1"%string) (Some "t.1"%string) 40%nat
    "The quick brown fox jumps over the lazy dog.".

Definition sample_document : ParsedDocument :=
  {| document_id := "doc";
     sections := [hello_world; section_of None None 0%nat "   ";
                  long_section] |}.


(** The texts of the sections that are not blank, in document order. *)
Definition nonblank_texts (document : ParsedDocument) : list str :=
  List.filter (fun t => truthy (strip t))
    (map get_full_text (sections document)).


(** A paragraph break at offset [p]: a newline there, and after it
    nothing but whitespace up to another newline. *)
Definition blank_line_at (text : str) (p : Z) : Prop :=
  text !! Z.to_nat p = Some "010"%char
  /\ exists k : nat,
       drop (S (Z.to_nat p)) text !! k = Some "010"%char
       /\ Forall (fun c => isspace c = true)
            (take k (drop (S (Z.to_nat p)) text)).

(** A piece as the break-point splitter emits it: non-empty and trimmed. *)
Definition trimmed_piece (p : str) : Prop := p <> [] /\ strip p = p.


(** What the smart strategy's section phase gives a chunk of a section:
    no summary and no total yet, metadata that describes the content and
    names the section, and the section's tab id only when the section was
    small enough to go to the basic strategy. *)
Definition smart_section_chunk (self : SmartChunkingStrategy.t)
    (doc_id : string) (section : DocumentSection) (c : Chunk) : Prop :=
  summary c = None
  /\ total_of c = None
  /\ describes_content doc_id c
  /\ copied_from section c
  /\ nonblank section = true
  /\ tab_id_of c
     = if len (get_full_text section)
          <=? SmartChunkingStrategy.max_chunk_size self
       then tab_id section else None.


(** The end of a window is the hard limit, or a space no earlier than
    four fifths of the size into the window. *)
Definition cut_at_limit_or_space (max_size : Z) (text : str) (w : Z * Z)
  : Prop :=
  snd w = Z.min (fst w + max_size) (len text)
  \/ (text !! Z.to_nat (snd w) = Some " "%char
      /\ 5 * fst w + 4 * max_size < 5 * snd w
      /\ snd w < Z.min (fst w + max_size) (len text)).


(** The integer converts to a float without rounding: its magnitude is
    at most 2^53.  For a [max_chunk_size] in that range the test
    [break_point - start > max_chunk_size * 0.5] is the test
    [max_chunk_size < 2 * (break_point - start)] over the integers. *)
Definition exact_as_float (n : Z) : Prop :=
  -9007199254740992 <= n <= 9007199254740992.

(** A backend whose every answer is one run of 4301 digits. *)
Definition long_number_backend : LLMProvider :=
  {| generate_response := fun _ =>
       inr {| success := true;
              response_content := Some (repeat "1"%char 4301) |};
     summarize := fun _ _ =>
       inr {| success := true;
              response_content := Some (repeat "1"%char 4301) |} |}.


(** 850 letters, a space and 250 letters: 1101 characters. *)
Definition gapped_text : str :=
  repeat "a"%char 850 ++ " "%char :: repeat "b"%char 250.

Definition gapped_section : DocumentSection :=
  {| title := "Notes"; level := 1; tab_title := None; tab_id := None;
     content_len := 1101%nat; get_full_text := gapped_text |}.


(** A completion order that hands over tasks that were submitted or
    tasks that failed.  The embedding derives no exception for a section
    task, the failures of the backend being handled inside it; a failed
    task stands for an exception that a section task raises all the same,
    and that awaiting the task raises again. *)
Definition hands_over_or_fails (order : completion_order) : Prop :=
  forall (batch_num : Z) (tasks : list (outcome (list Chunk))),
    Forall (fun t => In t tasks \/ exists e, t = Raise e)
      (order batch_num tasks).

(** The first task handed over has failed. *)
Definition failing_order : completion_order :=
  fun _ tasks => Raise (Exception "task failed") :: tasks.

(** A smart strategy of size 0. *)
Definition zero_smart (llm : LLMProvider) : SmartChunkingStrategy.t :=
  {| SmartChunkingStrategy.llm_provider := llm;
     SmartChunkingStrategy.max_chunk_size := 0;
     SmartChunkingStrategy.overlap_size := 0;
     SmartChunkingStrategy.use_summaries := true |}.


(** The chunks of a document grouped by section and numbered the way the
    smart strategy numbers them: there is one group for each section, the
    group at position [k] holds chunks of the section at position [k], and
    the chunk at position [j] of that group carries the index
    [estimated_index document k + j]. *)
Definition numbered_by_estimate (document : ParsedDocument)
    (groups : list (list Chunk)) : Prop :=
  length groups = length (sections document)
  /\ forall (k : nat) (section : DocumentSection) (group : list Chunk),
       sections document !! k = Some section ->
       groups !! k = Some group ->
       forall (j : nat) (c : Chunk),
         group !! j = Some c ->
         copied_from section c
         /\ index_of c
            = Some (estimated_index document (Z.of_nat k) + Z.of_nat j).

(** A section of 1500 characters, and a document of three of them. *)
Definition page : DocumentSection :=
  {| title := "Page"; level := 1; tab_title := None; tab_id := None;
     content_len := 1500%nat; get_full_text := repeat "a"%char 1500 |}.

Definition three_pages : ParsedDocument :=
  {| document_id := "doc"; sections := [page; page; page] |}.


(** A chunk with its index, its tab id and its overlap counts blanked. *)
Definition erase_index_tab_id_overlap (c : Chunk) : Chunk :=
  match metadata c with
  | Some m =>
      {| content := content c;
         metadata := Some
           {| source_document_id := source_document_id m;
              source_tab := source_tab m;
              source_tab_id := None;
              source_section := source_section m;
              chunk_index := 0;
              start_position := start_position m;
              end_position := end_position m;
              overlap_before := 0;
              overlap_after := 0;
              heading_level := heading_level m;
              contains_question := contains_question m;
              estimated_tokens := estimated_tokens m;
              total_chunks := total_chunks m |};
         summary := summary c |}
  | None => c
  end.

(** Two chunks agree but for their index; when the second is a chunk of a
    section longer than the size, they need only agree but for their
    index, tab id and overlap counts. *)
Definition agree_up_to_index (max_size : Z) (document : ParsedDocument)
    (c c' : Chunk) : Prop :=
  erase_index c = erase_index c'
  \/ (erase_index_tab_id_overlap c = erase_index_tab_id_overlap c'
      /\ exists section,
           In section (sections document)
           /\ max_size < len (get_full_text section)
           /\ copied_from section c').

(** "Hello dear", a blank line, "world again", in one section. *)
Definition two_paragraph_section : DocumentSection :=
  {| title := "Notes"; level := 1; tab_title := None; tab_id := None;
     content_len := 23%nat;
     get_full_text :=
       text_of "Hello dear" ++ SmartChunkingStrategy.nl
       ++ SmartChunkingStrategy.nl ++ text_of "world again" |}.

(** A section of two characters, then one of seventeen. *)
Definition short_and_long : ParsedDocument :=
  {| document_id := "doc";
     sections := [section_of None None 2%nat "Hi"; hello_again] |}.


(** ** Properties of the primitives *)

Lemma len_nonneg {A} (l : list A) : 0 <= len l.
Proof. unfold len. lia. Qed.

Lemma len_app {A} (l k : list A) : len (l ++ k) = len l + len k.
Proof. unfold len. rewrite length_app. lia. Qed.

Lemma truthy_true {A} (l : list A) : truthy l = true <-> l <> [].
Proof. destruct l; simpl; split; congruence. Qed.

Lemma truthy_false {A} (l : list A) : truthy l = false <-> l = [].
Proof. destruct l; simpl; split; congruence. Qed.

Lemma lstrip_length (s : str) : (length (lstrip s) <= length s)%nat.
Proof.
  induction s as [|c s IH]; simpl; [lia|].
  destruct (isspace c); simpl; lia.
Qed.

Lemma lstrip_head (s : str) :
  match lstrip s with [] => True | c :: _ => isspace c = false end.
Proof.
  induction s as [|c s IH]; simpl; [exact I|].
  destruct (isspace c) eqn:E; simpl; [exact IH | exact E].
Qed.

Lemma lstrip_fixed (s : str) :
  match s with [] => True | c :: _ => isspace c = false end -> lstrip s = s.
Proof. destruct s as [|c s]; simpl; [reflexivity|]. intros ->. reflexivity. Qed.

Lemma lstrip_idem (s : str) : lstrip (lstrip s) = lstrip s.
Proof. apply lstrip_fixed, lstrip_head. Qed.

Lemma strip_length (s : str) : len (strip s) <= len s.
Proof.
  unfold strip, rstrip, len. rewrite length_rev.
  pose proof (lstrip_length (rev (lstrip s))) as H1.
  rewrite length_rev in H1. pose proof (lstrip_length s). lia.
Qed.

(** Dropping leading blanks from a text that ends in a non-blank leaves
    that end in place. *)
Lemma lstrip_keeps_last (s : str) (c : ascii) :
  isspace c = false -> lstrip (s ++ [c]) = lstrip s ++ [c].
Proof.
  intros Hc. induction s as [|x s IH]; simpl.
  - rewrite Hc. reflexivity.
  - destruct (isspace x); [exact IH | reflexivity].
Qed.

Lemma rstrip_lstrip_head (s : str) :
  match s with [] => True | c :: _ => isspace c = false end ->
  match rstrip s with [] => True | c :: _ => isspace c = false end.
Proof.
  unfold rstrip. induction s as [|x s IH] using rev_ind; [simpl; auto|].
  intros Hhead. rewrite rev_unit. simpl.
  destruct (isspace x) eqn:Ex.
  - apply IH. destruct s; simpl in *; [exact I | exact Hhead].
  - simpl. rewrite rev_involutive.
    destruct s; simpl in *; exact Hhead.
Qed.

Lemma strip_idem (s : str) : strip (strip s) = strip s.
Proof.
  unfold strip.
  rewrite (lstrip_fixed (rstrip (lstrip s))).
  - unfold rstrip. rewrite rev_involutive, lstrip_idem. reflexivity.
  - apply rstrip_lstrip_head, lstrip_head.
Qed.

Lemma clamp_index_range (n i : Z) : 0 <= n -> 0 <= clamp_index n i <= n.
Proof. unfold clamp_index. intros. destruct (Z.ltb_spec i 0); lia. Qed.

Lemma clamp_index_inside (n i : Z) : 0 <= i <= n -> clamp_index n i = i.
Proof. unfold clamp_index. intros. destruct (Z.ltb_spec i 0); lia. Qed.

Lemma slice_length_le {A} (l : list A) (i j : Z) :
  0 <= i -> 0 <= j -> len (slice l i j) <= Z.max 0 (j - i).
Proof.
  intros Hi Hj0. unfold slice.
  pose proof (clamp_index_range (len l) j (len_nonneg l)) as Hj.
  assert (clamp_index (len l) j <= j) as Hj'
    by (unfold clamp_index; destruct (Z.ltb_spec j 0); lia).
  assert (clamp_index (len l) i = Z.min i (len l)) as ->
    by (unfold clamp_index; destruct (Z.ltb_spec i 0); lia).
  unfold len in *. rewrite length_take, length_drop. lia.
Qed.

(** A slice with in-range bounds is a [take] of a [drop]. *)
Lemma slice_take_drop {A} (l : list A) (i k : Z) :
  0 <= i -> 0 <= k ->
  slice l i (i + k) = take (Z.to_nat k) (drop (Z.to_nat i) l).
Proof.
  intros Hi Hk. unfold slice, clamp_index.
  destruct (Z.ltb_spec i 0); [lia|].
  destruct (Z.ltb_spec (i + k) 0); [lia|].
  destruct (Z.le_gt_cases (i + k) (len l)).
  - rewrite !Z.min_l by lia. f_equal. lia.
  - destruct (Z.le_gt_cases i (len l)).
    + rewrite (Z.min_l i), (Z.min_r (i + k)) by lia.
      rewrite !take_ge; [reflexivity | |]; rewrite length_drop; unfold len in *; lia.
    + rewrite !Z.min_r by lia. rewrite Z.sub_diag.
      rewrite (drop_ge l (Z.to_nat i)) by (unfold len in *; lia).
      rewrite take_nil. reflexivity.
Qed.

Lemma rfind_at_range (c : ascii) (l : str) (pos acc : Z) :
  rfind_at c l pos acc = acc
  \/ pos <= rfind_at c l pos acc < pos + len l.
Proof.
  revert pos acc. induction l as [|x l IH]; intros pos acc; simpl.
  - left. reflexivity.
  - unfold len. simpl length. rewrite Nat2Z.inj_succ.
    destruct (IH (pos + 1) (if Ascii.eqb x c then pos else acc)) as [E|E].
    + rewrite E. destruct (Ascii.eqb x c); [right; lia | left; reflexivity].
    + right. unfold len in E. lia.
Qed.

Lemma rfind_range (c : ascii) (s : str) (i j : Z) :
  0 <= i -> 0 <= j ->
  rfind c s i j = -1 \/ i <= rfind c s i j < j.
Proof.
  intros Hi Hj. unfold rfind.
  destruct (rfind_at_range c (slice s i j) (clamp_index (len s) i) (-1))
    as [E|E]; [left; exact E|].
  pose proof (len_nonneg s).
  destruct (Z.le_gt_cases i (len s)).
  - rewrite clamp_index_inside in * by lia.
    pose proof (slice_length_le s i j Hi Hj). right. lia.
  - exfalso. revert E. unfold slice.
    assert (clamp_index (len s) i = len s) as ->
      by (unfold clamp_index; destruct (Z.ltb_spec i 0); lia).
    rewrite drop_ge by (unfold len; lia). rewrite take_nil.
    unfold len at 3. simpl. lia.
Qed.

(** ** The size-based splitter *)

Section Splitter.

Variable self : BasicChunkingStrategy.t.
Variable text : str.

Local Abbreviation max_size := (BasicChunkingStrategy.max_chunk_size self).
Local Abbreviation overlap := (BasicChunkingStrategy.overlap_size self).

(** One iteration of the loop, in terms of the window it cuts. *)
Lemma split_loop_step (fuel : nat) (start : Z) (chunks : list str) :
  BasicChunkingStrategy.split_loop self text (S fuel) start chunks =
  if start <? len text then
    let e := window_end self text start in
    BasicChunkingStrategy.split_loop self text fuel
      (Z.max (start + max_size - overlap) e)
      (if truthy (window_text text (start, e))
       then chunks ++ [window_text text (start, e)] else chunks)
  else Ret chunks.
Proof. reflexivity. Qed.

Lemma split_loop_done (fuel : nat) (start : Z) (chunks : list str) :
  len text <= start ->
  BasicChunkingStrategy.split_loop self text fuel start chunks = Ret chunks.
Proof.
  intros H. destruct fuel; simpl;
    destruct (Z.ltb_spec start (len text)); try lia; reflexivity.
Qed.

Hypothesis max_size_pos : 0 < max_size.

Lemma window_end_bounds (start : Z) :
  0 <= start < len text ->
  start < window_end self text start <= len text
  /\ window_end self text start <= start + max_size.
Proof.
  intros Hs. unfold window_end.
  set (end0 := Z.min (start + max_size) (len text)).
  assert (start < end0 <= len text /\ end0 <= start + max_size) as He
    by (unfold end0; lia).
  destruct (Z.ltb_spec end0 (len text)); [|exact He].
  destruct (Z.ltb_spec (5 * start + 4 * max_size)
              (5 * rfind " " text start end0)); [|exact He].
  destruct (rfind_range " " text start end0) as [E|E]; lia.
Qed.

Lemma window_text_well_formed (start : Z) :
  0 <= start < len text ->
  truthy (window_text text (start, window_end self text start)) = true ->
  well_formed_piece max_size
    (window_text text (start, window_end self text start)).
Proof.
  intros Hs Ht. destruct (window_end_bounds start Hs) as [Hb1 Hb2].
  split; [exact Ht|]. split; [apply strip_idem|].
  unfold window_text. simpl.
  pose proof (strip_length (slice text start (window_end self text start))).
  pose proof (slice_length_le text start (window_end self text start)).
  lia.
Qed.

(** The loop returns when it is given more iterations than characters
    remain, and every piece it adds is non-empty, trimmed and within the
    size. *)
Lemma split_loop_pieces (fuel : nat) :
  forall (start : Z) (chunks : list str),
    0 <= start -> len text - start < Z.of_nat fuel ->
    exists pieces,
      BasicChunkingStrategy.split_loop self text fuel start chunks
      = Ret (chunks ++ pieces)
      /\ Forall (well_formed_piece max_size) pieces.
Proof.
  induction fuel as [|fuel IH]; intros start chunks Hs Hf.
  - exists []. rewrite split_loop_done by lia.
    rewrite app_nil_r. split; [reflexivity | constructor].
  - rewrite split_loop_step.
    destruct (Z.ltb_spec start (len text)) as [Hlt|Hge].
    + cbv zeta.
      destruct (window_end_bounds start (conj Hs Hlt)) as [Hb1 Hb2].
      set (e := window_end self text start) in *.
      destruct (truthy (window_text text (start, e))) eqn:Ht.
      * destruct (IH (Z.max (start + max_size - overlap) e)
                    (chunks ++ [window_text text (start, e)]))
          as (pieces & -> & Hp); [lia | lia |].
        exists (window_text text (start, e) :: pieces).
        rewrite <- app_assoc. split; [reflexivity|].
        constructor; [|exact Hp].
        apply window_text_well_formed; [lia | exact Ht].
      * destruct (IH (Z.max (start + max_size - overlap) e) chunks)
          as (pieces & -> & Hp); [lia | lia |].
        exists pieces. split; [reflexivity | exact Hp].
    + exists []. rewrite app_nil_r. split; [reflexivity | constructor].
Qed.

(** Iterations beyond those the loop needs change nothing. *)
Lemma split_loop_fuel (fuel : nat) :
  forall (fuel' : nat) (start : Z) (chunks : list str),
    0 <= start ->
    len text - start < Z.of_nat fuel -> len text - start < Z.of_nat fuel' ->
    BasicChunkingStrategy.split_loop self text fuel start chunks
    = BasicChunkingStrategy.split_loop self text fuel' start chunks.
Proof.
  induction fuel as [|fuel IH]; intros fuel' start chunks Hs Hf Hf'.
  - rewrite !split_loop_done by lia. reflexivity.
  - destruct fuel' as [|fuel'].
    + rewrite !split_loop_done by lia. reflexivity.
    + rewrite !split_loop_step.
      destruct (Z.ltb_spec start (len text)) as [Hlt|Hge]; [|reflexivity].
      cbv zeta.
      destruct (window_end_bounds start (conj Hs Hlt)) as [Hb1 Hb2].
      apply IH; lia.
Qed.

Lemma split_text_with_overlap_pieces :
  exists pieces,
    BasicChunkingStrategy._split_text_with_overlap self text = Ret pieces
    /\ Forall (well_formed_piece max_size) pieces.
Proof.
  unfold BasicChunkingStrategy._split_text_with_overlap.
  destruct (split_loop_pieces (S (length text)) 0 []) as (pieces & E & H);
    [lia | unfold len; lia |].
  exists pieces. split; [exact E | exact H].
Qed.

End Splitter.

(** ** BasicChunkingStrategy: sections and documents *)

Lemma set_total_chunks_content (n : Z) (c : Chunk) :
  content (set_total_chunks n c) = content c.
Proof. unfold set_total_chunks. destruct (metadata c); reflexivity. Qed.

Lemma set_total_chunks_summary (n : Z) (c : Chunk) :
  summary (set_total_chunks n c) = summary c.
Proof. unfold set_total_chunks. destruct (metadata c); reflexivity. Qed.

Lemma set_total_chunks_index (n : Z) (c : Chunk) :
  index_of (set_total_chunks n c) = index_of c.
Proof.
  unfold set_total_chunks, index_of.
  destruct (metadata c) eqn:E; simpl; [reflexivity | rewrite E; reflexivity].
Qed.

Section BasicStrategy.

Variable self : BasicChunkingStrategy.t.
Hypothesis max_size_pos : 0 < BasicChunkingStrategy.max_chunk_size self.

Lemma chunk_section_basic (section : DocumentSection) (doc_id : string)
    (start_index : Z) (tab_name tab_id : option string) :
  exists cs,
    BasicChunkingStrategy._chunk_section self section doc_id start_index
      tab_name tab_id = Ret cs
    /\ forall (i : nat) (c : Chunk),
         cs !! i = Some c ->
         basic_chunk (BasicChunkingStrategy.max_chunk_size self)
           (start_index + Z.of_nat i) c.
Proof.
  unfold BasicChunkingStrategy._chunk_section.
  destruct (negb (truthy (strip (get_full_text section)))).
  { exists []. split; [reflexivity|]. intros i c H. destruct i; discriminate. }
  destruct (Z.leb_spec (len (get_full_text section))
              (BasicChunkingStrategy.max_chunk_size self)) as [Hle|Hgt].
  - eexists. split; [reflexivity|]. intros i c H.
    destruct i as [|i]; [|destruct i; discriminate].
    injection H as <-. unfold basic_chunk, index_of. simpl.
    rewrite Z.add_0_r. auto.
  - destruct (split_text_with_overlap_pieces self (get_full_text section)
                max_size_pos) as (pieces & -> & Hp).
    simpl. eexists. split; [reflexivity|]. intros i c H.
    rewrite list_lookup_imap in H.
    destruct (pieces !! i) as [p|] eqn:Ep; [|discriminate].
    injection H as <-. unfold basic_chunk, index_of. simpl.
    rewrite Forall_lookup in Hp. destruct (Hp i p Ep) as (_ & _ & Hlen).
    auto.
Qed.

Lemma chunk_sections_basic (doc_id : string) (todo : list DocumentSection) :
  forall (chunk_index : Z) (chunks : list Chunk),
    chunk_index = len chunks ->
    (forall (i : nat) (c : Chunk), chunks !! i = Some c ->
       basic_chunk (BasicChunkingStrategy.max_chunk_size self)
         (Z.of_nat i) c) ->
    exists cs,
      BasicChunkingStrategy.chunk_sections self doc_id todo chunk_index chunks
      = Ret cs
      /\ forall (i : nat) (c : Chunk), cs !! i = Some c ->
           basic_chunk (BasicChunkingStrategy.max_chunk_size self)
             (Z.of_nat i) c.
Proof.
  induction todo as [|section rest IH]; intros idx chunks Hidx Hcs; simpl.
  - exists chunks. split; [reflexivity | exact Hcs].
  - destruct (chunk_section_basic section doc_id idx
                (tab_title section) (tab_id section)) as (scs & -> & Hs).
    simpl. apply IH.
    + rewrite len_app. lia.
    + intros i c H. apply lookup_app_Some in H as [H|[Hge H]].
      * apply Hcs, H.
      * specialize (Hs _ _ H).
        replace (Z.of_nat i) with (idx + Z.of_nat (i - length chunks));
          [exact Hs | unfold len in Hidx; lia].
Qed.

Lemma chunk_document_basic (document : ParsedDocument) :
  exists cs,
    BasicChunkingStrategy.chunk_document self document = Ret cs
    /\ forall (i : nat) (c : Chunk), cs !! i = Some c ->
         basic_chunk (BasicChunkingStrategy.max_chunk_size self)
           (Z.of_nat i) c.
Proof.
  unfold BasicChunkingStrategy.chunk_document.
  destruct (chunk_sections_basic (document_id document) (sections document)
              0 []) as (cs & -> & Hcs).
  - reflexivity.
  - intros i c H. destruct i; discriminate.
  - simpl. eexists. split; [reflexivity|]. intros i c H.
    rewrite list_lookup_fmap in H.
    destruct (cs !! i) as [c0|] eqn:E; [|discriminate].
    injection H as <-. destruct (Hcs i c0 E) as (H1 & H2 & H3).
    unfold basic_chunk.
    rewrite set_total_chunks_index, set_total_chunks_content,
      set_total_chunks_summary. auto.
Qed.

End BasicStrategy.

(** ** Size-based splitting: coverage and size bound *)

(** C2, the code at the failing input: on 850 letters, a space and 250
    letters, at the default sizes (1000 and 100), the splitter cuts the
    first window at the space and moves on to offset 900: it returns the
    first 850 characters and the last 201.  The 50 characters in between,
    a space and 49 letters, are in no piece, so no removal of overlap
    regions gives back the text; and the two chunks declare an overlap of
    100 characters with each other, of which they share none. *)
Theorem split_drops_text_at_default_sizes :
  BasicChunkingStrategy._split_text_with_overlap BasicChunkingStrategy.default
    gapped_text
  = Ret [slice gapped_text 0 850; slice gapped_text 900 1101]
  /\ slice gapped_text 0 850 = repeat "a"%char 850
  /\ slice gapped_text 850 900 = " "%char :: repeat "b"%char 49
  /\ slice gapped_text 900 1101 = repeat "b"%char 201
  /\ (forall overlap : nat,
        without_overlaps overlap
          [slice gapped_text 0 850; slice gapped_text 900 1101]
        <> gapped_text)
  /\ exists c1 c2,
       BasicChunkingStrategy._chunk_section BasicChunkingStrategy.default
         gapped_section "doc" 0 None None = Ret [c1; c2]
       /\ content c1 = slice gapped_text 0 850
       /\ content c2 = slice gapped_text 900 1101
       /\ overlaps_of c1 = Some (0, 100)
       /\ overlaps_of c2 = Some (100, 0).
Proof.
  split; [vm_compute; reflexivity|].
  split; [vm_compute; reflexivity|].
  split; [vm_compute; reflexivity|].
  split; [vm_compute; reflexivity|].
  split.
  - intros overlap H. apply (f_equal (@length ascii)) in H.
    unfold without_overlaps in H. cbn [map concat] in H.
    rewrite app_nil_r, length_app, length_drop in H.
    assert (L1 : length (slice gapped_text 0 850) = 850%nat)
      by (vm_compute; reflexivity).
    assert (L2 : length (slice gapped_text 900 1101) = 201%nat)
      by (vm_compute; reflexivity).
    assert (L3 : length gapped_text = 1101%nat)
      by (vm_compute; reflexivity).
    rewrite L1, L2, L3 in H. lia.
  - eexists _, _. split; [vm_compute; reflexivity|].
    repeat split; vm_compute; reflexivity.
Qed.

(** C6, as stated, fails in its exception: no input makes the splitter
    produce a piece longer than a positive [max_chunk_size]. *)
Lemma no_piece_exceeds_max_chunk_size :
  ~ exists (self : BasicChunkingStrategy.t) (text : str)
      (pieces : list str) (p : str),
      0 < BasicChunkingStrategy.max_chunk_size self
      /\ BasicChunkingStrategy._split_text_with_overlap self text = Ret pieces
      /\ In p pieces
      /\ BasicChunkingStrategy.max_chunk_size self < len p.
Proof.
  intros (self & text & pieces & p & Hmax & E & Hin & Hlen).
  destruct (split_text_with_overlap_pieces self text Hmax)
    as (pieces' & E' & Hp).
  rewrite E in E'. injection E' as <-.
  rewrite Forall_forall in Hp. apply list_elem_of_In in Hin.
  destruct (Hp p Hin) as (_ & _ & H). lia.
Qed.

(** C6, amended: for a positive [max_chunk_size] the basic strategy
    returns, and the content of every chunk holds at most
    [max_chunk_size] characters, a run without spaces included: the
    splitter cuts it at the limit. *)
Theorem basic_chunks_within_max_chunk_size
    (self : BasicChunkingStrategy.t) (document : ParsedDocument) :
  0 < BasicChunkingStrategy.max_chunk_size self ->
  exists chunks,
    BasicChunkingStrategy.chunk_document self document = Ret chunks
    /\ Forall (fun c => len (content c)
                        <= BasicChunkingStrategy.max_chunk_size self) chunks.
Proof.
  intros Hmax.
  destruct (chunk_document_basic self Hmax document) as (cs & E & H).
  exists cs. split; [exact E|]. apply Forall_lookup. intros i c Hc.
  destruct (H i c Hc) as (_ & Hlen & _). exact Hlen.
Qed.

Lemma basic_chunks_within_max_chunk_size_witness :
  exists chunks,
    BasicChunkingStrategy.chunk_document tiny_basic
      {| document_id := "doc"; sections := [hello_again] |} = Ret chunks
    /\ Forall (fun c => len (content c) <= 10) chunks.
Proof.
  apply (basic_chunks_within_max_chunk_size tiny_basic
           {| document_id := "doc"; sections := [hello_again] |}).
  simpl. lia.
Defined.

(** ** Question detection *)

Lemma match_literal_ci_spec (pat : str) :
  forall s : str,
    match_literal_ci pat s = true
    <-> exists w post, s = w ++ post /\ map to_lower w = map to_lower pat.
Proof.
  induction pat as [|p pat IH]; intros s; simpl.
  - split; [intros _; exists [], s; auto | reflexivity].
  - destruct s as [|c s].
    + split; [discriminate|].
      intros (w & post & E & H). destruct w; simpl in *; discriminate.
    + rewrite andb_true_iff, IH, Ascii.eqb_eq. split.
      * intros (Hc & w & post & -> & Hw).
        exists (c :: w), post. simpl. rewrite Hw, Hc. auto.
      * intros (w & post & E & H). destruct w as [|c' w]; [discriminate|].
        simpl in *. injection E as -> ->. injection H as Hc Hw.
        split; [congruence|]. exists w, post. auto.
Qed.

Lemma search_alternatives_ci_spec (alts : list str) :
  forall s : str,
    search_alternatives_ci alts s = true
    <-> exists pat, In pat alts /\ occurs_ci pat s.
Proof.
  assert (Hhead : forall s,
    existsb (fun pat => match_literal_ci pat s) alts = true
    <-> exists pat, In pat alts
          /\ exists w post, s = w ++ post /\ map to_lower w = map to_lower pat).
  { intros s. rewrite existsb_exists. split.
    - intros (pat & Hin & Hm). exists pat. split; [exact Hin|].
      apply match_literal_ci_spec, Hm.
    - intros (pat & Hin & Hm). exists pat. split; [exact Hin|].
      apply match_literal_ci_spec, Hm. }
  induction s as [|c s IH]; simpl; rewrite orb_true_iff, Hhead.
  - split.
    + intros [(pat & Hin & w & post & E & H)|]; [|discriminate].
      exists pat. split; [exact Hin|]. exists [], w, post. auto.
    + intros (pat & Hin & pre & w & post & E & H). left.
      exists pat. split; [exact Hin|].
      destruct pre; [|discriminate]. exists w, post. auto.
  - rewrite IH. split.
    + intros [(pat & Hin & w & post & E & H)|(pat & Hin & pre & w & post & E & H)].
      * exists pat. split; [exact Hin|]. exists [], w, post. auto.
      * exists pat. split; [exact Hin|]. exists (c :: pre), w, post.
        simpl. rewrite E. auto.
    + intros (pat & Hin & pre & w & post & E & H).
      destruct pre as [|c' pre]; simpl in E.
      * left. exists pat. split; [exact Hin|]. exists w, post. auto.
      * injection E as -> ->. right. exists pat. split; [exact Hin|].
        exists pre, w, post. auto.
Qed.

Lemma to_lower_question_mark (c : ascii) :
  to_lower c = "?"%char -> c = "?"%char.
Proof.
  destruct c as [[] [] [] [] [] [] [] []]; vm_compute; congruence.
Qed.

Lemma occurs_ci_question_mark (text : str) :
  occurs_ci (text_of "?") text <-> In "?"%char text.
Proof.
  split.
  - intros (pre & w & post & -> & H).
    destruct w as [|c [|c' w]]; try discriminate.
    simpl in H. injection H as H. apply to_lower_question_mark in H as ->.
    apply in_or_app. right. left. reflexivity.
  - intros H. apply in_split in H as (pre & post & ->).
    exists pre, ["?"%char], post. auto.
Qed.

(** C5, as stated, fails: the search is for substrings, so "somewhat",
    which holds no question mark and no keyword as a word, is flagged. *)
Lemma somewhat_is_flagged :
  BasicChunkingStrategy._contains_question (text_of "somewhat") = true
  /\ SmartChunkingStrategy._contains_question (text_of "somewhat") = true
  /\ contains_question_by_words (text_of "somewhat") = false.
Proof. vm_compute. auto. Qed.

(** C5, amended: in both strategies [_contains_question] is true exactly
    when the text holds a question mark or holds one of what, how, why,
    when, where, who as a substring, ignoring case; inside a longer word
    counts. *)
Theorem contains_question_is_substring_search (text : str) :
  (BasicChunkingStrategy._contains_question text = true
   <-> In "?"%char text
       \/ exists kw,
            In kw ["what"; "how"; "why"; "when"; "where"; "who"]%string
            /\ occurs_ci (text_of kw) text)
  /\ SmartChunkingStrategy._contains_question text
     = BasicChunkingStrategy._contains_question text.
Proof.
  split; [|reflexivity].
  unfold BasicChunkingStrategy._contains_question.
  rewrite search_alternatives_ci_spec.
  unfold BasicChunkingStrategy.question_patterns.
  rewrite <- occurs_ci_question_mark. split.
  - intros (pat & Hin & Hocc).
    apply in_map_iff in Hin as (kw & <- & Hin).
    destruct Hin as [<-|Hin]; [left; exact Hocc|].
    right. exists kw. split; [exact Hin | exact Hocc].
  - intros [Hocc|(kw & Hin & Hocc)].
    + exists (text_of "?"). split; [left; reflexivity | exact Hocc].
    + exists (text_of kw). split; [|exact Hocc].
      right. apply (in_map text_of) in Hin. exact Hin.
Qed.

(** ** Positions and provenance *)

(** Scenario A: "Hello world" under the default sizes is one chunk over
    the whole section. *)
Example hello_world_is_one_chunk :
  exists c m,
    BasicChunkingStrategy.chunk_document BasicChunkingStrategy.default
      {| document_id := "doc"; sections := [hello_world] |} = Ret [c]
    /\ content c = text_of "Hello world"
    /\ metadata c = Some m
    /\ start_position m = 0 /\ end_position m = 11
    /\ overlap_before m = 0 /\ overlap_after m = 0.
Proof. do 2 eexists. vm_compute. repeat split. Qed.

(** C8, the code at the failing input: "Hello world again" split at size
    10 gives a second chunk "d again", cut from [text[10:17]], whose
    metadata says [start_position = 0] and [end_position = 7]. *)
Theorem second_piece_positions_start_at_zero :
  exists c1 c2 m2,
    BasicChunkingStrategy.chunk_document tiny_basic
      {| document_id := "doc"; sections := [hello_again] |} = Ret [c1; c2]
    /\ content c2 = text_of "d again"
    /\ content c2 = slice (get_full_text hello_again) 10 17
    /\ metadata c2 = Some m2
    /\ start_position m2 = 0 /\ end_position m2 = 7
    /\ slice (get_full_text hello_again) 0 7 <> content c2.
Proof.
  do 3 eexists. vm_compute. repeat split. discriminate.
Qed.

(** C10, the code at the failing input: a section with tab id "t.1",
    longer than [max_chunk_size], chunked by the smart strategy: every
    chunk carries the tab title and no tab id, where the basic strategy
    copies both. *)
Theorem smart_chunks_lose_tab_id :
  (exists chunks,
     SmartChunkingStrategy.chunk_document (tiny_smart failing_backend)
       submission_order
       {| document_id := "doc"; sections := [hello_again] |} = Ret chunks
     /\ chunks <> []
     /\ Forall (fun c => exists m, metadata c = Some m
                  /\ source_tab m = tab_title hello_again
                  /\ source_tab_id m = None) chunks)
  /\ (exists chunks,
        BasicChunkingStrategy.chunk_document tiny_basic
          {| document_id := "doc"; sections := [hello_again] |} = Ret chunks
        /\ chunks <> []
        /\ Forall (fun c => exists m, metadata c = Some m
                     /\ source_tab m = tab_title hello_again
                     /\ source_tab_id m = tab_id hello_again) chunks)
  /\ tab_id hello_again = Some "t.1"%string.
Proof.
  split; [|split; [|reflexivity]].
  - eexists. split; [vm_compute; reflexivity|]. split; [discriminate|].
    repeat constructor; eexists; repeat split.
  - eexists. split; [vm_compute; reflexivity|]. split; [discriminate|].
    repeat constructor; eexists; repeat split.
Qed.

(** ** SmartChunkingStrategy: every step returns *)

Lemma await_each_Forall {A} (P : A -> Prop) (tasks : list (outcome A)) :
  Forall (fun t => exists a, t = Ret a /\ P a) tasks ->
  exists rs, await_each tasks = Ret rs /\ Forall P rs.
Proof.
  induction 1 as [|t tasks (a & -> & Ha) _ (rs & IH & Hrs)]; simpl.
  - exists []. split; [reflexivity | constructor].
  - rewrite IH. simpl. exists (a :: rs). split; [reflexivity|].
    constructor; assumption.
Qed.

Lemma for_each_invariant {A S} (Inv : S -> Prop) (body : S -> A -> outcome S)
    (xs : list A) :
  (forall s x, Inv s -> exists s', body s x = Ret s' /\ Inv s') ->
  forall s, Inv s -> exists s', for_each xs s body = Ret s' /\ Inv s'.
Proof.
  intros Hbody. induction xs as [|x xs IH]; intros s Hs; simpl.
  - exists s. split; [reflexivity | exact Hs].
  - destruct (Hbody s x Hs) as (s' & -> & Hs'). simpl. apply IH, Hs'.
Qed.

Lemma generate_summary_returns (self : SmartChunkingStrategy.t) (text : str) :
  SmartChunkingStrategy._generate_summary self text
  = Ret (summary_reply (SmartChunkingStrategy.llm_provider self) text).
Proof.
  unfold SmartChunkingStrategy._generate_summary, summary_reply.
  destruct (summarize _ text 100) as [e|r]; simpl; [reflexivity|].
  destruct (response_content r) as [body|]; simpl; [|reflexivity].
  destruct (success r && truthy body); reflexivity.
Qed.

(** The loop over the digit runs of a response, from the break points
    collected so far: with every run within the limit of [int] it collects
    the values in range. *)
Lemma parse_loop_within_limit (text : str) (runs : list str) :
  Forall (fun m => len m <= int_max_str_digits) runs ->
  forall acc,
    for_each runs acc
      (fun break_points m =>
         pos <- int_of_str m ;;
         Ret (if (0 <? pos) && (pos <? len text)
              then break_points ++ [pos] else break_points))
    = Ret (acc ++ List.filter (fun pos => (0 <? pos) && (pos <? len text))
                    (map decimal_value runs)).
Proof.
  induction 1 as [|m runs Hm _ IH]; intros acc; simpl.
  - rewrite app_nil_r. reflexivity.
  - unfold int_of_str at 1.
    destruct (int_max_str_digits <? len m) eqn:E; [lia|]. simpl.
    rewrite IH.
    destruct ((0 <? decimal_value m) && (decimal_value m <? len text));
      [rewrite <- app_assoc|]; reflexivity.
Qed.

(** A run beyond the limit makes the loop raise. *)
Lemma parse_loop_over_limit (text : str) (runs : list str) :
  Exists (fun m => int_max_str_digits < len m) runs ->
  forall acc,
    exists e,
      for_each runs acc
        (fun break_points m =>
           pos <- int_of_str m ;;
           Ret (if (0 <? pos) && (pos <? len text)
                then break_points ++ [pos] else break_points))
      = Raise e.
Proof.
  induction 1 as [m runs Hm|m runs _ IH]; intros acc; simpl.
  - unfold int_of_str at 1.
    destruct (int_max_str_digits <? len m) eqn:E; [|lia]. simpl. eauto.
  - unfold int_of_str at 1.
    destruct (int_max_str_digits <? len m); simpl; [eauto | apply IH].
Qed.

Lemma parse_break_points_within_limit (text response : str) :
  Forall (fun m => len m <= int_max_str_digits) (findall_digits response) ->
  SmartChunkingStrategy.parse_break_points text response
  = Ret (merge_sort Z.le
           (List.filter (fun pos => (0 <? pos) && (pos <? len text))
              (map decimal_value (findall_digits response)))).
Proof.
  intros H. unfold SmartChunkingStrategy.parse_break_points.
  rewrite (parse_loop_within_limit text _ H). reflexivity.
Qed.

Lemma parse_break_points_over_limit (text response : str) :
  Exists (fun m => int_max_str_digits < len m) (findall_digits response) ->
  exists e, SmartChunkingStrategy.parse_break_points text response = Raise e.
Proof.
  intros H. unfold SmartChunkingStrategy.parse_break_points.
  destruct (parse_loop_over_limit text _ H []) as (e & ->). simpl. eauto.
Qed.

(** Reading the offsets returns them or raises. *)
Lemma parse_break_points_completes (text response : str) :
  (exists l, SmartChunkingStrategy.parse_break_points text response = Ret l)
  \/ (exists e,
        SmartChunkingStrategy.parse_break_points text response = Raise e).
Proof.
  assert (Forall (fun m => len m <= int_max_str_digits)
            (findall_digits response)
          \/ Exists (fun m => int_max_str_digits < len m)
               (findall_digits response)) as [H|H].
  { induction (findall_digits response) as [|m runs [IH|IH]].
    - left. constructor.
    - destruct (Z_le_dec (len m) int_max_str_digits).
      + left. constructor; assumption.
      + right. apply Exists_cons_hd. lia.
    - right. apply Exists_cons_tl, IH. }
  - left. eexists. apply parse_break_points_within_limit, H.
  - right. apply parse_break_points_over_limit, H.
Qed.

Lemma find_semantic_breaks_returns (self : SmartChunkingStrategy.t)
    (text : str) :
  returns (SmartChunkingStrategy._find_semantic_breaks self text).
Proof.
  unfold SmartChunkingStrategy._find_semantic_breaks, returns.
  destruct (generate_response _ _) as [e|r]; simpl; [eauto|].
  destruct (response_content r) as [c|]; simpl; [|eauto].
  destruct (success r && truthy c); simpl; [|eauto].
  destruct (parse_break_points_completes text c) as [(l & ->)|(e & ->)];
    simpl; eauto.
Qed.

Section SmartStrategy.

Variable self : SmartChunkingStrategy.t.
Hypothesis max_size_pos : 0 < SmartChunkingStrategy.max_chunk_size self.

Lemma split_at_break_points_returns (text : str) (break_points : list Z) :
  returns (SmartChunkingStrategy._split_at_break_points self text
             break_points).
Proof.
  unfold SmartChunkingStrategy._split_at_break_points, returns.
  destruct (negb (truthy break_points)).
  - destruct (split_text_with_overlap_pieces
                (SmartChunkingStrategy.basic_strategy self) text max_size_pos)
      as (pieces & E & _). eauto.
  - destruct (fold_left _ break_points (0, [])) as [start chunks].
    destruct (start <? len text); eauto.
Qed.

(** The chunks of one section are numbered onwards from the start index
    and carry no summary. *)
Lemma chunk_section_semantically_spec (section : DocumentSection)
    (doc_id : string) (start_index : Z) (tab_name tab_id : option string) :
  exists cs,
    SmartChunkingStrategy._chunk_section_semantically self section doc_id
      start_index tab_name tab_id = Ret cs
    /\ forall (i : nat) (c : Chunk),
         cs !! i = Some c ->
         index_of c = Some (start_index + Z.of_nat i) /\ summary c = None.
Proof.
  unfold SmartChunkingStrategy._chunk_section_semantically.
  destruct (negb (truthy (strip (get_full_text section)))).
  { exists []. split; [reflexivity|]. intros i c H. destruct i; discriminate. }
  destruct (len (get_full_text section)
            <=? SmartChunkingStrategy.max_chunk_size self).
  - destruct (chunk_section_basic (SmartChunkingStrategy.basic_strategy self)
                max_size_pos section doc_id start_index tab_name tab_id)
      as (cs & E & H).
    exists cs. split; [exact E|]. intros i c Hc.
    destruct (H i c Hc) as (H1 & _ & H3). auto.
  - destruct (find_semantic_breaks_returns self (get_full_text section))
      as (bps & ->). simpl.
    destruct (split_at_break_points_returns (get_full_text section) bps)
      as (texts & ->). simpl.
    eexists. split; [reflexivity|]. intros i c H.
    rewrite list_lookup_imap in H.
    destruct (texts !! i) as [p|]; [|discriminate].
    injection H as <-. auto.
Qed.

Variable order : completion_order.
Hypothesis order_rearranges : rearranges order.

Lemma section_batch_invariant (P : Chunk -> Prop) (document : ParsedDocument) :
  (forall section pos cs,
     SmartChunkingStrategy._chunk_section_semantically self section
       (document_id document) (estimated_index document pos)
       (tab_title section) (tab_id section) = Ret cs ->
     Forall P cs) ->
  forall (all_chunks : list Chunk) (i : Z),
    Forall P all_chunks ->
    exists cs,
      SmartChunkingStrategy.section_batch self order document all_chunks i
      = Ret cs
      /\ Forall P cs.
Proof.
  intros HP all_chunks i Hacc.
  unfold SmartChunkingStrategy.section_batch.
  match goal with
  | |- context [await_each (order ?n ?tasks)] =>
      destruct (await_each_Forall (Forall P) (order n tasks))
        as (rs & -> & Hrs)
  end.
  - eapply Permutation_Forall; [apply order_rearranges|].
    apply Forall_lookup. intros j t Ht.
    rewrite list_lookup_imap in Ht.
    destruct (slice (sections document) i (i + 3) !! j) as [section|];
      [|discriminate].
    injection Ht as <-.
    match goal with
    | |- exists a, SmartChunkingStrategy._chunk_section_semantically
                     ?s ?sec ?d ?idx ?tb ?ti = Ret a /\ _ =>
        destruct (chunk_section_semantically_spec sec d idx tb ti)
          as (cs & E & _)
    end.
    exists cs. split; [exact E|]. eapply (HP _ (i + Z.of_nat j)), E.
  - simpl. eexists. split; [reflexivity|].
    apply Forall_app. split; [exact Hacc|].
    apply Forall_concat, Hrs.
Qed.

End SmartStrategy.

(** ** The summary phase *)

Lemma summary_task_returns (self : SmartChunkingStrategy.t) (chunk : Chunk) :
  SmartChunkingStrategy.summary_task self chunk
  = Ret (summary_result self chunk).
Proof.
  unfold SmartChunkingStrategy.summary_task, summary_result.
  destruct (200 <? len (content chunk)); [|reflexivity].
  apply generate_summary_returns.
Qed.

Lemma gather_return_exceptions_Ret {A} (l : list A) :
  gather_return_exceptions (map Ret l) = Ret (map inr l).
Proof.
  induction l as [|x l IH]; simpl; [reflexivity|].
  rewrite IH. reflexivity.
Qed.

Lemma alter_out_of_range {A} (f : A -> A) (i : nat) (l : list A) :
  (length l <= i)%nat -> alter f i l = l.
Proof.
  intros H. apply list_eq. intros p.
  destruct (decide (p = i)) as [->|Hne].
  - rewrite list_lookup_alter_eq. rewrite lookup_ge_None_2 by lia. reflexivity.
  - rewrite list_lookup_alter_ne by congruence. reflexivity.
Qed.

(** Assigning one result is an update of one position. *)
Lemma assign_summary_alter (i : Z) (chunks : list Chunk) (j : nat)
    (r : exn + option str) :
  0 <= i ->
  SmartChunkingStrategy.assign_summary i chunks (j, r)
  = alter (apply_result r) (Z.to_nat i + j)%nat chunks.
Proof.
  intros Hi. unfold SmartChunkingStrategy.assign_summary. simpl.
  replace (Z.to_nat (i + Z.of_nat j)) with (Z.to_nat i + j)%nat by lia.
  destruct r as [e|[s|]]; simpl.
  - symmetry. apply list_alter_id. reflexivity.
  - destruct (truthy s) eqn:Hs.
    + destruct (Z.ltb_spec (i + Z.of_nat j) (len chunks)); simpl.
      * apply list_alter_ext; [|reflexivity].
        intros c _. unfold apply_result. rewrite Hs. reflexivity.
      * symmetry. apply alter_out_of_range. unfold len in *. lia.
    + rewrite andb_false_r. symmetry. apply list_alter_id.
      intros c. unfold apply_result. rewrite Hs. reflexivity.
  - symmetry. apply list_alter_id. reflexivity.
Qed.

Lemma assign_fold_lookup (i : Z) (rs : list (exn + option str)) :
  0 <= i ->
  forall (f : nat -> (exn + option str) -> nat * (exn + option str))
         (o : nat) (cur : list Chunk) (p : nat),
    (forall j r, f j r = ((o + j)%nat, r)) ->
    fold_left (SmartChunkingStrategy.assign_summary i) (imap f rs) cur !! p
    = if decide (Z.to_nat i + o <= p)%nat then
        match rs !! (p - (Z.to_nat i + o))%nat with
        | Some r => apply_result r <$> cur !! p
        | None => cur !! p
        end
      else cur !! p.
Proof.
  intros Hi. induction rs as [|r rs IH]; intros f o cur p Hf.
  - simpl. destruct (decide _); reflexivity.
  - simpl. rewrite (IH (f ∘ S) (S o)).
    2:{ intros j r'. simpl. rewrite Hf. f_equal. lia. }
    rewrite Hf, assign_summary_alter by exact Hi.
    replace (o + 0)%nat with o by lia.
    destruct (decide (Z.to_nat i + S o <= p)%nat) as [H1|H1].
    + destruct (decide (Z.to_nat i + o <= p)%nat) as [H2|H2]; [|lia].
      replace (p - (Z.to_nat i + o))%nat
        with (S (p - (Z.to_nat i + S o)))%nat by lia.
      simpl. rewrite list_lookup_alter_ne by lia. reflexivity.
    + destruct (decide (Z.to_nat i + o <= p)%nat) as [H2|H2].
      * replace p with (Z.to_nat i + o)%nat by lia.
        rewrite Nat.sub_diag. simpl. apply list_lookup_alter_eq.
      * rewrite list_lookup_alter_ne by lia. reflexivity.
Qed.

(** One batch of summaries updates the five positions from [i] on. *)
Lemma summary_batch_lookup (results : list (option str))
    (cur : list Chunk) (i : Z) :
  0 <= i ->
  exists cur',
    SmartChunkingStrategy.summary_batch (map Ret results) cur i = Ret cur'
    /\ forall p : nat,
         cur' !! p
         = if decide (Z.to_nat i <= p < Z.to_nat i + 5)%nat then
             match results !! p with
             | Some r => apply_result (inr r) <$> cur !! p
             | None => cur !! p
             end
           else cur !! p.
Proof.
  intros Hi. unfold SmartChunkingStrategy.summary_batch.
  rewrite slice_take_drop by lia.
  rewrite skipn_map, firstn_map, gather_return_exceptions_Ret. simpl.
  eexists. split; [reflexivity|]. intros p.
  unfold SmartChunkingStrategy.assign_summaries.
  rewrite (assign_fold_lookup i _ Hi pair 0%nat) by reflexivity.
  rewrite Nat.add_0_r.
  destruct (decide (Z.to_nat i <= p)%nat) as [H1|H1].
  - destruct (decide (p - Z.to_nat i < 5)%nat) as [H2|H2].
    + rewrite decide_True by lia.
      rewrite list_lookup_fmap, lookup_take_lt by lia.
      rewrite lookup_drop.
      replace (Z.to_nat i + (p - Z.to_nat i))%nat with p by lia.
      destruct (results !! p); reflexivity.
    + rewrite decide_False by lia.
      rewrite list_lookup_fmap, lookup_take_ge by lia. reflexivity.
  - rewrite decide_False by lia. reflexivity.
Qed.

Lemma summary_loop (results : list (option str)) (orig : list Chunk)
    (m : nat) :
  forall (a : nat) (cur : list Chunk),
    (forall p : nat,
       cur !! p = if decide (p < 5 * a)%nat then
                    match results !! p with
                    | Some r => apply_result (inr r) <$> orig !! p
                    | None => orig !! p
                    end
                  else orig !! p) ->
    exists fin,
      for_each (map (fun k : nat => 0 + 5 * Z.of_nat k) (seq a m)) cur
        (SmartChunkingStrategy.summary_batch (map Ret results)) = Ret fin
      /\ forall p : nat,
           fin !! p = if decide (p < 5 * (a + m))%nat then
                        match results !! p with
                        | Some r => apply_result (inr r) <$> orig !! p
                        | None => orig !! p
                        end
                      else orig !! p.
Proof.
  induction m as [|m IH]; intros a cur Hcur.
  - simpl. exists cur. split; [reflexivity|].
    rewrite Nat.add_0_r. exact Hcur.
  - simpl.
    destruct (summary_batch_lookup results cur (0 + 5 * Z.of_nat a))
      as (cur' & -> & Hcur'); [lia|].
    simpl. destruct (IH (S a) cur') as (fin & E & Hfin).
    + intros p. rewrite Hcur', Hcur.
      replace (Z.to_nat (0 + 5 * Z.of_nat a)) with (5 * a)%nat by lia.
      destruct (decide (5 * a <= p < 5 * a + 5)%nat) as [H1|H1].
      * rewrite (decide_False (P := (p < 5 * a)%nat)) by lia.
        rewrite decide_True by lia. reflexivity.
      * destruct (decide (p < 5 * a)%nat) as [H2|H2].
        -- rewrite decide_True by lia. reflexivity.
        -- rewrite decide_False by lia. reflexivity.
    + exists fin. split; [exact E|]. intros p. rewrite Hfin.
      replace (S a + m)%nat with (a + S m)%nat by lia. reflexivity.
Qed.

(** The batches of five assign to every chunk the result of its own
    task. *)
Lemma summary_phase (self : SmartChunkingStrategy.t) (chunks : list Chunk) :
  for_each
    (range 0 (len (map (SmartChunkingStrategy.summary_task self) chunks)) 5)
    chunks
    (SmartChunkingStrategy.summary_batch
       (map (SmartChunkingStrategy.summary_task self) chunks))
  = Ret (map (annotate self) chunks).
Proof.
  assert (map (SmartChunkingStrategy.summary_task self) chunks
          = map Ret (map (summary_result self) chunks)) as ->.
  { rewrite map_map. apply map_ext. intros c. apply summary_task_returns. }
  unfold range.
  set (n := len (map Ret (map (summary_result self) chunks))).
  set (m := Z.to_nat ((n - 0 + 5 - 1) / 5)).
  destruct (summary_loop (map (summary_result self) chunks) chunks m
              0%nat chunks) as (fin & -> & Hfin).
  { intros p. rewrite decide_False by lia. reflexivity. }
  f_equal. apply list_eq. intros p. rewrite Hfin.
  assert (n = len chunks) as Hn
    by (unfold n, len; rewrite !length_map; reflexivity).
  assert (len chunks <= 5 * Z.of_nat m) as Hm.
  { unfold m. rewrite Z2Nat.id by (apply Z.div_pos; unfold len in *; lia).
    pose proof (Z.mul_div_le (n - 0 + 5 - 1) 5 ltac:(lia)).
    pose proof (Z.mod_pos_bound (n - 0 + 5 - 1) 5 ltac:(lia)).
    pose proof (Z.div_mod (n - 0 + 5 - 1) 5 ltac:(lia)). lia. }
  rewrite !list_lookup_fmap. unfold annotate.
  destruct (chunks !! p) as [c|] eqn:Ec; simpl.
  - apply lookup_lt_Some in Ec. rewrite decide_True by (unfold len in *; lia).
    reflexivity.
  - destruct (decide _); reflexivity.
Qed.

(** ** SmartChunkingStrategy: the whole document *)

Section SmartDocument.

Variable self : SmartChunkingStrategy.t.
Hypothesis max_size_pos : 0 < SmartChunkingStrategy.max_chunk_size self.
Variable order : completion_order.
Hypothesis order_rearranges : rearranges order.

(** The [try] block returns: the chunks of the section phase, which carry
    no summary, then annotated when summaries are on, then given their
    total. *)
Lemma chunk_document_body_returns (document : ParsedDocument) :
  exists cs0,
    Forall (section_phase_chunk document) cs0
    /\ SmartChunkingStrategy.chunk_document_body self order document
       = Ret (let cs1 := if SmartChunkingStrategy.use_summaries self
                         then map (annotate self) cs0 else cs0 in
              map (set_total_chunks (len cs1)) cs1).
Proof.
  unfold SmartChunkingStrategy.chunk_document_body.
  destruct (for_each_invariant (Forall (section_phase_chunk document))
              (SmartChunkingStrategy.section_batch self order document)
              (range 0 (len (sections document)) 3)) with (s := @nil Chunk)
    as (cs0 & -> & Hcs0).
  - intros acc i Hacc.
    apply (section_batch_invariant self max_size_pos order order_rearranges);
      [|exact Hacc].
    intros section pos cs E.
    destruct (chunk_section_semantically_spec self max_size_pos section
                (document_id document) (estimated_index document pos)
                (tab_title section) (tab_id section)) as (cs' & E' & H).
    rewrite E in E'. injection E' as <-.
    apply Forall_lookup. intros k c Hc. destruct (H k c Hc) as [H1 H2].
    split; [exact H2|]. exists pos, k. exact H1.
  - constructor.
  - exists cs0. split; [exact Hcs0|]. simpl.
    destruct (SmartChunkingStrategy.use_summaries self).
    + rewrite summary_phase. reflexivity.
    + reflexivity.
Qed.

End SmartDocument.

Lemma await_each_completes {A} (tasks : list (outcome A)) :
  Forall (fun t => returns t \/ exists e, t = Raise e) tasks ->
  returns (await_each tasks) \/ exists e, await_each tasks = Raise e.
Proof.
  induction 1 as [|t tasks [(a & ->)|(e & ->)] _ IH]; simpl.
  - left. eexists. reflexivity.
  - destruct IH as [(rs & ->)|(e & ->)]; simpl;
      [left | right]; eexists; reflexivity.
  - right. eexists. reflexivity.
Qed.

Lemma for_each_completes {A S} (body : S -> A -> outcome S) (xs : list A) :
  (forall s x, returns (body s x) \/ exists e, body s x = Raise e) ->
  forall s,
    returns (for_each xs s body) \/ exists e, for_each xs s body = Raise e.
Proof.
  intros Hbody. induction xs as [|x xs IH]; intros s; simpl.
  - left. eexists. reflexivity.
  - destruct (Hbody s x) as [(s' & ->)|(e & ->)]; simpl.
    + apply IH.
    + right. eexists. reflexivity.
Qed.

(** With tasks that are handed over as submitted or as failed, the [try]
    block returns or raises. *)
Lemma chunk_document_body_completes (self : SmartChunkingStrategy.t)
    (order : completion_order) (document : ParsedDocument) :
  0 < SmartChunkingStrategy.max_chunk_size self ->
  hands_over_or_fails order ->
  returns (SmartChunkingStrategy.chunk_document_body self order document)
  \/ exists e,
       SmartChunkingStrategy.chunk_document_body self order document
       = Raise e.
Proof.
  intros Hmax Hord. unfold SmartChunkingStrategy.chunk_document_body.
  destruct (for_each_completes
              (SmartChunkingStrategy.section_batch self order document)
              (range 0 (len (sections document)) 3)) with (s := @nil Chunk)
    as [(cs0 & ->)|(e & ->)].
  - intros acc i. unfold SmartChunkingStrategy.section_batch.
    match goal with
    | |- context [await_each (order ?n ?tasks)] =>
        destruct (await_each_completes (order n tasks)) as [(rs & ->)|(e & ->)]
    end.
    + eapply Forall_impl; [apply Hord|]. simpl.
      intros t [Hin|He]; [left | right; exact He].
      apply list_elem_of_In, list_elem_of_lookup in Hin as (j & Ht).
      rewrite list_lookup_imap in Ht.
      destruct (slice (sections document) i (i + 3) !! j) as [section|];
        [|discriminate].
      injection Ht as <-.
      match goal with
      | |- returns (SmartChunkingStrategy._chunk_section_semantically
                      ?s ?sec ?d ?idx ?tb ?ti) =>
          destruct (chunk_section_semantically_spec s Hmax sec d idx tb ti)
            as (cs & E & _)
      end.
      exists cs. exact E.
    + left. simpl. eexists. reflexivity.
    + right. simpl. eexists. reflexivity.
  - left. simpl.
    destruct (SmartChunkingStrategy.use_summaries self).
    + rewrite summary_phase. simpl. eexists. reflexivity.
    + simpl. eexists. reflexivity.
  - right. simpl. eexists. reflexivity.
Qed.


(** A failed task reaches the handler of [chunk_document]: the [try] block
    raises, and the result is that of the basic strategy on the whole
    document. *)
Example failed_task_reaches_fallback :
  SmartChunkingStrategy.chunk_document_body (tiny_smart failing_backend)
    failing_order hello_bye = Raise (Exception "task failed")
  /\ SmartChunkingStrategy.chunk_document (tiny_smart failing_backend)
       failing_order hello_bye
     = BasicChunkingStrategy.chunk_document tiny_basic hello_bye
  /\ exists c1 c2 c3,
       BasicChunkingStrategy.chunk_document tiny_basic hello_bye
       = Ret [c1; c2; c3].
Proof.
  split; [vm_compute; reflexivity|]. split; [vm_compute; reflexivity|].
  eexists _, _, _. vm_compute. reflexivity.
Qed.



(** ** Summaries *)

Lemma annotate_content (self : SmartChunkingStrategy.t) (c : Chunk) :
  content (annotate self c) = content c.
Proof.
  unfold annotate, apply_result.
  destruct (summary_result self c) as [s|]; [|reflexivity].
  destruct (truthy s); reflexivity.
Qed.

Lemma annotate_summary (self : SmartChunkingStrategy.t) (c : Chunk) :
  summary c = None ->
  summary (annotate self c)
  = match summary_result self c with
    | Some s => if truthy s then Some s else None
    | None => None
    end.
Proof.
  intros Hc. unfold annotate, apply_result.
  destruct (summary_result self c) as [s|]; [|exact Hc].
  destruct (truthy s); [reflexivity | exact Hc].
Qed.

(** C9, as stated, fails: a chunk of 201 characters whose summary request
    succeeds with the non-empty content " " is left without a summary. *)
Lemma blank_summary_is_not_assigned :
  exists c r,
    SmartChunkingStrategy.chunk_document
      (SmartChunkingStrategy.default blank_backend) submission_order
      {| document_id := "doc"; sections := [long_note] |} = Ret [c]
    /\ 200 < len (content c)
    /\ summarize blank_backend (content c) 100 = inr r
    /\ success r = true
    /\ response_content r = Some [" "%char]
    /\ summary c = None.
Proof. do 2 eexists. vm_compute. repeat split. Qed.

(** C9, amended: with summaries on, a chunk of the smart strategy carries
    the summary [s] exactly when its content is longer than 200 characters
    and the backend's [summarize] call for that content succeeds with a
    content whose trimmed form is [s] and is not empty; otherwise (a short
    chunk, an exception, an unsuccessful response, no content, an empty or
    blank content) the summary stays absent, and the call returns all the
    same. *)
Theorem summary_assigned_iff
    (self : SmartChunkingStrategy.t) (order : completion_order)
    (document : ParsedDocument) :
  SmartChunkingStrategy.use_summaries self = true ->
  0 < SmartChunkingStrategy.max_chunk_size self ->
  rearranges order ->
  exists chunks,
    SmartChunkingStrategy.chunk_document self order document = Ret chunks
    /\ Forall
         (fun c =>
            forall s : str,
              summary c = Some s
              <-> 200 < len (content c)
                  /\ exists r body,
                       summarize (SmartChunkingStrategy.llm_provider self)
                         (content c) 100 = inr r
                       /\ success r = true
                       /\ response_content r = Some body
                       /\ s = strip body /\ s <> [])
         chunks.
Proof.
  intros Huse Hmax Hord.
  destruct (chunk_document_body_returns self Hmax order Hord document)
    as (cs0 & Hcs0 & E).
  unfold SmartChunkingStrategy.chunk_document. rewrite E, Huse. simpl.
  eexists. split; [reflexivity|].
  apply Forall_map, Forall_map.
  eapply Forall_impl; [exact Hcs0|]. intros c [Hc _] s. simpl in *.
  rewrite set_total_chunks_summary, set_total_chunks_content.
  rewrite annotate_content, (annotate_summary self c Hc).
  unfold summary_result, summary_reply.
  destruct (Z.ltb_spec 200 (len (content c))) as [Hlong|Hshort].
  - destruct (summarize _ (content c) 100) as [e|r] eqn:Er.
    + split; [discriminate|].
      intros (_ & r & body & Hr & _). discriminate.
    + destruct (response_content r) as [body|] eqn:Eb.
      * destruct (success r) eqn:Es; simpl.
        -- destruct (truthy body) eqn:Etb.
           ++ destruct (truthy (strip body)) eqn:Ets.
              ** split.
                 --- intros [= <-]. split; [exact Hlong|].
                     exists r, body.
                     do 4 (split; [first [assumption | reflexivity]|]).
                     apply truthy_true, Ets.
                 --- intros (_ & r' & body' & [= <-] & _ & Eb' & -> & _).
                     rewrite Eb in Eb'. injection Eb' as <-. reflexivity.
              ** split; [discriminate|].
                 intros (_ & r' & body' & [= <-] & _ & Eb' & -> & Hne).
                 rewrite Eb in Eb'. injection Eb' as <-.
                 apply truthy_false in Ets. contradiction.
           ++ split; [discriminate|].
              intros (_ & r' & body' & [= <-] & _ & Eb' & -> & Hne).
              rewrite Eb in Eb'. injection Eb' as <-.
              apply truthy_false in Etb. subst body. contradiction.
        -- split; [discriminate|].
           intros (_ & r' & body' & [= <-] & Es' & _). congruence.
      * split; [discriminate|].
        intros (_ & r' & body' & [= <-] & _ & Eb' & _). congruence.
  - split; [discriminate|]. intros (Hlong & _). lia.
Qed.

Lemma summary_assigned_iff_witness :
  exists chunks,
    SmartChunkingStrategy.chunk_document
      (SmartChunkingStrategy.default (constant_backend " A note. "))
      submission_order
      {| document_id := "doc"; sections := [long_note] |} = Ret chunks
    /\ Forall
         (fun c =>
            forall s : str,
              summary c = Some s
              <-> 200 < len (content c)
                  /\ exists r body,
                       summarize (constant_backend " A note. ")
                         (content c) 100 = inr r
                       /\ success r = true
                       /\ response_content r = Some body
                       /\ s = strip body /\ s <> [])
         chunks.
Proof.
  apply (summary_assigned_iff
           (SmartChunkingStrategy.default (constant_backend " A note. "))
           submission_order
           {| document_id := "doc"; sections := [long_note] |}).
  - reflexivity.
  - simpl. lia.
  - intros n tasks. apply Permutation_refl.
Defined.

(** ** Semantic break points *)

Lemma findall_digits_digitless (response : str) :
  digitless response = true -> findall_digits response = [].
Proof.
  unfold findall_digits, digitless.
  induction response as [|c s IH]; simpl; [reflexivity|].
  rewrite andb_true_iff, negb_true_iff. intros [-> H]. simpl. apply IH, H.
Qed.

(** The paragraph breaks are the answer when the call raises, reports
    failure, or carries no content or an empty one. *)
Lemma find_semantic_breaks_fallback (self : SmartChunkingStrategy.t)
    (text : str) :
  match generate_response (SmartChunkingStrategy.llm_provider self)
          (SmartChunkingStrategy.break_prompt self text) with
  | inl _ => True
  | inr r =>
      success r = false \/ response_content r = None
      \/ response_content r = Some []
  end ->
  SmartChunkingStrategy._find_semantic_breaks self text
  = Ret (SmartChunkingStrategy._find_paragraph_breaks text).
Proof.
  unfold SmartChunkingStrategy._find_semantic_breaks.
  destruct (generate_response _ _) as [e|r]; simpl; [reflexivity|].
  intros [H|[H|H]]; rewrite H; simpl; try reflexivity.
  - destruct (response_content r) as [c|]; reflexivity.
  - rewrite andb_false_r. reflexivity.
Qed.

(** C4, as stated, fails: on "one", a blank line, "two", a successful
    response without digits makes the break finder return no break point,
    not the paragraph break at offset 3. *)
Lemma digitless_response_is_final :
  digitless (text_of "No natural breaks.") = true
  /\ SmartChunkingStrategy._find_semantic_breaks
       (tiny_smart (constant_backend "No natural breaks.")) two_paragraphs
     = Ret []
  /\ SmartChunkingStrategy._find_paragraph_breaks two_paragraphs = [3]
  /\ SmartChunkingStrategy._find_semantic_breaks
       (tiny_smart (constant_backend "No natural breaks.")) two_paragraphs
     <> Ret (SmartChunkingStrategy._find_paragraph_breaks two_paragraphs).
Proof. vm_compute. repeat split. discriminate. Qed.

(** C4, amended: a response that reports success with a non-empty content
    holding no digit run is parsed to the empty list of break points, and
    that list is final: the break finder returns it without consulting the
    paragraph breaks, and the splitter then falls back to size-based
    splitting. *)
Theorem digitless_response_gives_no_break_points
    (self : SmartChunkingStrategy.t) (text : str) (r : LLMResponse)
    (c : str) :
  generate_response (SmartChunkingStrategy.llm_provider self)
    (SmartChunkingStrategy.break_prompt self text) = inr r ->
  success r = true ->
  response_content r = Some c ->
  c <> [] ->
  digitless c = true ->
  SmartChunkingStrategy._find_semantic_breaks self text = Ret []
  /\ SmartChunkingStrategy._split_at_break_points self text []
     = BasicChunkingStrategy._split_text_with_overlap
         (SmartChunkingStrategy.basic_strategy self) text.
Proof.
  intros Hcall Hs Hc Hne Hd. split; [|reflexivity].
  unfold SmartChunkingStrategy._find_semantic_breaks.
  rewrite Hcall. simpl. rewrite Hc, Hs.
  apply truthy_true in Hne. rewrite Hne. simpl.
  unfold SmartChunkingStrategy.parse_break_points.
  rewrite findall_digits_digitless by exact Hd. reflexivity.
Qed.

Lemma digitless_response_gives_no_break_points_witness :
  SmartChunkingStrategy._find_semantic_breaks
    (tiny_smart (constant_backend "No natural breaks.")) two_paragraphs
  = Ret []
  /\ SmartChunkingStrategy._split_at_break_points
       (tiny_smart (constant_backend "No natural breaks.")) two_paragraphs []
     = BasicChunkingStrategy._split_text_with_overlap
         (SmartChunkingStrategy.basic_strategy
            (tiny_smart (constant_backend "No natural breaks.")))
         two_paragraphs.
Proof.
  apply (digitless_response_gives_no_break_points
           (tiny_smart (constant_backend "No natural breaks."))
           two_paragraphs
           {| success := true;
              response_content := Some (text_of "No natural breaks.") |}
           (text_of "No natural breaks.")).
  - reflexivity.
  - reflexivity.
  - reflexivity.
  - discriminate.
  - vm_compute. reflexivity.
Defined.

(** Scenario C: the offsets read from "100, 300, abc, 900" for a text of
    1000 characters. *)
Example parse_break_points_scenario :
  SmartChunkingStrategy.parse_break_points (repeat "a"%char 1000)
    (text_of "100, 300, abc, 900") = Ret [100; 300; 900].
Proof. vm_compute. reflexivity. Qed.

(** ** Chunk indices *)

Lemma annotate_index (self : SmartChunkingStrategy.t) (c : Chunk) :
  index_of (annotate self c) = index_of c.
Proof.
  unfold annotate, apply_result.
  destruct (summary_result self c) as [s|]; [|reflexivity].
  destruct (truthy s); reflexivity.
Qed.


(** ** The section phase under submission order *)

Lemma await_each_imap {A B} (l : list A) :
  forall f : nat -> A -> outcome (list B),
    (forall j s, l !! j = Some s -> returns (f j s)) ->
    await_each (imap f l) = Ret (imap (fun j s => result_of (f j s)) l).
Proof.
  induction l as [|x l IH]; intros f H; simpl; [reflexivity|].
  destruct (H 0%nat x eq_refl) as (r & E). rewrite E. simpl.
  rewrite (IH (f ∘ S)); [reflexivity|].
  intros j s Hj. apply (H (S j)). exact Hj.
Qed.

Section SubmissionOrder.

Variable self : SmartChunkingStrategy.t.
Variable document : ParsedDocument.
Hypothesis tasks_return :
  forall k s, sections document !! k = Some s ->
              returns (section_task self document k s).

Lemma section_batch_submission_order (all_chunks : list Chunk) (a : nat) :
  SmartChunkingStrategy.section_batch self submission_order document
    all_chunks (0 + 3 * Z.of_nat a)
  = Ret (all_chunks
         ++ concat
              (imap (fun j s =>
                       result_of (section_task self document (3 * a + j) s))
                 (take 3 (drop (3 * a) (sections document))))).
Proof.
  unfold SmartChunkingStrategy.section_batch, submission_order.
  rewrite slice_take_drop by lia.
  replace (Z.to_nat (0 + 3 * Z.of_nat a)) with (3 * a)%nat by lia.
  change (Z.to_nat 3) with 3%nat.
  rewrite (imap_ext _ (fun j s => section_task self document (3 * a + j) s)).
  2:{ intros j s _. unfold section_task, estimated_index.
      replace (Z.of_nat (3 * a + j)) with (0 + 3 * Z.of_nat a + Z.of_nat j)
        by lia.
      reflexivity. }
  rewrite await_each_imap; [reflexivity|].
  intros j s Hj. apply tasks_return.
  apply lookup_take_Some in Hj as [Hj _]. rewrite lookup_drop in Hj.
  exact Hj.
Qed.

Lemma section_loop_submission_order (m : nat) :
  forall (a : nat) (all_chunks : list Chunk),
    for_each (map (fun k : nat => 0 + 3 * Z.of_nat k) (seq a m)) all_chunks
      (SmartChunkingStrategy.section_batch self submission_order document)
    = Ret (all_chunks
           ++ concat
                (imap (fun j s =>
                         result_of
                           (section_task self document (3 * a + j) s))
                   (take (3 * m) (drop (3 * a) (sections document))))).
Proof.
  induction m as [|m IH]; intros a acc.
  - simpl. rewrite app_nil_r. reflexivity.
  - simpl seq. simpl map. simpl for_each.
    rewrite section_batch_submission_order. simpl bind.
    rewrite IH. f_equal. rewrite <- app_assoc. f_equal.
    rewrite <- concat_app. f_equal.
    replace (3 * S m)%nat with (3 + 3 * m)%nat by lia.
    rewrite <- take_take_drop, imap_app, drop_drop.
    f_equal.
    replace (3 * a + 3)%nat with (3 * S a)%nat by lia.
    apply imap_ext. intros j s Hj. f_equal. f_equal.
    apply lookup_take_Some in Hj as [Hj _]. rewrite lookup_drop in Hj.
    apply lookup_lt_Some in Hj.
    rewrite length_take, length_drop. lia.
Qed.

(** Collected in submission order, the section phase is the list of the
    sections' chunks in document order. *)
Lemma section_phase_submission_order :
  for_each (range 0 (len (sections document)) 3) []
    (SmartChunkingStrategy.section_batch self submission_order document)
  = Ret (concat
           (imap (fun k s => result_of (section_task self document k s))
              (sections document))).
Proof.
  unfold range. rewrite section_loop_submission_order. simpl.
  rewrite drop_0, take_ge; [reflexivity|].
  set (n := len (sections document)).
  assert (n <= 3 * ((n - 0 + 3 - 1) / 3)).
  { pose proof (Z.mod_pos_bound (n - 0 + 3 - 1) 3 ltac:(lia)).
    pose proof (Z.div_mod (n - 0 + 3 - 1) 3 ltac:(lia)). lia. }
  assert (0 <= (n - 0 + 3 - 1) / 3)
    by (apply Z.div_pos; unfold n, len; lia).
  unfold n, len in *. lia.
Qed.

End SubmissionOrder.

(** ** A backend that always fails *)

Lemma erase_index_set_total_chunks (n : Z) (c : Chunk) :
  erase_index (set_total_chunks n c) = set_total_chunks n (erase_index c).
Proof.
  unfold erase_index, set_total_chunks.
  destruct (metadata c) eqn:E; simpl; [reflexivity|].
  rewrite E. reflexivity.
Qed.

Lemma annotate_always_fails (self : SmartChunkingStrategy.t) (c : Chunk) :
  always_fails (SmartChunkingStrategy.llm_provider self) ->
  annotate self c = c.
Proof.
  intros [_ Hfail]. unfold annotate, summary_result, summary_reply.
  destruct (200 <? len (content c)); [|reflexivity].
  specialize (Hfail (content c) 100).
  destruct (summarize _ (content c) 100) as [e|r]; [reflexivity|].
  destruct (response_content r) as [body|]; [|reflexivity].
  rewrite Hfail. reflexivity.
Qed.

Section FittingSections.

Variable self : SmartChunkingStrategy.t.

Local Abbreviation basic := (SmartChunkingStrategy.basic_strategy self).

(** A section that fits is chunked by the basic strategy's
    [_chunk_section]. *)
Lemma fitting_section_delegates (section : DocumentSection)
    (doc_id : string) (start_index : Z) (tab_name tab_id : option string) :
  fits (SmartChunkingStrategy.max_chunk_size self) section ->
  SmartChunkingStrategy._chunk_section_semantically self section doc_id
    start_index tab_name tab_id
  = BasicChunkingStrategy._chunk_section basic section doc_id start_index
      tab_name tab_id.
Proof.
  intros Hfit.
  unfold SmartChunkingStrategy._chunk_section_semantically,
    BasicChunkingStrategy._chunk_section.
  destruct (truthy (strip (get_full_text section))) eqn:Et; simpl;
    [|reflexivity].
  destruct Hfit as [Hb|Hle]; [congruence|].
  destruct (Z.leb_spec (len (get_full_text section))
              (SmartChunkingStrategy.max_chunk_size self)); [|lia].
  simpl. destruct (Z.leb_spec (len (get_full_text section))
                     (SmartChunkingStrategy.max_chunk_size self)); [|lia].
  reflexivity.
Qed.

(** Its chunks do not depend on the start index, but for the index. *)
Lemma fitting_section_chunks (section : DocumentSection) (doc_id : string)
    (tab_name tab_id : option string) (i i' : Z) :
  fits (SmartChunkingStrategy.max_chunk_size self) section ->
  exists cs cs',
    BasicChunkingStrategy._chunk_section basic section doc_id i
      tab_name tab_id = Ret cs
    /\ BasicChunkingStrategy._chunk_section basic section doc_id i'
         tab_name tab_id = Ret cs'
    /\ map erase_index cs = map erase_index cs'.
Proof.
  intros Hfit. unfold BasicChunkingStrategy._chunk_section.
  destruct (truthy (strip (get_full_text section))) eqn:Et; simpl.
  - destruct Hfit as [Hb|Hle]; [congruence|].
    destruct (Z.leb_spec (len (get_full_text section))
                (SmartChunkingStrategy.max_chunk_size self)); [|lia].
    do 2 eexists. split; [reflexivity|]. split; reflexivity.
  - exists [], []. auto.
Qed.

End FittingSections.

(** * Further properties of the code *)

(** ** The splitter's windows *)

Lemma slice_whole {A} (l : list A) : slice l 0 (len l) = l.
Proof.
  unfold slice. pose proof (len_nonneg l).
  rewrite !clamp_index_inside by lia. simpl.
  rewrite Z.sub_0_r. unfold len. rewrite Nat2Z.id. apply firstn_all.
Qed.

Lemma slice_empty {A} (l : list A) (i : Z) : slice l i i = [].
Proof. unfold slice. rewrite Z.sub_diag. reflexivity. Qed.

Lemma slice_app_drop {A} (l : list A) (s e : Z) :
  0 <= s <= e -> e <= len l ->
  slice l s e ++ drop (Z.to_nat e) l = drop (Z.to_nat s) l.
Proof.
  intros Hs He. replace e with (s + (e - s)) at 1 by lia.
  rewrite slice_take_drop by lia.
  replace (Z.to_nat e) with (Z.to_nat s + Z.to_nat (e - s))%nat by lia.
  rewrite <- drop_drop. apply take_drop.
Qed.

Section SplitterWindows.

Variable self : BasicChunkingStrategy.t.
Variable text : str.

Local Abbreviation max_size := (BasicChunkingStrategy.max_chunk_size self).
Local Abbreviation overlap := (BasicChunkingStrategy.overlap_size self).

Hypothesis max_size_pos : 0 < max_size.

(** The pieces the loop adds are those of the windows it cuts. *)
Lemma split_loop_trace (fuel : nat) :
  forall (start : Z) (chunks : list str),
    0 <= start -> len text - start < Z.of_nat fuel ->
    BasicChunkingStrategy.split_loop self text fuel start chunks
    = Ret (chunks ++ pieces_of text (split_windows self text fuel start)).
Proof.
  induction fuel as [|fuel IH]; intros start chunks Hs Hf.
  - rewrite split_loop_done by lia. simpl.
    destruct (Z.ltb_spec start (len text)); [lia|].
    rewrite app_nil_r. reflexivity.
  - rewrite split_loop_step. simpl split_windows.
    destruct (Z.ltb_spec start (len text)) as [Hlt|Hge].
    + cbv zeta.
      destruct (window_end_bounds self text max_size_pos start
                  (conj Hs Hlt)) as [Hb1 Hb2].
      rewrite IH by lia. unfold pieces_of. simpl.
      destruct (truthy (window_text text (start, window_end self text start)));
        [rewrite <- app_assoc|]; reflexivity.
    + rewrite app_nil_r. reflexivity.
Qed.

Lemma split_windows_apart (fuel : nat) :
  forall start : Z,
    0 <= start -> len text - start < Z.of_nat fuel ->
    windows_apart (split_windows self text fuel start)
    /\ Forall (fun w => start <= fst w /\ fst w < snd w <= len text)
         (split_windows self text fuel start).
Proof.
  induction fuel as [|fuel IH]; intros start Hs Hf; simpl.
  - destruct (start <? len text); split; constructor.
  - destruct (Z.ltb_spec start (len text)) as [Hlt|Hge];
      [|split; constructor].
    cbv zeta.
    destruct (window_end_bounds self text max_size_pos start (conj Hs Hlt))
      as [Hb1 Hb2].
    set (e := window_end self text start) in *.
    destruct (IH (Z.max (start + max_size - overlap) e)) as [Ha Hw];
      [lia | lia |].
    split.
    + simpl. split; [|exact Ha].
      destruct (split_windows self text fuel _) as [|w' rest]; [exact I|].
      apply Forall_cons in Hw as [[Hw _] _]. lia.
    + constructor; [simpl; lia|].
      eapply Forall_impl; [exact Hw|]. simpl. intros w [H1 H2]. lia.
Qed.

(** When the overlap is at least a fifth of the size, each window starts
    where the one before it ends, and the windows make up the rest of the
    text. *)
Lemma split_windows_cover (fuel : nat) :
  max_size <= 5 * overlap ->
  forall start : Z,
    0 <= start -> len text - start < Z.of_nat fuel ->
    concat (map (window_slice text) (split_windows self text fuel start))
    = drop (Z.to_nat start) text.
Proof.
  intros Hov. induction fuel as [|fuel IH]; intros start Hs Hf; simpl.
  - destruct (Z.ltb_spec start (len text)); [lia|].
    rewrite drop_ge by (unfold len in *; lia). reflexivity.
  - destruct (Z.ltb_spec start (len text)) as [Hlt|Hge].
    2:{ rewrite drop_ge by (unfold len in *; lia). reflexivity. }
    cbv zeta.
    destruct (window_end_bounds self text max_size_pos start (conj Hs Hlt))
      as [Hb1 Hb2].
    assert (Hnext : window_end self text start = len text
                    \/ Z.max (start + max_size - overlap)
                         (window_end self text start)
                       = window_end self text start).
    { unfold window_end in *.
      set (end0 := Z.min (start + max_size) (len text)) in *.
      destruct (Z.ltb_spec end0 (len text)) as [Hlt0|Hge0].
      - right.
        destruct (Z.ltb_spec (5 * start + 4 * max_size)
                    (5 * rfind " " text start end0)); unfold end0 in *; lia.
      - left. unfold end0 in *. lia. }
    set (e := window_end self text start) in *.
    simpl. unfold window_slice at 1. simpl.
    destruct Hnext as [Hend|Hnext].
    + rewrite <- (slice_app_drop text start e) by lia. f_equal.
      rewrite IH by lia. rewrite !drop_ge by (unfold len in *; lia).
      reflexivity.
    + rewrite Hnext, IH by lia. apply slice_app_drop; lia.
Qed.

End SplitterWindows.

(** X1: a text no longer than [max_chunk_size] comes back as one piece, the
    trimmed text, and as no piece when it is empty or blank. *)
Theorem split_short_text (self : BasicChunkingStrategy.t) (text : str) :
  len text <= BasicChunkingStrategy.max_chunk_size self ->
  BasicChunkingStrategy._split_text_with_overlap self text
  = Ret (if truthy (strip text) then [strip text] else []).
Proof.
  intros Hle. unfold BasicChunkingStrategy._split_text_with_overlap.
  rewrite split_loop_step.
  destruct (Z.ltb_spec 0 (len text)) as [Hpos|Hzero].
  - cbv zeta.
    assert (window_end self text 0 = len text) as ->.
    { unfold window_end.
      rewrite Z.min_r by lia. rewrite Z.ltb_irrefl. reflexivity. }
    rewrite split_loop_done by lia.
    unfold window_text. simpl. rewrite slice_whole.
    destruct (truthy (strip text)); reflexivity.
  - assert (text = []) as ->
      by (destruct text; [reflexivity | unfold len in *; simpl in *; lia]).
    reflexivity.
Qed.

Lemma split_short_text_witness :
  BasicChunkingStrategy._split_text_with_overlap tiny_basic
    (text_of " Hi there ")
  = Ret (if truthy (strip (text_of " Hi there "))
         then [strip (text_of " Hi there ")] else []).
Proof.
  apply (split_short_text tiny_basic (text_of " Hi there ")).
  vm_compute. discriminate.
Defined.

(** X2: whatever [overlap_size] is, the pieces of a split are cut from
    windows of which none reaches into the next: no character of the text
    is in two pieces. *)
Theorem split_windows_never_overlap
    (self : BasicChunkingStrategy.t) (text : str) :
  0 < BasicChunkingStrategy.max_chunk_size self ->
  exists ws,
    BasicChunkingStrategy._split_text_with_overlap self text
    = Ret (pieces_of text ws)
    /\ windows_apart ws
    /\ Forall (fun w => 0 <= fst w /\ fst w < snd w <= len text) ws.
Proof.
  intros Hmax. unfold BasicChunkingStrategy._split_text_with_overlap.
  exists (split_windows self text (S (length text)) 0).
  rewrite (split_loop_trace self text Hmax) by (unfold len; lia).
  split; [reflexivity|].
  apply (split_windows_apart self text Hmax); unfold len; lia.
Qed.

Lemma split_windows_never_overlap_witness :
  exists ws,
    BasicChunkingStrategy._split_text_with_overlap tiny_basic
      (text_of "Hello world again")
    = Ret (pieces_of (text_of "Hello world again") ws)
    /\ windows_apart ws
    /\ Forall (fun w => 0 <= fst w
                        /\ fst w < snd w <= len (text_of "Hello world again"))
         ws.
Proof.
  apply (split_windows_never_overlap tiny_basic (text_of "Hello world again")).
  simpl. lia.
Defined.

(** X3: when [overlap_size] is at least a fifth of a positive
    [max_chunk_size], the windows the pieces are trimmed from follow one
    another without a gap and make up the whole text: only whitespace at
    the edge of a window is lost. *)
Theorem split_windows_cover_text
    (self : BasicChunkingStrategy.t) (text : str) :
  0 < BasicChunkingStrategy.max_chunk_size self ->
  BasicChunkingStrategy.max_chunk_size self
  <= 5 * BasicChunkingStrategy.overlap_size self ->
  exists ws,
    BasicChunkingStrategy._split_text_with_overlap self text
    = Ret (pieces_of text ws)
    /\ concat (map (window_slice text) ws) = text.
Proof.
  intros Hmax Hov. unfold BasicChunkingStrategy._split_text_with_overlap.
  exists (split_windows self text (S (length text)) 0).
  rewrite (split_loop_trace self text Hmax) by (unfold len; lia).
  split; [reflexivity|].
  rewrite (split_windows_cover self text Hmax) by (unfold len; lia).
  reflexivity.
Qed.

Lemma split_windows_cover_text_witness :
  exists ws,
    BasicChunkingStrategy._split_text_with_overlap tiny_basic
      (text_of "Hello dear world")
    = Ret (pieces_of (text_of "Hello dear world") ws)
    /\ concat (map (window_slice (text_of "Hello dear world")) ws)
       = text_of "Hello dear world".
Proof.
  apply (split_windows_cover_text tiny_basic (text_of "Hello dear world"));
    simpl; lia.
Defined.

(** X5: with [max_chunk_size = 0] and a non-negative overlap the loop of
    the splitter does not advance on a non-empty text: however many
    iterations it is given, it has not ended. *)
Theorem split_loop_stuck_at_size_zero
    (self : BasicChunkingStrategy.t) (text : str) (fuel : nat)
    (chunks : list str) :
  BasicChunkingStrategy.max_chunk_size self = 0 ->
  0 <= BasicChunkingStrategy.overlap_size self ->
  text <> [] ->
  BasicChunkingStrategy.split_loop self text fuel 0 chunks = OutOfFuel.
Proof.
  intros Hmax Hov Hne.
  assert (0 < len text) as Hlen
    by (destruct text; [congruence | unfold len; simpl; lia]).
  induction fuel as [|fuel IH].
  - simpl. destruct (Z.ltb_spec 0 (len text)); [reflexivity | lia].
  - rewrite split_loop_step.
    destruct (Z.ltb_spec 0 (len text)); [|lia]. cbv zeta.
    assert (window_end self text 0 = 0) as ->.
    { unfold window_end, rfind. rewrite Hmax. change (0 + 0) with 0.
      rewrite Z.min_l by lia. rewrite slice_empty. simpl rfind_at.
      destruct (Z.ltb_spec 0 (len text)); [reflexivity | lia]. }
    unfold window_text. simpl. rewrite slice_empty. simpl.
    rewrite Hmax. rewrite Z.max_r by lia. exact IH.
Qed.

Lemma split_loop_stuck_at_size_zero_witness :
  BasicChunkingStrategy.split_loop
    {| BasicChunkingStrategy.max_chunk_size := 0;
       BasicChunkingStrategy.overlap_size := 0;
       BasicChunkingStrategy.respect_sections := true |}
    (text_of "Hello") 1000 0 [] = OutOfFuel.
Proof.
  apply (split_loop_stuck_at_size_zero
           {| BasicChunkingStrategy.max_chunk_size := 0;
              BasicChunkingStrategy.overlap_size := 0;
              BasicChunkingStrategy.respect_sections := true |}
           (text_of "Hello") 1000 []).
  - reflexivity.
  - simpl. lia.
  - discriminate.
Defined.

(** ** Texts without whitespace *)

Lemma strip_without_whitespace (s : str) :
  Forall (fun c => isspace c = false) s -> strip s = s.
Proof.
  intros H. assert (Hl : forall l, Forall (fun c => isspace c = false) l ->
                                   lstrip l = l).
  { intros l Hlf. destruct Hlf as [|c l Hc _]; [reflexivity|].
    simpl. rewrite Hc. reflexivity. }
  unfold strip, rstrip. rewrite (Hl s H).
  rewrite Hl by (apply Forall_rev, H). apply rev_involutive.
Qed.

Lemma rfind_at_absent (c : ascii) (l : str) (pos acc : Z) :
  Forall (fun x => x <> c) l -> rfind_at c l pos acc = acc.
Proof.
  intros H. revert pos acc.
  induction H as [|x l Hx _ IH]; intros pos acc; simpl; [reflexivity|].
  rewrite IH. apply Ascii.eqb_neq in Hx. rewrite Hx. reflexivity.
Qed.

Lemma Forall_slice {A} (P : A -> Prop) (l : list A) (i j : Z) :
  Forall P l -> Forall P (slice l i j).
Proof. intros H. unfold slice. apply Forall_take, Forall_drop, H. Qed.

Lemma slice_length {A} (l : list A) (s e : Z) :
  0 <= s <= e -> e <= len l -> len (slice l s e) = e - s.
Proof.
  intros Hs He. unfold slice. rewrite !clamp_index_inside by lia.
  unfold len in *. rewrite length_take, length_drop. lia.
Qed.

(** X4: a text without whitespace is cut into pieces that, put end to
    end, are the text again, for a positive size and a non-negative
    overlap. *)
Theorem split_text_without_whitespace
    (self : BasicChunkingStrategy.t) (text : str) :
  0 < BasicChunkingStrategy.max_chunk_size self ->
  0 <= BasicChunkingStrategy.overlap_size self ->
  Forall (fun c => isspace c = false) text ->
  exists pieces,
    BasicChunkingStrategy._split_text_with_overlap self text = Ret pieces
    /\ concat pieces = text.
Proof.
  intros Hmax Hov Hws.
  unfold BasicChunkingStrategy._split_text_with_overlap.
  rewrite (split_loop_trace self text Hmax) by (unfold len; lia).
  eexists. split; [reflexivity|]. rewrite app_nil_l.
  assert (Hgen : forall fuel start,
            0 <= start -> len text - start < Z.of_nat fuel ->
            concat (pieces_of text (split_windows self text fuel start))
            = drop (Z.to_nat start) text).
  { induction fuel as [|fuel IH]; intros start Hs Hf; simpl.
    - destruct (Z.ltb_spec start (len text)); [lia|].
      rewrite drop_ge by (unfold len in *; lia). reflexivity.
    - destruct (Z.ltb_spec start (len text)) as [Hlt|Hge].
      2:{ rewrite drop_ge by (unfold len in *; lia). reflexivity. }
      cbv zeta.
      assert (He : window_end self text start
                   = Z.min (start + BasicChunkingStrategy.max_chunk_size self)
                       (len text)).
      { unfold window_end, rfind.
        rewrite rfind_at_absent.
        - destruct (_ <? len text); [|reflexivity].
          destruct (Z.ltb_spec
                      (5 * start
                       + 4 * BasicChunkingStrategy.max_chunk_size self)
                      (5 * -1)); [lia | reflexivity].
        - apply Forall_slice. eapply Forall_impl; [exact Hws|].
          intros x Hx ->. discriminate. }
      set (e := window_end self text start) in *.
      assert (Hwt : window_text text (start, e) = slice text start e)
        by (apply strip_without_whitespace, Forall_slice, Hws).
      unfold pieces_of. simpl. rewrite Hwt.
      assert (truthy (slice text start e) = true) as ->.
      { apply truthy_true. intros Hnil.
        pose proof (slice_length text start e) as Hl.
        rewrite Hnil in Hl. unfold len at 2 in Hl. simpl in Hl. lia. }
      simpl. fold (pieces_of text
                     (split_windows self text fuel
                        (Z.max (start
                                + BasicChunkingStrategy.max_chunk_size self
                                - BasicChunkingStrategy.overlap_size self) e))).
      rewrite IH by lia.
      assert (drop (Z.to_nat
                      (Z.max (start
                              + BasicChunkingStrategy.max_chunk_size self
                              - BasicChunkingStrategy.overlap_size self) e))
                text
              = drop (Z.to_nat e) text) as ->.
      { destruct (Z.le_gt_cases (len text)
                    (start + BasicChunkingStrategy.max_chunk_size self)).
        - rewrite !drop_ge by (unfold len in *; lia). reflexivity.
        - f_equal. lia. }
      apply slice_app_drop; lia. }
  rewrite Hgen by (unfold len; lia). reflexivity.
Qed.

Lemma split_text_without_whitespace_witness :
  exists pieces,
    BasicChunkingStrategy._split_text_with_overlap tiny_basic
      (text_of "Supercalifragilistic") = Ret pieces
    /\ concat pieces = text_of "Supercalifragilistic".
Proof.
  apply (split_text_without_whitespace tiny_basic
           (text_of "Supercalifragilistic")).
  - simpl. lia.
  - simpl. lia.
  - repeat constructor.
Defined.

(** ** BasicChunkingStrategy: what every chunk carries *)

Lemma chunk_sections_invariant (P : Chunk -> Prop)
    (self : BasicChunkingStrategy.t) (doc_id : string)
    (todo : list DocumentSection) :
  (forall section idx cs,
     In section todo ->
     BasicChunkingStrategy._chunk_section self section doc_id idx
       (tab_title section) (tab_id section) = Ret cs ->
     Forall P cs) ->
  forall (idx : Z) (chunks res : list Chunk),
    Forall P chunks ->
    BasicChunkingStrategy.chunk_sections self doc_id todo idx chunks
    = Ret res ->
    Forall P res.
Proof.
  induction todo as [|section rest IH]; intros H idx chunks res Hacc E;
    simpl in E.
  - injection E as <-. exact Hacc.
  - destruct (BasicChunkingStrategy._chunk_section self section doc_id idx
                (tab_title section) (tab_id section)) as [cs|e|] eqn:Ecs;
      simpl in E; try discriminate.
    eapply IH; [| |exact E].
    + intros s i cs' Hin. apply H. right. exact Hin.
    + apply Forall_app. split; [exact Hacc|].
      eapply H; [left; reflexivity | exact Ecs].
Qed.

(** The chunks of one section, as [_chunk_section] builds them. *)
Lemma chunk_section_chunks (self : BasicChunkingStrategy.t)
    (section : DocumentSection) (doc_id : string) (idx : Z)
    (cs : list Chunk) :
  BasicChunkingStrategy._chunk_section self section doc_id idx
    (tab_title section) (tab_id section) = Ret cs ->
  Forall (fun c => describes_content doc_id c
                   /\ chunk_of_section section c
                   /\ total_of c = None) cs.
Proof.
  unfold BasicChunkingStrategy._chunk_section.
  destruct (truthy (strip (get_full_text section))) eqn:Hnb; simpl.
  2:{ intros [= <-]. constructor. }
  destruct (len (get_full_text section)
            <=? BasicChunkingStrategy.max_chunk_size self).
  - intros [= <-]. repeat constructor;
      unfold describes_content, copied_from; simpl; eauto 10.
  - destruct (BasicChunkingStrategy._split_text_with_overlap self
                (get_full_text section)) as [pieces|e|]; simpl;
      try discriminate.
    intros [= <-]. apply Forall_lookup. intros i c Hc.
    rewrite list_lookup_imap in Hc.
    destruct (pieces !! i) as [p|]; [|discriminate].
    injection Hc as <-.
    repeat split; unfold describes_content, copied_from; simpl; eauto 10.
Qed.

Lemma describes_content_set_total_chunks (doc_id : string) (n : Z)
    (c : Chunk) :
  describes_content doc_id c -> describes_content doc_id (set_total_chunks n c).
Proof.
  intros (m & Hm & H). unfold describes_content, set_total_chunks.
  rewrite Hm. simpl. eexists. split; [reflexivity|]. exact H.
Qed.

Lemma chunk_of_section_set_total_chunks (section : DocumentSection) (n : Z)
    (c : Chunk) :
  chunk_of_section section c ->
  chunk_of_section section (set_total_chunks n c).
Proof.
  intros ((m & Hm & H) & Ht & Hn).
  unfold chunk_of_section, copied_from, tab_id_of, set_total_chunks in *.
  rewrite Hm in *. simpl. split; [|split; assumption].
  eexists. split; [reflexivity|]. exact H.
Qed.

Lemma total_of_set_total_chunks (doc_id : string) (n : Z) (c : Chunk) :
  describes_content doc_id c -> total_of (set_total_chunks n c) = Some n.
Proof.
  intros (m & Hm & _). unfold total_of, set_total_chunks.
  rewrite Hm. reflexivity.
Qed.

(** The basic strategy's result is the list its section loop builds, with
    the length of that list written into every chunk. *)
Lemma basic_document_chunks (self : BasicChunkingStrategy.t)
    (document : ParsedDocument) :
  0 < BasicChunkingStrategy.max_chunk_size self ->
  exists cs0,
    BasicChunkingStrategy.chunk_document self document
    = Ret (map (set_total_chunks (len cs0)) cs0)
    /\ Forall (fun c => describes_content (document_id document) c
                        /\ exists section,
                             In section (sections document)
                             /\ chunk_of_section section c) cs0.
Proof.
  intros Hmax. unfold BasicChunkingStrategy.chunk_document.
  destruct (chunk_sections_basic self Hmax (document_id document)
              (sections document) 0 []) as (cs0 & E & _).
  - reflexivity.
  - intros i c H. destruct i; discriminate.
  - rewrite E. simpl. exists cs0. split; [reflexivity|].
    eapply chunk_sections_invariant; [|constructor|exact E].
    intros section idx cs Hin Hcs.
    eapply Forall_impl; [apply (chunk_section_chunks _ _ _ _ _ Hcs)|].
    simpl. intros c (H1 & H2 & _). split; [exact H1|].
    exists section. split; assumption.
Qed.

(** X6: every chunk the basic strategy returns carries the number of
    chunks returned as its [total_chunks]. *)
Theorem basic_total_chunks_is_length
    (self : BasicChunkingStrategy.t) (document : ParsedDocument) :
  0 < BasicChunkingStrategy.max_chunk_size self ->
  exists chunks,
    BasicChunkingStrategy.chunk_document self document = Ret chunks
    /\ Forall (fun c => total_of c = Some (len chunks)) chunks.
Proof.
  intros Hmax.
  destruct (basic_document_chunks self document Hmax) as (cs0 & E & H).
  eexists. split; [exact E|].
  assert (len (map (set_total_chunks (len cs0)) cs0) = len cs0) as ->
    by (unfold len; rewrite length_map; reflexivity).
  apply Forall_map. eapply Forall_impl; [exact H|].
  simpl. intros c [Hd _]. eapply total_of_set_total_chunks, Hd.
Qed.

Lemma basic_total_chunks_is_length_witness :
  exists chunks,
    BasicChunkingStrategy.chunk_document tiny_basic sample_document
    = Ret chunks
    /\ Forall (fun c => total_of c = Some (len chunks)) chunks.
Proof.
  apply (basic_total_chunks_is_length tiny_basic sample_document).
  simpl. lia.
Defined.

(** X7: the metadata of every chunk of the basic strategy describes the
    chunk's own content: the document's id, [start_position = 0],
    [end_position = len(content)], [estimated_tokens = len(content) // 4]
    and the question flag of the content. *)
Theorem basic_metadata_describes_content
    (self : BasicChunkingStrategy.t) (document : ParsedDocument) :
  0 < BasicChunkingStrategy.max_chunk_size self ->
  exists chunks,
    BasicChunkingStrategy.chunk_document self document = Ret chunks
    /\ Forall (describes_content (document_id document)) chunks.
Proof.
  intros Hmax.
  destruct (basic_document_chunks self document Hmax) as (cs0 & E & H).
  eexists. split; [exact E|].
  apply Forall_map. eapply Forall_impl; [exact H|].
  simpl. intros c [Hd _]. apply describes_content_set_total_chunks, Hd.
Qed.

Lemma basic_metadata_describes_content_witness :
  exists chunks,
    BasicChunkingStrategy.chunk_document tiny_basic sample_document
    = Ret chunks
    /\ Forall (describes_content (document_id sample_document)) chunks.
Proof.
  apply (basic_metadata_describes_content tiny_basic sample_document).
  simpl. lia.
Defined.

(** X8: every chunk of the basic strategy comes from a section of the
    document that is not blank, and carries that section's title, tab
    title, tab id and heading level. *)
Theorem basic_chunks_name_their_section
    (self : BasicChunkingStrategy.t) (document : ParsedDocument) :
  0 < BasicChunkingStrategy.max_chunk_size self ->
  exists chunks,
    BasicChunkingStrategy.chunk_document self document = Ret chunks
    /\ Forall (fun c => exists section,
                 In section (sections document)
                 /\ chunk_of_section section c) chunks.
Proof.
  intros Hmax.
  destruct (basic_document_chunks self document Hmax) as (cs0 & E & H).
  eexists. split; [exact E|].
  apply Forall_map. eapply Forall_impl; [exact H|].
  simpl. intros c (_ & section & Hin & Hc). exists section.
  split; [exact Hin|]. apply chunk_of_section_set_total_chunks, Hc.
Qed.

Lemma basic_chunks_name_their_section_witness :
  exists chunks,
    BasicChunkingStrategy.chunk_document tiny_basic sample_document
    = Ret chunks
    /\ Forall (fun c => exists section,
                 In section (sections sample_document)
                 /\ chunk_of_section section c) chunks.
Proof.
  apply (basic_chunks_name_their_section tiny_basic sample_document).
  simpl. lia.
Defined.

(** X9: a section longer than [max_chunk_size] becomes one chunk for each
    piece of the split, in order; the first has [overlap_before = 0], the
    last has [overlap_after = 0], and every other overlap count is
    [overlap_size]. *)
Theorem chunk_section_overlap_counts
    (self : BasicChunkingStrategy.t) (section : DocumentSection)
    (doc_id : string) (idx : Z) (tab_name tab_ident : option string) :
  0 < BasicChunkingStrategy.max_chunk_size self ->
  nonblank section = true ->
  BasicChunkingStrategy.max_chunk_size self < len (get_full_text section) ->
  exists pieces cs,
    BasicChunkingStrategy._split_text_with_overlap self
      (get_full_text section) = Ret pieces
    /\ BasicChunkingStrategy._chunk_section self section doc_id idx
         tab_name tab_ident = Ret cs
    /\ map content cs = pieces
    /\ forall (i : nat) (c : Chunk),
         cs !! i = Some c ->
         overlaps_of c
         = Some (if decide (i = 0%nat) then 0
                 else BasicChunkingStrategy.overlap_size self,
                 if decide (S i = length cs) then 0
                 else BasicChunkingStrategy.overlap_size self).
Proof.
  intros Hmax Hnb Hlong. unfold nonblank in Hnb.
  unfold BasicChunkingStrategy._chunk_section. rewrite Hnb. simpl.
  destruct (Z.leb_spec (len (get_full_text section))
              (BasicChunkingStrategy.max_chunk_size self)); [lia|].
  destruct (split_text_with_overlap_pieces self (get_full_text section) Hmax)
    as (pieces & -> & _).
  simpl. exists pieces. eexists. split; [reflexivity|].
  split; [reflexivity|]. split.
  - apply list_eq. intros i.
    rewrite list_lookup_fmap, list_lookup_imap.
    destruct (pieces !! i); reflexivity.
  - intros i c Hc. rewrite length_imap.
    rewrite list_lookup_imap in Hc.
    destruct (pieces !! i) as [p|] eqn:Hp; [|discriminate].
    injection Hc as <-. apply lookup_lt_Some in Hp.
    unfold overlaps_of, len. simpl. f_equal. f_equal.
    + destruct (decide (i = 0%nat)), (Z.ltb_spec 0 (Z.of_nat i));
        try reflexivity; lia.
    + destruct (decide (S i = length pieces)),
        (Z.ltb_spec (Z.of_nat i) (Z.of_nat (length pieces) - 1));
        try reflexivity; lia.
Qed.

Lemma chunk_section_overlap_counts_witness :
  exists pieces cs,
    BasicChunkingStrategy._split_text_with_overlap tiny_basic
      (get_full_text long_section) = Ret pieces
    /\ BasicChunkingStrategy._chunk_section tiny_basic long_section "doc" 0
         (tab_title long_section) (tab_id long_section) = Ret cs
    /\ map content cs = pieces
    /\ forall (i : nat) (c : Chunk),
         cs !! i = Some c ->
         overlaps_of c
         = Some (if decide (i = 0%nat) then 0
                 else BasicChunkingStrategy.overlap_size tiny_basic,
                 if decide (S i = length cs) then 0
                 else BasicChunkingStrategy.overlap_size tiny_basic).
Proof.
  apply (chunk_section_overlap_counts tiny_basic long_section "doc" 0
           (tab_title long_section) (tab_id long_section)).
  - simpl. lia.
  - reflexivity.
  - vm_compute. reflexivity.
Defined.

(** ** Documents whose sections all fit *)

Lemma fitting_section_content (self : BasicChunkingStrategy.t)
    (section : DocumentSection) (doc_id : string) (idx : Z)
    (tab_name tab_ident : option string) :
  fits (BasicChunkingStrategy.max_chunk_size self) section ->
  exists cs,
    BasicChunkingStrategy._chunk_section self section doc_id idx
      tab_name tab_ident = Ret cs
    /\ map content cs
       = if truthy (strip (get_full_text section))
         then [get_full_text section] else [].
Proof.
  intros Hfit. unfold BasicChunkingStrategy._chunk_section.
  destruct (truthy (strip (get_full_text section))) eqn:Et; simpl.
  - destruct Hfit as [Hb|Hle]; [congruence|].
    destruct (Z.leb_spec (len (get_full_text section))
                (BasicChunkingStrategy.max_chunk_size self)); [|lia].
    eexists. split; reflexivity.
  - exists []. split; reflexivity.
Qed.

Lemma chunk_sections_fitting_contents (self : BasicChunkingStrategy.t)
    (doc_id : string) (todo : list DocumentSection) :
  Forall (fits (BasicChunkingStrategy.max_chunk_size self)) todo ->
  forall (idx : Z) (chunks : list Chunk),
    exists res,
      BasicChunkingStrategy.chunk_sections self doc_id todo idx chunks
      = Ret res
      /\ map content res
         = map content chunks
           ++ List.filter (fun t => truthy (strip t)) (map get_full_text todo).
Proof.
  induction 1 as [|section rest Hfit _ IH]; intros idx chunks; simpl.
  - exists chunks. rewrite app_nil_r. auto.
  - destruct (fitting_section_content self section doc_id idx
                (tab_title section) (tab_id section) Hfit) as (cs & -> & Hcs).
    simpl. destruct (IH (idx + len cs) (chunks ++ cs)) as (res & -> & Hres).
    exists res. split; [reflexivity|].
    rewrite Hres, map_app, Hcs, <- app_assoc.
    destruct (truthy (strip (get_full_text section))); reflexivity.
Qed.

(** X10: when every section of a document is blank or no longer than
    [max_chunk_size], the basic strategy returns one chunk for each
    section that is not blank, in document order, whose content is the
    section's full text, untrimmed; blank sections give no chunk. *)
Theorem basic_fitting_document_contents
    (self : BasicChunkingStrategy.t) (document : ParsedDocument) :
  Forall (fits (BasicChunkingStrategy.max_chunk_size self))
    (sections document) ->
  exists chunks,
    BasicChunkingStrategy.chunk_document self document = Ret chunks
    /\ map content chunks = nonblank_texts document.
Proof.
  intros Hfit. unfold BasicChunkingStrategy.chunk_document.
  destruct (chunk_sections_fitting_contents self (document_id document)
              (sections document) Hfit 0 []) as (res & -> & Hres).
  simpl. eexists. split; [reflexivity|].
  rewrite map_map.
  rewrite (map_ext _ content)
    by (intros c; apply set_total_chunks_content).
  exact Hres.
Qed.

Lemma basic_fitting_document_contents_witness :
  exists chunks,
    BasicChunkingStrategy.chunk_document BasicChunkingStrategy.default
      sample_document = Ret chunks
    /\ map content chunks = nonblank_texts sample_document.
Proof.
  apply (basic_fitting_document_contents BasicChunkingStrategy.default
           sample_document).
  simpl. repeat (constructor; [right; vm_compute; discriminate|]).
  constructor.
Defined.

(** ** Break points *)

(** X11: when no digit run of a usable response is longer than the limit
    of [int] (4300 digits), the break finder returns the offsets read from
    the response: the values of its digit runs that lie strictly between 0
    and the length of the text, each as often as it occurs, in ascending
    order. *)
Theorem semantic_breaks_sorted_in_range
    (self : SmartChunkingStrategy.t) (text : str) (r : LLMResponse)
    (c : str) :
  generate_response (SmartChunkingStrategy.llm_provider self)
    (SmartChunkingStrategy.break_prompt self text) = inr r ->
  success r = true ->
  response_content r = Some c ->
  c <> [] ->
  Forall (fun m => len m <= int_max_str_digits) (findall_digits c) ->
  exists break_points,
    SmartChunkingStrategy._find_semantic_breaks self text = Ret break_points
    /\ Sorted Z.le break_points
    /\ Forall (fun p => 0 < p < len text) break_points
    /\ Permutation break_points
         (List.filter (fun pos => (0 <? pos) && (pos <? len text))
            (map decimal_value (findall_digits c))).
Proof.
  intros Hcall Hs Hc Hne Hruns.
  unfold SmartChunkingStrategy._find_semantic_breaks.
  rewrite Hcall. simpl. rewrite Hc, Hs.
  apply truthy_true in Hne. rewrite Hne. simpl.
  rewrite (parse_break_points_within_limit text c Hruns). simpl.
  eexists. split; [reflexivity|]. split; [|split].
  - apply Sorted_merge_sort. apply _.
  - rewrite merge_sort_Permutation. apply Forall_forall. intros p Hp.
    apply list_elem_of_In, filter_In in Hp as [_ Hp].
    apply andb_true_iff in Hp as [H1 H2]. lia.
  - apply merge_sort_Permutation.
Qed.

Lemma semantic_breaks_sorted_in_range_witness :
  exists break_points,
    SmartChunkingStrategy._find_semantic_breaks
      (tiny_smart (constant_backend "12, 4, x99, 7 and 0"))
      (text_of "Hello world again") = Ret break_points
    /\ Sorted Z.le break_points
    /\ Forall (fun p => 0 < p < len (text_of "Hello world again"))
         break_points
    /\ Permutation break_points
         (List.filter
            (fun pos =>
               (0 <? pos) && (pos <? len (text_of "Hello world again")))
            (map decimal_value
               (findall_digits (text_of "12, 4, x99, 7 and 0")))).
Proof.
  apply (semantic_breaks_sorted_in_range
           (tiny_smart (constant_backend "12, 4, x99, 7 and 0"))
           (text_of "Hello world again")
           {| success := true;
              response_content := Some (text_of "12, 4, x99, 7 and 0") |}
           (text_of "12, 4, x99, 7 and 0")).
  - reflexivity.
  - reflexivity.
  - reflexivity.
  - discriminate.
  - assert (E : findall_digits (text_of "12, 4, x99, 7 and 0")
                = map text_of ["12"; "4"; "99"; "7"; "0"]%string)
      by (vm_compute; reflexivity).
    rewrite E. repeat constructor; vm_compute; discriminate.
Defined.

(** X25: a usable response that holds a digit run longer than the limit of
    [int] makes the conversion raise inside the [try] block; the handler
    takes over, and the break finder returns the paragraph breaks of the
    text. *)
Theorem oversized_digit_run_falls_back
    (self : SmartChunkingStrategy.t) (text : str) (r : LLMResponse)
    (c : str) :
  generate_response (SmartChunkingStrategy.llm_provider self)
    (SmartChunkingStrategy.break_prompt self text) = inr r ->
  success r = true ->
  response_content r = Some c ->
  Exists (fun m => int_max_str_digits < len m) (findall_digits c) ->
  SmartChunkingStrategy._find_semantic_breaks self text
  = Ret (SmartChunkingStrategy._find_paragraph_breaks text).
Proof.
  intros Hcall Hs Hc Hruns.
  unfold SmartChunkingStrategy._find_semantic_breaks.
  rewrite Hcall. simpl. rewrite Hc, Hs.
  destruct c as [|x c]; [inversion Hruns|]. simpl.
  destruct (parse_break_points_over_limit text (x :: c) Hruns) as (e & ->).
  reflexivity.
Qed.

Lemma oversized_digit_run_falls_back_witness :
  SmartChunkingStrategy._find_semantic_breaks (tiny_smart long_number_backend)
    two_paragraphs
  = Ret (SmartChunkingStrategy._find_paragraph_breaks two_paragraphs).
Proof.
  apply (oversized_digit_run_falls_back (tiny_smart long_number_backend)
           two_paragraphs
           {| success := true;
              response_content := Some (repeat "1"%char 4301) |}
           (repeat "1"%char 4301)).
  - reflexivity.
  - reflexivity.
  - reflexivity.
  - assert (E : findall_digits (repeat "1"%char 4301)
                = [repeat "1"%char 4301])
      by (vm_compute; reflexivity).
    rewrite E. apply Exists_cons_hd. vm_compute. reflexivity.
Defined.

Lemma blank_run_to_newline_spec (s : str) (k : nat) :
  blank_run_to_newline s = Some k ->
  exists k' : nat,
    k = S k' /\ s !! k' = Some "010"%char
    /\ Forall (fun c => isspace c = true) (take k' s).
Proof.
  revert k. induction s as [|c s IH]; intros k; simpl; [discriminate|].
  destruct (isspace c) eqn:Hc; [|discriminate].
  destruct (blank_run_to_newline s) as [k0|].
  - intros [= <-]. destruct (IH k0 eq_refl) as (k' & -> & Hk & Hf).
    exists (S k'). split; [reflexivity|]. split; [exact Hk|].
    simpl. constructor; assumption.
  - destruct (Ascii.eqb_spec c "010"%char) as [->|]; [|discriminate].
    intros [= <-]. exists 0%nat. split; [reflexivity|].
    split; [reflexivity | constructor].
Qed.

Lemma finditer_blank_lines_spec (s : str) :
  forall (pos : Z) (skip : nat),
    Forall (fun p => pos <= p < pos + len s /\ blank_line_at s (p - pos))
      (finditer_blank_lines s pos skip)
    /\ StronglySorted Z.lt (finditer_blank_lines s pos skip).
Proof.
  induction s as [|c s IH]; intros pos skip; simpl.
  { split; constructor. }
  assert (Hshift : forall l,
    Forall (fun p => pos + 1 <= p < pos + 1 + len s
                     /\ blank_line_at s (p - (pos + 1))) l ->
    Forall (fun p => pos <= p < pos + len (c :: s)
                     /\ blank_line_at (c :: s) (p - pos)) l).
  { intros l Hl. eapply Forall_impl; [exact Hl|]. simpl.
    intros p [Hp (H1 & k & H2 & H3)].
    split; [unfold len in *; simpl length; lia|].
    unfold blank_line_at.
    replace (Z.to_nat (p - pos)) with (S (Z.to_nat (p - (pos + 1)))) by lia.
    split; [exact H1|]. exists k. split; assumption. }
  assert (Hrest : forall k,
    Forall (fun p => pos <= p < pos + len (c :: s)
                     /\ blank_line_at (c :: s) (p - pos))
      (finditer_blank_lines s (pos + 1) k)
    /\ StronglySorted Z.lt (finditer_blank_lines s (pos + 1) k)).
  { intros k. destruct (IH (pos + 1) k) as [H1 H2].
    split; [apply Hshift, H1 | exact H2]. }
  destruct skip as [|skip]; [|apply Hrest].
  destruct (Ascii.eqb_spec c "010"%char) as [->|]; [|apply Hrest].
  destruct (blank_run_to_newline s) as [k|] eqn:Hk; [|apply Hrest].
  destruct (blank_run_to_newline_spec s k Hk) as (k' & -> & Hnl & Hws).
  destruct (IH (pos + 1) (S k')) as [H1 H2]. split.
  - constructor; [|apply Hshift, H1].
    split; [unfold len; simpl length; lia|].
    rewrite Z.sub_diag. unfold blank_line_at. simpl.
    split; [reflexivity|]. exists k'. rewrite drop_0. split; assumption.
  - constructor; [exact H2|].
    eapply Forall_impl; [exact H1|]. simpl. intros p [Hp _]. lia.
Qed.

(** X12: every offset [_find_paragraph_breaks] returns is the position of
    a newline that is followed by nothing but whitespace up to another
    newline; the offsets lie within the text and increase strictly. *)
Theorem paragraph_breaks_are_blank_lines (text : str) :
  Forall (fun p => 0 <= p < len text /\ blank_line_at text p)
    (SmartChunkingStrategy._find_paragraph_breaks text)
  /\ StronglySorted Z.lt (SmartChunkingStrategy._find_paragraph_breaks text).
Proof.
  unfold SmartChunkingStrategy._find_paragraph_breaks.
  destruct (finditer_blank_lines_spec text 0 0) as [H1 H2].
  split; [|exact H2].
  eapply Forall_impl; [exact H1|]. simpl. intros p [Hp Hb].
  rewrite Z.sub_0_r in Hb. split; [lia | exact Hb].
Qed.

(** X13: when the backend's call raises, reports failure, or carries no
    content or an empty one, the break finder returns the paragraph
    breaks of the text and raises nothing. *)
Theorem semantic_breaks_fall_back_to_paragraphs
    (self : SmartChunkingStrategy.t) (text : str) :
  (exists e,
     generate_response (SmartChunkingStrategy.llm_provider self)
       (SmartChunkingStrategy.break_prompt self text) = inl e)
  \/ (exists r,
        generate_response (SmartChunkingStrategy.llm_provider self)
          (SmartChunkingStrategy.break_prompt self text) = inr r
        /\ (success r = false \/ response_content r = None
            \/ response_content r = Some [])) ->
  SmartChunkingStrategy._find_semantic_breaks self text
  = Ret (SmartChunkingStrategy._find_paragraph_breaks text).
Proof.
  intros H. apply find_semantic_breaks_fallback.
  destruct H as [(e & ->)|(r & -> & H)]; [exact I | exact H].
Qed.

Lemma semantic_breaks_fall_back_to_paragraphs_witness :
  SmartChunkingStrategy._find_semantic_breaks (tiny_smart failing_backend)
    two_paragraphs
  = Ret (SmartChunkingStrategy._find_paragraph_breaks two_paragraphs).
Proof.
  apply (semantic_breaks_fall_back_to_paragraphs
           (tiny_smart failing_backend) two_paragraphs).
  left. eexists. reflexivity.
Defined.

(** ** The break-point splitter *)

Lemma strip_trimmed_piece (s : str) :
  truthy (strip s) = true -> trimmed_piece (strip s).
Proof.
  intros H. split; [apply truthy_true, H | apply strip_idem].
Qed.

Lemma break_steps_trimmed (self : SmartChunkingStrategy.t) (text : str)
    (break_points : list Z) :
  forall state : Z * list str,
    Forall trimmed_piece (snd state) ->
    Forall trimmed_piece
      (snd (fold_left (SmartChunkingStrategy.break_step self text)
              break_points state)).
Proof.
  induction break_points as [|bp rest IH]; intros [start chunks] H; simpl;
    [exact H|].
  apply IH.
  destruct (SmartChunkingStrategy.max_chunk_size self <? 2 * (bp - start));
    [|exact H].
  simpl. destruct (truthy (strip (slice text start bp))) eqn:Ht; [|exact H].
  apply Forall_app. split; [exact H|].
  constructor; [|constructor]. apply strip_trimmed_piece, Ht.
Qed.

(** With break points at hand the splitter returns trimmed pieces; without
    any it runs the size-based splitter, which needs a positive size. *)
Lemma split_at_break_points_trimmed
    (self : SmartChunkingStrategy.t) (text : str) (break_points : list Z) :
  break_points <> [] \/ 0 < SmartChunkingStrategy.max_chunk_size self ->
  exists pieces,
    SmartChunkingStrategy._split_at_break_points self text break_points
    = Ret pieces
    /\ Forall trimmed_piece pieces.
Proof.
  intros H. unfold SmartChunkingStrategy._split_at_break_points.
  destruct break_points as [|bp rest].
  - destruct H as [H|Hmax]; [congruence|]. simpl.
    destruct (split_text_with_overlap_pieces
                (SmartChunkingStrategy.basic_strategy self) text Hmax)
      as (pieces & E & Hp).
    exists pieces. split; [exact E|].
    eapply Forall_impl; [exact Hp|]. simpl.
    intros p (H1 & H2 & _). split; [apply truthy_true, H1 | exact H2].
  - simpl negb. cbv iota.
    pose proof (break_steps_trimmed self text (bp :: rest) (0, [])
                  (Forall_nil_2 _)) as Hfold.
    destruct (fold_left _ (bp :: rest) (0, [])) as [start chunks].
    simpl in Hfold.
    destruct (start <? len text).
    + eexists. split; [reflexivity|].
      destruct (truthy (strip (slice_from text start))) eqn:Ht;
        [|exact Hfold].
      apply Forall_app. split; [exact Hfold|].
      constructor; [|constructor]. apply strip_trimmed_piece, Ht.
    + eexists. split; [reflexivity | exact Hfold].
Qed.

(** X14: for a [max_chunk_size] that converts to a float without rounding
    (at most 2^53 in magnitude), the break-point splitter returns, and
    every piece it returns is non-empty and trimmed; with break points at
    hand this needs no further assumption on the sizes, and without any it
    needs a positive [max_chunk_size], as it then runs the size-based
    splitter. *)
Theorem split_at_break_points_pieces_trimmed
    (self : SmartChunkingStrategy.t) (text : str) (break_points : list Z) :
  exact_as_float (SmartChunkingStrategy.max_chunk_size self) ->
  break_points <> [] \/ 0 < SmartChunkingStrategy.max_chunk_size self ->
  exists pieces,
    SmartChunkingStrategy._split_at_break_points self text break_points
    = Ret pieces
    /\ Forall trimmed_piece pieces.
Proof.
  intros _ H. apply split_at_break_points_trimmed, H.
Qed.

Lemma split_at_break_points_pieces_trimmed_witness :
  exists pieces,
    SmartChunkingStrategy._split_at_break_points (tiny_smart failing_backend)
      (text_of "Hello world again") [6; 12] = Ret pieces
    /\ Forall trimmed_piece pieces.
Proof.
  apply (split_at_break_points_pieces_trimmed (tiny_smart failing_backend)
           (text_of "Hello world again") [6; 12]).
  - unfold exact_as_float. simpl. lia.
  - left. discriminate.
Defined.

(** X15: for a [max_chunk_size] that converts to a float without rounding
    (at most 2^53 in magnitude), break points that all lie within half of
    [max_chunk_size] from the start of the text are passed over, and the
    text comes back as a single trimmed piece, however long it is. *)
Theorem close_break_points_are_skipped
    (self : SmartChunkingStrategy.t) (text : str) (break_points : list Z) :
  exact_as_float (SmartChunkingStrategy.max_chunk_size self) ->
  break_points <> [] ->
  Forall (fun bp => 2 * bp <= SmartChunkingStrategy.max_chunk_size self)
    break_points ->
  text <> [] ->
  SmartChunkingStrategy._split_at_break_points self text break_points
  = Ret (if truthy (strip text) then [strip text] else []).
Proof.
  intros _ Hne Hclose Htext.
  unfold SmartChunkingStrategy._split_at_break_points.
  apply truthy_true in Hne. rewrite Hne. simpl.
  assert (fold_left (SmartChunkingStrategy.break_step self text)
            break_points (0, []) = (0, [])) as ->.
  { clear Hne. induction Hclose as [|bp rest Hbp _ IH]; [reflexivity|].
    simpl.
    destruct (Z.ltb_spec (SmartChunkingStrategy.max_chunk_size self)
                (2 * (bp - 0))); [lia | exact IH]. }
  assert (0 < len text)
    by (destruct text; [congruence | unfold len; simpl; lia]).
  destruct (Z.ltb_spec 0 (len text)); [|lia].
  unfold slice_from. rewrite clamp_index_inside by lia.
  change (Z.to_nat 0) with 0%nat. rewrite drop_0.
  destruct (truthy (strip text)); reflexivity.
Qed.

Lemma close_break_points_are_skipped_witness :
  SmartChunkingStrategy._split_at_break_points (tiny_smart failing_backend)
    (text_of "Hello world again") [3; 5]
  = Ret (if truthy (strip (text_of "Hello world again"))
         then [strip (text_of "Hello world again")] else []).
Proof.
  apply (close_break_points_are_skipped (tiny_smart failing_backend)
           (text_of "Hello world again") [3; 5]).
  - unfold exact_as_float. simpl. lia.
  - discriminate.
  - repeat constructor; simpl; lia.
  - discriminate.
Defined.

(** ** SmartChunkingStrategy: what every chunk carries *)

Lemma annotate_metadata (self : SmartChunkingStrategy.t) (c : Chunk) :
  metadata (annotate self c) = metadata c.
Proof.
  unfold annotate, apply_result.
  destruct (summary_result self c) as [s|]; [|reflexivity].
  destruct (truthy s); reflexivity.
Qed.

Lemma In_slice {A} (l : list A) (i j : Z) (x : A) :
  In x (slice l i j) -> In x l.
Proof.
  unfold slice. rewrite <- !list_elem_of_In. intros H.
  apply subseteq_take in H. apply subseteq_drop in H. exact H.
Qed.

Section SmartChunks.

Variable self : SmartChunkingStrategy.t.
Hypothesis max_size_pos : 0 < SmartChunkingStrategy.max_chunk_size self.

Lemma smart_section_chunks (section : DocumentSection) (doc_id : string)
    (idx : Z) (cs : list Chunk) :
  SmartChunkingStrategy._chunk_section_semantically self section doc_id idx
    (tab_title section) (tab_id section) = Ret cs ->
  Forall (smart_section_chunk self doc_id section) cs.
Proof.
  unfold SmartChunkingStrategy._chunk_section_semantically.
  destruct (truthy (strip (get_full_text section))) eqn:Hnb; simpl.
  2:{ intros [= <-]. constructor. }
  destruct (len (get_full_text section)
            <=? SmartChunkingStrategy.max_chunk_size self) eqn:Hfit.
  - intros E.
    pose proof (chunk_section_chunks _ _ _ _ _ E) as H1.
    destruct (chunk_section_basic (SmartChunkingStrategy.basic_strategy self)
                max_size_pos section doc_id idx (tab_title section)
                (tab_id section)) as (cs' & E' & H2).
    rewrite E in E'. injection E' as <-.
    apply Forall_lookup. intros i c Hc.
    rewrite Forall_lookup in H1.
    destruct (H1 i c Hc) as (Hd & (Hcp & Ht & Hn) & Htot).
    destruct (H2 i c Hc) as (_ & _ & Hsum).
    unfold smart_section_chunk. rewrite Hfit. auto 10.
  - destruct (find_semantic_breaks_returns self (get_full_text section))
      as (bps & ->). simpl.
    destruct (split_at_break_points_trimmed self
                (get_full_text section) bps (or_intror max_size_pos))
      as (texts & -> & Htexts). simpl.
    intros [= <-]. apply Forall_lookup. intros i c Hc.
    rewrite list_lookup_imap in Hc.
    destruct (texts !! i) as [p|] eqn:Hp; [|discriminate].
    injection Hc as <-.
    rewrite Forall_lookup in Htexts. destruct (Htexts i p Hp) as [_ Hstrip].
    unfold smart_section_chunk, describes_content, copied_from, nonblank,
      tab_id_of, total_of.
    simpl. rewrite Hstrip, Hfit, Hnb.
    repeat split; eexists; repeat split.
Qed.

Variable order : completion_order.
Hypothesis order_rearranges : rearranges order.

Lemma section_batch_invariant_in (P : Chunk -> Prop)
    (document : ParsedDocument) :
  (forall section pos cs,
     In section (sections document) ->
     SmartChunkingStrategy._chunk_section_semantically self section
       (document_id document) (estimated_index document pos)
       (tab_title section) (tab_id section) = Ret cs ->
     Forall P cs) ->
  forall (all_chunks : list Chunk) (i : Z),
    Forall P all_chunks ->
    exists cs,
      SmartChunkingStrategy.section_batch self order document all_chunks i
      = Ret cs
      /\ Forall P cs.
Proof.
  intros HP all_chunks i Hacc.
  unfold SmartChunkingStrategy.section_batch.
  match goal with
  | |- context [await_each (order ?n ?tasks)] =>
      destruct (await_each_Forall (Forall P) (order n tasks))
        as (rs & -> & Hrs)
  end.
  - eapply Permutation_Forall; [apply order_rearranges|].
    apply Forall_lookup. intros j t Ht.
    rewrite list_lookup_imap in Ht.
    destruct (slice (sections document) i (i + 3) !! j) as [section|] eqn:Hj;
      [|discriminate].
    injection Ht as <-.
    assert (In section (sections document)) as Hin.
    { apply (In_slice _ i (i + 3)). apply list_elem_of_In.
      eapply list_elem_of_lookup_2, Hj. }
    match goal with
    | |- exists a, SmartChunkingStrategy._chunk_section_semantically
                     ?s ?sec ?d ?idx ?tb ?ti = Ret a /\ _ =>
        destruct (chunk_section_semantically_spec self max_size_pos
                    sec d idx tb ti) as (cs & E & _)
    end.
    exists cs. split; [exact E|].
    eapply (HP _ (i + Z.of_nat j)); [exact Hin | exact E].
  - simpl. eexists. split; [reflexivity|].
    apply Forall_app. split; [exact Hacc|].
    apply Forall_concat, Hrs.
Qed.

(** The smart strategy's result is the list its section phase builds,
    annotated when summaries are on, with the length of that list written
    into every chunk. *)
Lemma smart_document_chunks (document : ParsedDocument) :
  exists cs0,
    Forall (fun c => exists section,
              In section (sections document)
              /\ smart_section_chunk self (document_id document) section c)
      cs0
    /\ SmartChunkingStrategy.chunk_document self order document
       = Ret (let cs1 := if SmartChunkingStrategy.use_summaries self
                         then map (annotate self) cs0 else cs0 in
              map (set_total_chunks (len cs1)) cs1).
Proof.
  unfold SmartChunkingStrategy.chunk_document,
    SmartChunkingStrategy.chunk_document_body.
  destruct (for_each_invariant
              (Forall (fun c => exists section,
                         In section (sections document)
                         /\ smart_section_chunk self (document_id document)
                              section c))
              (SmartChunkingStrategy.section_batch self order document)
              (range 0 (len (sections document)) 3)) with (s := @nil Chunk)
    as (cs0 & -> & Hcs0).
  - intros acc i Hacc. apply section_batch_invariant_in; [|exact Hacc].
    intros section pos cs Hin E.
    eapply Forall_impl; [apply (smart_section_chunks _ _ _ _ E)|].
    simpl. intros c Hc. exists section. split; assumption.
  - constructor.
  - exists cs0. split; [exact Hcs0|]. simpl.
    destruct (SmartChunkingStrategy.use_summaries self).
    + rewrite summary_phase. reflexivity.
    + reflexivity.
Qed.

End SmartChunks.

Lemma describes_content_annotate (self : SmartChunkingStrategy.t)
    (doc_id : string) (c : Chunk) :
  describes_content doc_id c -> describes_content doc_id (annotate self c).
Proof.
  unfold describes_content.
  rewrite annotate_metadata, annotate_content. auto.
Qed.

(** X16: every chunk the smart strategy returns carries the number of
    chunks returned as its [total_chunks], in whatever order the tasks of
    a batch complete. *)
Theorem smart_total_chunks_is_length
    (self : SmartChunkingStrategy.t) (order : completion_order)
    (document : ParsedDocument) :
  0 < SmartChunkingStrategy.max_chunk_size self ->
  rearranges order ->
  exists chunks,
    SmartChunkingStrategy.chunk_document self order document = Ret chunks
    /\ Forall (fun c => total_of c = Some (len chunks)) chunks.
Proof.
  intros Hmax Hord.
  destruct (smart_document_chunks self Hmax order Hord document)
    as (cs0 & H & E).
  eexists. split; [exact E|]. cbv zeta.
  set (cs1 := if SmartChunkingStrategy.use_summaries self
              then map (annotate self) cs0 else cs0).
  assert (Forall (describes_content (document_id document)) cs1) as H1.
  { unfold cs1. destruct (SmartChunkingStrategy.use_summaries self).
    - apply Forall_map. eapply Forall_impl; [exact H|]. simpl.
      intros c (section & _ & _ & _ & Hd & _).
      apply describes_content_annotate, Hd.
    - eapply Forall_impl; [exact H|]. simpl.
      intros c (section & _ & _ & _ & Hd & _). exact Hd. }
  assert (len (map (set_total_chunks (len cs1)) cs1) = len cs1) as ->
    by (unfold len; rewrite length_map; reflexivity).
  apply Forall_map. eapply Forall_impl; [exact H1|].
  simpl. intros c Hd. eapply total_of_set_total_chunks, Hd.
Qed.

Lemma smart_total_chunks_is_length_witness :
  exists chunks,
    SmartChunkingStrategy.chunk_document (tiny_smart failing_backend)
      reversed_order sample_document = Ret chunks
    /\ Forall (fun c => total_of c = Some (len chunks)) chunks.
Proof.
  apply (smart_total_chunks_is_length (tiny_smart failing_backend)
           reversed_order sample_document).
  - simpl. lia.
  - intros n tasks. apply Permutation_rev.
Defined.

(** X17: the metadata of every chunk of the smart strategy describes the
    chunk's own content: the document's id, [start_position = 0],
    [end_position = len(content)], [estimated_tokens = len(content) // 4]
    and the question flag of the content; the [strip] applied to a piece
    when the chunk is built changes nothing. *)
Theorem smart_metadata_describes_content
    (self : SmartChunkingStrategy.t) (order : completion_order)
    (document : ParsedDocument) :
  0 < SmartChunkingStrategy.max_chunk_size self ->
  rearranges order ->
  exists chunks,
    SmartChunkingStrategy.chunk_document self order document = Ret chunks
    /\ Forall (describes_content (document_id document)) chunks.
Proof.
  intros Hmax Hord.
  destruct (smart_document_chunks self Hmax order Hord document)
    as (cs0 & H & E).
  eexists. split; [exact E|]. cbv zeta.
  apply Forall_map.
  destruct (SmartChunkingStrategy.use_summaries self).
  - apply Forall_map. eapply Forall_impl; [exact H|]. simpl.
    intros c (section & _ & _ & _ & Hd & _).
    apply describes_content_set_total_chunks, describes_content_annotate, Hd.
  - eapply Forall_impl; [exact H|]. simpl.
    intros c (section & _ & _ & _ & Hd & _).
    apply describes_content_set_total_chunks, Hd.
Qed.

Lemma smart_metadata_describes_content_witness :
  exists chunks,
    SmartChunkingStrategy.chunk_document
      (tiny_smart (constant_backend "12, 24")) submission_order
      sample_document = Ret chunks
    /\ Forall (describes_content (document_id sample_document)) chunks.
Proof.
  apply (smart_metadata_describes_content
           (tiny_smart (constant_backend "12, 24")) submission_order
           sample_document).
  - simpl. lia.
  - intros n tasks. apply Permutation_refl.
Defined.

Lemma copied_from_set_total_chunks (section : DocumentSection) (n : Z)
    (c : Chunk) :
  copied_from section c -> copied_from section (set_total_chunks n c).
Proof.
  intros (m & Hm & H). unfold copied_from, set_total_chunks.
  rewrite Hm. simpl. eexists. split; [reflexivity | exact H].
Qed.

Lemma tab_id_of_set_total_chunks (n : Z) (c : Chunk) :
  tab_id_of (set_total_chunks n c) = tab_id_of c.
Proof.
  unfold tab_id_of, set_total_chunks.
  destruct (metadata c) eqn:E; simpl; [reflexivity | rewrite E; reflexivity].
Qed.

(** X18: every chunk of the smart strategy comes from a section of the
    document that is not blank and carries that section's title, tab title
    and heading level; it carries the section's tab id when the section is
    no longer than [max_chunk_size], and no tab id when it is longer. *)
Theorem smart_chunks_name_their_section
    (self : SmartChunkingStrategy.t) (order : completion_order)
    (document : ParsedDocument) :
  0 < SmartChunkingStrategy.max_chunk_size self ->
  rearranges order ->
  exists chunks,
    SmartChunkingStrategy.chunk_document self order document = Ret chunks
    /\ Forall
         (fun c => exists section,
            In section (sections document)
            /\ nonblank section = true
            /\ copied_from section c
            /\ tab_id_of c
               = if len (get_full_text section)
                    <=? SmartChunkingStrategy.max_chunk_size self
                 then tab_id section else None)
         chunks.
Proof.
  intros Hmax Hord.
  destruct (smart_document_chunks self Hmax order Hord document)
    as (cs0 & H & E).
  eexists. split; [exact E|]. cbv zeta.
  apply Forall_map.
  assert (Hstep : forall c section,
            smart_section_chunk self (document_id document) section c ->
            forall c',
              metadata c' = metadata c ->
              nonblank section = true
              /\ copied_from section (set_total_chunks
                                        (len (if SmartChunkingStrategy.use_summaries self
                                              then map (annotate self) cs0
                                              else cs0)) c')
              /\ tab_id_of (set_total_chunks
                              (len (if SmartChunkingStrategy.use_summaries self
                                    then map (annotate self) cs0
                                    else cs0)) c')
                 = if len (get_full_text section)
                      <=? SmartChunkingStrategy.max_chunk_size self
                   then tab_id section else None).
  { intros c section (_ & _ & _ & Hcp & Hn & Ht) c' Hm.
    split; [exact Hn|]. split.
    - apply copied_from_set_total_chunks. unfold copied_from in *.
      rewrite Hm. exact Hcp.
    - rewrite tab_id_of_set_total_chunks. unfold tab_id_of in *.
      rewrite Hm. exact Ht. }
  destruct (SmartChunkingStrategy.use_summaries self).
  - apply Forall_map. eapply Forall_impl; [exact H|]. simpl.
    intros c (section & Hin & Hc). exists section. split; [exact Hin|].
    apply (Hstep c section Hc). apply annotate_metadata.
  - eapply Forall_impl; [exact H|]. simpl.
    intros c (section & Hin & Hc). exists section. split; [exact Hin|].
    apply (Hstep c section Hc). reflexivity.
Qed.

Lemma smart_chunks_name_their_section_witness :
  exists chunks,
    SmartChunkingStrategy.chunk_document (tiny_smart failing_backend)
      submission_order sample_document = Ret chunks
    /\ Forall
         (fun c => exists section,
            In section (sections sample_document)
            /\ nonblank section = true
            /\ copied_from section c
            /\ tab_id_of c
               = if len (get_full_text section)
                    <=? SmartChunkingStrategy.max_chunk_size
                          (tiny_smart failing_backend)
                 then tab_id section else None)
         chunks.
Proof.
  apply (smart_chunks_name_their_section (tiny_smart failing_backend)
           submission_order sample_document).
  - simpl. lia.
  - intros n tasks. apply Permutation_refl.
Defined.

(** X19: no chunk of the basic strategy carries a summary, and none of
    the smart strategy does when [use_summaries] is off. *)
Theorem no_summary_without_use_summaries
    (self : SmartChunkingStrategy.t) (order : completion_order)
    (document : ParsedDocument) :
  SmartChunkingStrategy.use_summaries self = false ->
  0 < SmartChunkingStrategy.max_chunk_size self ->
  rearranges order ->
  (exists chunks,
     SmartChunkingStrategy.chunk_document self order document = Ret chunks
     /\ Forall (fun c => summary c = None) chunks)
  /\ (exists chunks,
        BasicChunkingStrategy.chunk_document
          (SmartChunkingStrategy.basic_strategy self) document = Ret chunks
        /\ Forall (fun c => summary c = None) chunks).
Proof.
  intros Huse Hmax Hord. split.
  - destruct (smart_document_chunks self Hmax order Hord document)
      as (cs0 & H & E).
    eexists. split; [exact E|]. cbv zeta. rewrite Huse.
    apply Forall_map. eapply Forall_impl; [exact H|]. simpl.
    intros c (section & _ & Hs & _).
    rewrite set_total_chunks_summary. exact Hs.
  - destruct (chunk_document_basic
                (SmartChunkingStrategy.basic_strategy self) Hmax document)
      as (cs & E & H).
    exists cs. split; [exact E|]. apply Forall_lookup. intros i c Hc.
    destruct (H i c Hc) as (_ & _ & Hs). exact Hs.
Qed.

Lemma no_summary_without_use_summaries_witness :
  (exists chunks,
     SmartChunkingStrategy.chunk_document
       {| SmartChunkingStrategy.llm_provider := constant_backend "A note.";
          SmartChunkingStrategy.max_chunk_size := 1500;
          SmartChunkingStrategy.overlap_size := 150;
          SmartChunkingStrategy.use_summaries := false |}
       submission_order
       {| document_id := "doc"; sections := [long_note] |} = Ret chunks
     /\ Forall (fun c => summary c = None) chunks)
  /\ (exists chunks,
        BasicChunkingStrategy.chunk_document
          (SmartChunkingStrategy.basic_strategy
             {| SmartChunkingStrategy.llm_provider :=
                  constant_backend "A note.";
                SmartChunkingStrategy.max_chunk_size := 1500;
                SmartChunkingStrategy.overlap_size := 150;
                SmartChunkingStrategy.use_summaries := false |})
          {| document_id := "doc"; sections := [long_note] |} = Ret chunks
        /\ Forall (fun c => summary c = None) chunks).
Proof.
  apply (no_summary_without_use_summaries
           {| SmartChunkingStrategy.llm_provider := constant_backend "A note.";
              SmartChunkingStrategy.max_chunk_size := 1500;
              SmartChunkingStrategy.overlap_size := 150;
              SmartChunkingStrategy.use_summaries := false |}
           submission_order
           {| document_id := "doc"; sections := [long_note] |}).
  - reflexivity.
  - simpl. lia.
  - intros n tasks. apply Permutation_refl.
Defined.

(** ** Completion order *)

Lemma await_each_cons_inv {A} (t : outcome A) (tasks : list (outcome A))
    (rs : list A) :
  await_each (t :: tasks) = Ret rs ->
  exists r rs0, t = Ret r /\ await_each tasks = Ret rs0 /\ rs = r :: rs0.
Proof.
  simpl. destruct t as [r|e|]; simpl; try discriminate.
  destruct (await_each tasks) as [rs0|e|]; simpl; try discriminate.
  intros [= <-]. eauto.
Qed.

Lemma await_each_Permutation {A} (tasks tasks' : list (outcome A)) :
  Permutation tasks tasks' ->
  forall rs,
    await_each tasks = Ret rs ->
    exists rs', await_each tasks' = Ret rs' /\ Permutation rs rs'.
Proof.
  induction 1 as [|t l l' _ IH|t1 t2 l|l l' l'' _ IH1 _ IH2]; intros rs E.
  - exists rs. split; [exact E | reflexivity].
  - apply await_each_cons_inv in E as (r & rs0 & -> & E & ->).
    destruct (IH rs0 E) as (rs' & E' & Hp).
    exists (r :: rs'). simpl. rewrite E'. simpl.
    split; [reflexivity | constructor; exact Hp].
  - apply await_each_cons_inv in E as (r2 & rs1 & -> & E & ->).
    apply await_each_cons_inv in E as (r1 & rs0 & -> & E & ->).
    exists (r1 :: r2 :: rs0). simpl. rewrite E. simpl.
    split; [reflexivity | apply perm_swap].
  - destruct (IH1 rs E) as (rs' & E' & Hp).
    destruct (IH2 rs' E') as (rs'' & E'' & Hp').
    exists rs''. split; [exact E'' | etransitivity; eassumption].
Qed.

Lemma concat_Permutation {A} (l l' : list (list A)) :
  Permutation l l' -> Permutation (concat l) (concat l').
Proof.
  induction 1 as [|x l l' _ IH|x y l|l l' l'' _ IH1 _ IH2]; simpl.
  - reflexivity.
  - apply Permutation_app_head, IH.
  - rewrite !app_assoc. apply Permutation_app_tail, Permutation_app_comm.
  - etransitivity; eassumption.
Qed.

Section CompletionOrder.

Variable self : SmartChunkingStrategy.t.
Hypothesis max_size_pos : 0 < SmartChunkingStrategy.max_chunk_size self.
Variable order : completion_order.
Hypothesis order_rearranges : rearranges order.
Variable document : ParsedDocument.

Lemma section_batch_any_order (all_chunks all_chunks' : list Chunk) (i : Z) :
  Permutation all_chunks all_chunks' ->
  exists cs cs',
    SmartChunkingStrategy.section_batch self order document all_chunks i
    = Ret cs
    /\ SmartChunkingStrategy.section_batch self submission_order document
         all_chunks' i = Ret cs'
    /\ Permutation cs cs'.
Proof.
  intros Hacc.
  destruct (section_batch_invariant self max_size_pos submission_order
              (fun n tasks => Permutation_refl tasks) (fun _ => True)
              document) with (all_chunks := all_chunks') (i := i)
    as (cs' & E' & _).
  { intros section pos cs _. apply Forall_true. exact (fun _ => I). }
  { apply Forall_true. exact (fun _ => I). }
  revert E'. unfold SmartChunkingStrategy.section_batch, submission_order.
  match goal with
  | |- context [await_each ?tasks] =>
      set (ts := tasks); destruct (await_each ts) as [rs'|e|] eqn:Ers'
  end; simpl; try discriminate.
  intros [= <-].
  destruct (await_each_Permutation ts (order (i / 3 + 1) ts)
              (order_rearranges _ ts) rs' Ers') as (rs & -> & Hp).
  simpl. do 2 eexists. split; [reflexivity|]. split; [reflexivity|].
  apply Permutation_app; [exact Hacc|].
  apply concat_Permutation. symmetry. exact Hp.
Qed.

Lemma section_phase_any_order (starts : list Z) :
  forall all_chunks all_chunks' : list Chunk,
    Permutation all_chunks all_chunks' ->
    exists cs cs',
      for_each starts all_chunks
        (SmartChunkingStrategy.section_batch self order document) = Ret cs
      /\ for_each starts all_chunks'
           (SmartChunkingStrategy.section_batch self submission_order
              document) = Ret cs'
      /\ Permutation cs cs'.
Proof.
  induction starts as [|i starts IH]; intros acc acc' Hacc; simpl.
  - exists acc, acc'. auto.
  - destruct (section_batch_any_order acc acc' i Hacc)
      as (cs & cs' & -> & -> & Hp).
    simpl. apply IH, Hp.
Qed.

End CompletionOrder.

(** X20: the order in which the tasks of a batch complete can only
    rearrange the result: the chunks the smart strategy returns under any
    completion order are, up to their order in the list, the chunks it
    returns when every batch is collected in submission order. *)
Theorem completion_order_only_rearranges
    (self : SmartChunkingStrategy.t) (order : completion_order)
    (document : ParsedDocument) :
  0 < SmartChunkingStrategy.max_chunk_size self ->
  rearranges order ->
  exists chunks chunks',
    SmartChunkingStrategy.chunk_document self order document = Ret chunks
    /\ SmartChunkingStrategy.chunk_document self submission_order document
       = Ret chunks'
    /\ Permutation chunks chunks'.
Proof.
  intros Hmax Hord.
  destruct (section_phase_any_order self Hmax order Hord document
              (range 0 (len (sections document)) 3) [] [])
    as (cs & cs' & E & E' & Hp); [reflexivity|].
  unfold SmartChunkingStrategy.chunk_document,
    SmartChunkingStrategy.chunk_document_body.
  rewrite E, E'. simpl.
  destruct (SmartChunkingStrategy.use_summaries self).
  - rewrite !summary_phase. simpl. do 2 eexists.
    split; [reflexivity|]. split; [reflexivity|].
    assert (len (map (annotate self) cs) = len (map (annotate self) cs'))
      as ->.
    { unfold len. rewrite !length_map.
      rewrite (Permutation_length Hp). reflexivity. }
    apply Permutation_map, Permutation_map, Hp.
  - simpl. do 2 eexists. split; [reflexivity|]. split; [reflexivity|].
    assert (len cs = len cs') as ->
      by (unfold len; rewrite (Permutation_length Hp); reflexivity).
    apply Permutation_map, Hp.
Qed.

Lemma completion_order_only_rearranges_witness :
  exists chunks chunks',
    SmartChunkingStrategy.chunk_document (tiny_smart failing_backend)
      reversed_order sample_document = Ret chunks
    /\ SmartChunkingStrategy.chunk_document (tiny_smart failing_backend)
         submission_order sample_document = Ret chunks'
    /\ Permutation chunks chunks'.
Proof.
  apply (completion_order_only_rearranges (tiny_smart failing_backend)
           reversed_order sample_document).
  - simpl. lia.
  - intros n tasks. apply Permutation_rev.
Defined.

(** ** The smart strategy on sections that fit *)

Lemma contents_concat_imap (l : list DocumentSection) :
  forall f : nat -> DocumentSection -> list Chunk,
    (forall k s, l !! k = Some s ->
       map content (f k s)
       = if truthy (strip (get_full_text s)) then [get_full_text s] else []) ->
    map content (concat (imap f l))
    = List.filter (fun t => truthy (strip t)) (map get_full_text l).
Proof.
  induction l as [|s l IH]; intros f H; simpl; [reflexivity|].
  rewrite map_app, (H 0%nat s eq_refl), (IH (f ∘ S)).
  - destruct (truthy (strip (get_full_text s))); reflexivity.
  - intros k s' Hk. apply (H (S k)). exact Hk.
Qed.

(** X21: when every section of a document is blank or no longer than
    [max_chunk_size] and the batches are collected in submission order,
    the smart strategy returns, whatever the backend answers, one chunk
    for each section that is not blank, in document order, whose content
    is the section's full text. *)
Theorem smart_fitting_document_contents
    (self : SmartChunkingStrategy.t) (document : ParsedDocument) :
  Forall (fits (SmartChunkingStrategy.max_chunk_size self))
    (sections document) ->
  exists chunks,
    SmartChunkingStrategy.chunk_document self submission_order document
    = Ret chunks
    /\ map content chunks = nonblank_texts document.
Proof.
  intros Hfits. rewrite Forall_lookup in Hfits.
  assert (Htask : forall k s,
            sections document !! k = Some s ->
            exists g,
              section_task self document k s = Ret g
              /\ map content g
                 = if truthy (strip (get_full_text s))
                   then [get_full_text s] else []).
  { intros k s Hs. unfold section_task.
    rewrite fitting_section_delegates by (eapply Hfits, Hs).
    apply fitting_section_content. eapply Hfits, Hs. }
  unfold SmartChunkingStrategy.chunk_document,
    SmartChunkingStrategy.chunk_document_body.
  rewrite section_phase_submission_order.
  2:{ intros k s Hs. destruct (Htask k s Hs) as (g & E & _).
      exists g. exact E. }
  simpl.
  set (cs0 := concat
                (imap (fun k s => result_of (section_task self document k s))
                   (sections document))).
  assert (Hcs0 : map content cs0 = nonblank_texts document).
  { unfold cs0, nonblank_texts. apply contents_concat_imap.
    intros k s Hs. destruct (Htask k s Hs) as (g & -> & Hg). exact Hg. }
  destruct (SmartChunkingStrategy.use_summaries self).
  - rewrite summary_phase. simpl. eexists. split; [reflexivity|].
    rewrite !map_map.
    rewrite (map_ext _ content); [exact Hcs0|].
    intros c. rewrite set_total_chunks_content. apply annotate_content.
  - simpl. eexists. split; [reflexivity|].
    rewrite map_map.
    rewrite (map_ext _ content); [exact Hcs0|].
    intros c. apply set_total_chunks_content.
Qed.

Lemma smart_fitting_document_contents_witness :
  exists chunks,
    SmartChunkingStrategy.chunk_document
      (SmartChunkingStrategy.default (constant_backend "A note."))
      submission_order sample_document = Ret chunks
    /\ map content chunks = nonblank_texts sample_document.
Proof.
  apply (smart_fitting_document_contents
           (SmartChunkingStrategy.default (constant_backend "A note."))
           sample_document).
  simpl. repeat (constructor; [right; vm_compute; discriminate|]).
  constructor.
Defined.

(** ** Question detection ignores case *)

Lemma to_lower_idem (c : ascii) : to_lower (to_lower c) = to_lower c.
Proof.
  destruct c as [[] [] [] [] [] [] [] []]; vm_compute; reflexivity.
Qed.

Lemma match_literal_ci_lower (pat : str) :
  forall s : str,
    match_literal_ci pat (map to_lower s) = match_literal_ci pat s.
Proof.
  induction pat as [|p pat IH]; intros s; [reflexivity|].
  destruct s as [|c s]; [reflexivity|].
  simpl. rewrite to_lower_idem, IH. reflexivity.
Qed.

Lemma search_alternatives_ci_lower (alts : list str) :
  forall s : str,
    search_alternatives_ci alts (map to_lower s)
    = search_alternatives_ci alts s.
Proof.
  assert (Hhead : forall s,
            existsb (fun pat => match_literal_ci pat (map to_lower s)) alts
            = existsb (fun pat => match_literal_ci pat s) alts).
  { intros s. induction alts as [|pat alts IH]; [reflexivity|].
    simpl. rewrite match_literal_ci_lower, IH. reflexivity. }
  induction s as [|c s IH].
  - reflexivity.
  - simpl map. simpl search_alternatives_ci.
    rewrite <- IH. f_equal. apply (Hhead (c :: s)).
Qed.

(** X22: question detection ignores the case of the ASCII letters: in
    both strategies a text and its lower-case form get the same flag. *)
Theorem contains_question_ignores_case (text : str) :
  BasicChunkingStrategy._contains_question (map to_lower text)
  = BasicChunkingStrategy._contains_question text
  /\ SmartChunkingStrategy._contains_question (map to_lower text)
     = SmartChunkingStrategy._contains_question text.
Proof.
  split; apply search_alternatives_ci_lower.
Qed.

(** ** Where the splitter cuts *)

Lemma rfind_at_found (c : ascii) (l : str) :
  forall pos acc : Z,
    rfind_at c l pos acc = acc
    \/ (pos <= rfind_at c l pos acc
        /\ l !! Z.to_nat (rfind_at c l pos acc - pos) = Some c).
Proof.
  induction l as [|x l IH]; intros pos acc; simpl; [left; reflexivity|].
  destruct (IH (pos + 1) (if Ascii.eqb x c then pos else acc)) as [E|[H1 H2]].
  - rewrite E. destruct (Ascii.eqb_spec x c) as [->|]; [|left; reflexivity].
    right. split; [lia|]. rewrite Z.sub_diag. reflexivity.
  - right. split; [lia|].
    replace (Z.to_nat (rfind_at c l (pos + 1)
                         (if Ascii.eqb x c then pos else acc) - pos))
      with (S (Z.to_nat (rfind_at c l (pos + 1)
                           (if Ascii.eqb x c then pos else acc) - (pos + 1))))
      by lia.
    exact H2.
Qed.

Lemma rfind_found (c : ascii) (s : str) (i j : Z) :
  0 <= i <= len s -> 0 <= j ->
  rfind c s i j <> -1 ->
  s !! Z.to_nat (rfind c s i j) = Some c.
Proof.
  intros Hi Hj Hne. unfold rfind in *.
  rewrite clamp_index_inside in * by lia.
  pose proof (rfind_at_found c (slice s i j) i (-1)) as H.
  remember (rfind_at c (slice s i j) i (-1)) as r eqn:Er in *.
  destruct H as [E|[H1 H2]]; [congruence|].
  unfold slice in H2. rewrite (clamp_index_inside (len s) i) in H2 by lia.
  apply lookup_take_Some in H2 as [H2 _]. rewrite lookup_drop in H2.
  rewrite <- H2. f_equal. lia.
Qed.

Lemma window_end_cut (self : BasicChunkingStrategy.t) (text : str)
    (start : Z) :
  0 < BasicChunkingStrategy.max_chunk_size self ->
  0 <= start < len text ->
  cut_at_limit_or_space (BasicChunkingStrategy.max_chunk_size self) text
    (start, window_end self text start).
Proof.
  intros Hmax Hs. unfold cut_at_limit_or_space, window_end. simpl.
  set (end0 := Z.min (start + BasicChunkingStrategy.max_chunk_size self)
                 (len text)).
  destruct (Z.ltb_spec end0 (len text)); [|left; reflexivity].
  destruct (Z.ltb_spec (5 * start + 4 * BasicChunkingStrategy.max_chunk_size self)
              (5 * rfind " " text start end0)) as [Hcut|];
    [|left; reflexivity].
  right.
  destruct (rfind_range " " text start end0) as [E|E];
    [lia | unfold end0; lia | lia |].
  split; [|lia].
  apply rfind_found; [lia | unfold end0; lia | lia].
Qed.

(** X23: a window of the split ends at the hard limit
    [min(start + max_chunk_size, len(text))], or earlier at a space of the
    text that lies more than four fifths of [max_chunk_size] after the
    start of the window: a piece is cut short only at a space, and never
    to four fifths of the size or less. *)
Theorem split_cuts_at_limit_or_space
    (self : BasicChunkingStrategy.t) (text : str) :
  0 < BasicChunkingStrategy.max_chunk_size self ->
  exists ws,
    BasicChunkingStrategy._split_text_with_overlap self text
    = Ret (pieces_of text ws)
    /\ Forall (cut_at_limit_or_space
                 (BasicChunkingStrategy.max_chunk_size self) text) ws.
Proof.
  intros Hmax. unfold BasicChunkingStrategy._split_text_with_overlap.
  exists (split_windows self text (S (length text)) 0).
  rewrite (split_loop_trace self text Hmax) by (unfold len; lia).
  split; [reflexivity|].
  assert (Hgen : forall fuel start,
            0 <= start ->
            Forall (cut_at_limit_or_space
                      (BasicChunkingStrategy.max_chunk_size self) text)
              (split_windows self text fuel start)).
  { induction fuel as [|fuel IH]; intros start Hs; simpl.
    - destruct (start <? len text); constructor.
    - destruct (Z.ltb_spec start (len text)) as [Hlt|]; [|constructor].
      cbv zeta. constructor.
      + apply window_end_cut; [exact Hmax | lia].
      + apply IH.
        destruct (window_end_bounds self text Hmax start (conj Hs Hlt)).
        lia. }
  apply Hgen. lia.
Qed.

Lemma split_cuts_at_limit_or_space_witness :
  exists ws,
    BasicChunkingStrategy._split_text_with_overlap tiny_basic
      (get_full_text long_section)
    = Ret (pieces_of (get_full_text long_section) ws)
    /\ Forall (cut_at_limit_or_space
                 (BasicChunkingStrategy.max_chunk_size tiny_basic)
                 (get_full_text long_section)) ws.
Proof.
  apply (split_cuts_at_limit_or_space tiny_basic (get_full_text long_section)).
  simpl. lia.
Defined.

(** ** From a failed call down to the size-based split *)

Lemma paragraph_breaks_without_newline (text : str) :
  Forall (fun c => c <> "010"%char) text ->
  SmartChunkingStrategy._find_paragraph_breaks text = [].
Proof.
  intros Hnl. unfold SmartChunkingStrategy._find_paragraph_breaks.
  destruct (finditer_blank_lines_spec text 0 0) as [H _].
  destruct (finditer_blank_lines text 0 0) as [|p rest]; [reflexivity|].
  apply Forall_cons in H as [[_ [Hp _]] _].
  rewrite Forall_lookup in Hnl. apply Hnl in Hp. congruence.
Qed.

(** X24: when the backend's call for a section fails (it raises, reports
    failure, or carries no content or an empty one) and the section's
    text holds no newline, the smart strategy's chunks of that section
    have the contents and the indices of the basic strategy's chunks of
    it: the failed call falls back to the paragraph breaks, there are
    none, and the break-point splitter falls back to the size-based
    split. *)
Theorem failed_call_without_paragraphs_gives_size_split
    (self : SmartChunkingStrategy.t) (section : DocumentSection)
    (doc_id : string) (idx : Z) :
  0 < SmartChunkingStrategy.max_chunk_size self ->
  match generate_response (SmartChunkingStrategy.llm_provider self)
          (SmartChunkingStrategy.break_prompt self (get_full_text section))
  with
  | inl _ => True
  | inr r =>
      success r = false \/ response_content r = None
      \/ response_content r = Some []
  end ->
  Forall (fun c => c <> "010"%char) (get_full_text section) ->
  exists cs cs',
    SmartChunkingStrategy._chunk_section_semantically self section doc_id
      idx (tab_title section) (tab_id section) = Ret cs
    /\ BasicChunkingStrategy._chunk_section
         (SmartChunkingStrategy.basic_strategy self) section doc_id idx
         (tab_title section) (tab_id section) = Ret cs'
    /\ map content cs = map content cs'
    /\ map index_of cs = map index_of cs'.
Proof.
  intros Hmax Hcall Hnl.
  unfold SmartChunkingStrategy._chunk_section_semantically.
  destruct (truthy (strip (get_full_text section))) eqn:Hnb; simpl.
  2:{ exists [], []. unfold BasicChunkingStrategy._chunk_section.
      rewrite Hnb. auto. }
  destruct (len (get_full_text section)
            <=? SmartChunkingStrategy.max_chunk_size self) eqn:Hfit.
  { destruct (chunk_section_basic (SmartChunkingStrategy.basic_strategy self)
                Hmax section doc_id idx (tab_title section) (tab_id section))
      as (cs & E & _).
    exists cs, cs. auto. }
  rewrite (find_semantic_breaks_fallback self _ Hcall).
  rewrite paragraph_breaks_without_newline by exact Hnl. simpl.
  change (SmartChunkingStrategy._split_at_break_points self
            (get_full_text section) [])
    with (BasicChunkingStrategy._split_text_with_overlap
            (SmartChunkingStrategy.basic_strategy self)
            (get_full_text section)).
  unfold BasicChunkingStrategy._chunk_section. rewrite Hnb. simpl.
  change (BasicChunkingStrategy.max_chunk_size
            (SmartChunkingStrategy.basic_strategy self))
    with (SmartChunkingStrategy.max_chunk_size self).
  rewrite Hfit.
  destruct (split_text_with_overlap_pieces
              (SmartChunkingStrategy.basic_strategy self)
              (get_full_text section) Hmax) as (pieces & -> & Hp).
  simpl. do 2 eexists. split; [reflexivity|]. split; [reflexivity|].
  split; apply list_eq; intros i;
    rewrite !list_lookup_fmap, !list_lookup_imap;
    destruct (pieces !! i) as [p|] eqn:Ep; try reflexivity.
  rewrite Forall_lookup in Hp. destruct (Hp i p Ep) as (_ & Hstrip & _).
  simpl. rewrite Hstrip. reflexivity.
Qed.

Lemma failed_call_without_paragraphs_gives_size_split_witness :
  exists cs cs',
    SmartChunkingStrategy._chunk_section_semantically
      (tiny_smart failing_backend) long_section "doc" 0
      (tab_title long_section) (tab_id long_section) = Ret cs
    /\ BasicChunkingStrategy._chunk_section
         (SmartChunkingStrategy.basic_strategy (tiny_smart failing_backend))
         long_section "doc" 0
         (tab_title long_section) (tab_id long_section) = Ret cs'
    /\ map content cs = map content cs'
    /\ map index_of cs = map index_of cs'.
Proof.
  apply (failed_call_without_paragraphs_gives_size_split
           (tiny_smart failing_backend) long_section "doc" 0).
  - simpl. lia.
  - exact I.
  - repeat constructor; discriminate.
Defined.

(** ** Chunk indices across a document *)

Lemma concat_imap_map {A B C} (f : B -> C) (l : list A) :
  forall g : nat -> A -> list B,
    map f (concat (imap g l)) = concat (imap (fun k s => map f (g k s)) l).
Proof.
  induction l as [|x l IH]; intros g; simpl; [reflexivity|].
  rewrite map_app, (IH (g ∘ S)). reflexivity.
Qed.

(** What [chunk_document] makes of the chunks of the section phase. *)
Lemma chunk_document_of_section_phase (self : SmartChunkingStrategy.t)
    (order : completion_order) (document : ParsedDocument)
    (cs : list Chunk) :
  for_each (range 0 (len (sections document)) 3) []
    (SmartChunkingStrategy.section_batch self order document) = Ret cs ->
  SmartChunkingStrategy.chunk_document self order document
  = Ret (map (fun c =>
                set_total_chunks (len cs)
                  (if SmartChunkingStrategy.use_summaries self
                   then annotate self c else c)) cs).
Proof.
  intros E.
  unfold SmartChunkingStrategy.chunk_document,
    SmartChunkingStrategy.chunk_document_body.
  rewrite E. simpl.
  destruct (SmartChunkingStrategy.use_summaries self).
  - rewrite summary_phase. simpl. unfold len. rewrite length_map, map_map.
    reflexivity.
  - reflexivity.
Qed.

Section SmartIndices.

Variable self : SmartChunkingStrategy.t.
Hypothesis max_size_pos : 0 < SmartChunkingStrategy.max_chunk_size self.
Variable document : ParsedDocument.

Lemma section_tasks_return (k : nat) (s : DocumentSection) :
  returns (section_task self document k s).
Proof.
  destruct (chunk_section_semantically_spec self max_size_pos s
              (document_id document) (estimated_index document (Z.of_nat k))
              (tab_title s) (tab_id s)) as (cs & E & _).
  exists cs. exact E.
Qed.

(** The chunks of a document come in one group for each section, numbered
    from the section's estimate; collected in submission order they are
    the groups one after the other, and in any other order a
    rearrangement of them. *)
Lemma smart_document_groups :
  exists groups,
    numbered_by_estimate document groups
    /\ SmartChunkingStrategy.chunk_document self submission_order document
       = Ret (concat groups)
    /\ forall order : completion_order,
         rearranges order ->
         exists chunks,
           SmartChunkingStrategy.chunk_document self order document
           = Ret chunks
           /\ Permutation chunks (concat groups).
Proof.
  pose proof (section_phase_submission_order self document
                (fun k s _ => section_tasks_return k s)) as E0.
  set (cs0 := concat
                (imap (fun k s => result_of (section_task self document k s))
                   (sections document))) in E0.
  set (finish := fun c =>
                   set_total_chunks (len cs0)
                     (if SmartChunkingStrategy.use_summaries self
                      then annotate self c else c)).
  exists (imap (fun k s =>
                  map finish (result_of (section_task self document k s)))
            (sections document)).
  split; [|split].
  - split; [apply length_imap|].
    intros k s g Hs Hg j c Hc.
    rewrite list_lookup_imap, Hs in Hg. injection Hg as <-.
    rewrite list_lookup_fmap in Hc.
    destruct (result_of (section_task self document k s) !! j)
      as [c0|] eqn:Hc0; [|discriminate].
    injection Hc as <-.
    destruct (chunk_section_semantically_spec self max_size_pos s
                (document_id document)
                (estimated_index document (Z.of_nat k))
                (tab_title s) (tab_id s)) as (cs & E & Hidx).
    pose proof (smart_section_chunks self max_size_pos s
                  (document_id document)
                  (estimated_index document (Z.of_nat k)) cs E) as Hcs.
    unfold section_task in Hc0. rewrite E in Hc0. simpl in Hc0.
    destruct (Hidx j c0 Hc0) as [Hi _].
    rewrite Forall_lookup in Hcs.
    destruct (Hcs j c0 Hc0) as (_ & _ & _ & Hfrom & _).
    unfold finish. split.
    + apply copied_from_set_total_chunks.
      destruct (SmartChunkingStrategy.use_summaries self); [|exact Hfrom].
      destruct Hfrom as (m & Hm & H). exists m.
      rewrite annotate_metadata. split; assumption.
    + rewrite set_total_chunks_index.
      destruct (SmartChunkingStrategy.use_summaries self);
        [rewrite annotate_index|]; exact Hi.
  - rewrite (chunk_document_of_section_phase self submission_order document
               cs0 E0).
    unfold cs0 at 2. rewrite concat_imap_map. reflexivity.
  - intros order Hord.
    destruct (section_phase_any_order self max_size_pos order Hord document
                (range 0 (len (sections document)) 3) [] [])
      as (cs & cs' & E & E' & Hp); [reflexivity|].
    rewrite E0 in E'. injection E' as <-.
    rewrite (chunk_document_of_section_phase self order document cs E).
    eexists. split; [reflexivity|].
    rewrite <- concat_imap_map. fold cs0.
    assert (len cs = len cs0) as ->
      by (unfold len; rewrite (Permutation_length Hp); reflexivity).
    apply (Permutation_map finish), Hp.
Qed.

End SmartIndices.



(** The indices of three sections of 1500 characters each: the estimates
    are 0, 1 and 3. *)
Example three_pages_indices :
  exists chunks,
    SmartChunkingStrategy.chunk_document
      (SmartChunkingStrategy.default failing_backend) submission_order
      three_pages = Ret chunks
    /\ map index_of chunks = [Some 0; Some 1; Some 3].
Proof. eexists. split; vm_compute; reflexivity. Qed.

(** ** A backend that always fails: the whole document *)

Lemma erase_index_tab_id_overlap_set_total_chunks (n : Z) (c : Chunk) :
  erase_index_tab_id_overlap (set_total_chunks n c)
  = set_total_chunks n (erase_index_tab_id_overlap c).
Proof.
  unfold erase_index_tab_id_overlap, set_total_chunks.
  destruct (metadata c) eqn:E; simpl; [reflexivity|].
  rewrite E. reflexivity.
Qed.

Lemma agree_up_to_index_set_total_chunks (max_size : Z)
    (document : ParsedDocument) (n : Z) (c c' : Chunk) :
  agree_up_to_index max_size document c c' ->
  agree_up_to_index max_size document
    (set_total_chunks n c) (set_total_chunks n c').
Proof.
  intros [H|(H & s & Hin & Hlen & Hfrom)].
  - left. rewrite !erase_index_set_total_chunks. congruence.
  - right. split.
    + rewrite !erase_index_tab_id_overlap_set_total_chunks. congruence.
    + exists s. split; [exact Hin|]. split; [exact Hlen|].
      apply copied_from_set_total_chunks, Hfrom.
Qed.

Section FailingBackend.

Variable self : SmartChunkingStrategy.t.
Hypothesis backend_fails :
  always_fails (SmartChunkingStrategy.llm_provider self).
Hypothesis max_size_pos : 0 < SmartChunkingStrategy.max_chunk_size self.
Variable document : ParsedDocument.

Local Abbreviation basic := (SmartChunkingStrategy.basic_strategy self).
Local Abbreviation agree :=
  (agree_up_to_index (SmartChunkingStrategy.max_chunk_size self) document).

(** The failed call for the break points leaves the paragraph breaks. *)
Lemma always_fails_paragraph_breaks (text : str) :
  SmartChunkingStrategy._find_semantic_breaks self text
  = Ret (SmartChunkingStrategy._find_paragraph_breaks text).
Proof.
  apply find_semantic_breaks_fallback.
  destruct backend_fails as [Hgen _].
  specialize (Hgen (SmartChunkingStrategy.break_prompt self text)).
  destruct (generate_response _ _) as [e|r]; [exact I|]. left. exact Hgen.
Qed.

(** The chunks of one section, from the smart strategy at one start index
    and from the basic one at another. *)
Lemma failing_section_chunks (section : DocumentSection) (i i' : Z) :
  In section (sections document) ->
  fits (SmartChunkingStrategy.max_chunk_size self) section
  \/ SmartChunkingStrategy._find_paragraph_breaks (get_full_text section)
     = [] ->
  exists g g',
    SmartChunkingStrategy._chunk_section_semantically self section
      (document_id document) i (tab_title section) (tab_id section) = Ret g
    /\ BasicChunkingStrategy._chunk_section basic section
         (document_id document) i' (tab_title section) (tab_id section)
       = Ret g'
    /\ Forall2 agree g g'.
Proof.
  intros Hin Hsec.
  assert (Hfitting :
    fits (SmartChunkingStrategy.max_chunk_size self) section ->
    exists g g',
      SmartChunkingStrategy._chunk_section_semantically self section
        (document_id document) i (tab_title section) (tab_id section) = Ret g
      /\ BasicChunkingStrategy._chunk_section basic section
           (document_id document) i' (tab_title section) (tab_id section)
         = Ret g'
      /\ Forall2 agree g g').
  { intros Hfit. rewrite fitting_section_delegates by exact Hfit.
    destruct (fitting_section_chunks self section (document_id document)
                (tab_title section) (tab_id section) i i' Hfit)
      as (g & g' & E & E' & Hg).
    exists g, g'. split; [exact E|]. split; [exact E'|].
    apply Forall2_same_length_lookup_2.
    - apply (f_equal (@length Chunk)) in Hg. rewrite !length_map in Hg.
      exact Hg.
    - intros k c c' Hc Hc'. left.
      apply (f_equal (fun l => l !! k)) in Hg.
      rewrite !list_lookup_fmap, Hc, Hc' in Hg. simpl in Hg.
      congruence. }
  destruct (truthy (strip (get_full_text section))) eqn:Hnb.
  2:{ apply Hfitting. left. exact Hnb. }
  destruct (Z.leb_spec (len (get_full_text section))
              (SmartChunkingStrategy.max_chunk_size self)) as [Hle|Hgt].
  { apply Hfitting. right. exact Hle. }
  destruct Hsec as [[Hb|Hle]|Hpara]; [congruence | lia |].
  unfold SmartChunkingStrategy._chunk_section_semantically.
  rewrite Hnb. simpl.
  destruct (Z.leb_spec (len (get_full_text section))
              (SmartChunkingStrategy.max_chunk_size self)); [lia|].
  rewrite always_fails_paragraph_breaks, Hpara. simpl.
  change (SmartChunkingStrategy._split_at_break_points self
            (get_full_text section) [])
    with (BasicChunkingStrategy._split_text_with_overlap basic
            (get_full_text section)).
  unfold BasicChunkingStrategy._chunk_section. rewrite Hnb. simpl.
  change (BasicChunkingStrategy.max_chunk_size basic)
    with (SmartChunkingStrategy.max_chunk_size self).
  destruct (Z.leb_spec (len (get_full_text section))
              (SmartChunkingStrategy.max_chunk_size self)); [lia|].
  destruct (split_text_with_overlap_pieces basic (get_full_text section)
              max_size_pos) as (pieces & -> & Hp).
  simpl. do 2 eexists. split; [reflexivity|]. split; [reflexivity|].
  apply Forall2_same_length_lookup_2.
  - rewrite !length_imap. reflexivity.
  - intros k c c' Hc Hc'. rewrite list_lookup_imap in Hc, Hc'.
    destruct (pieces !! k) as [p|] eqn:Ep; [|discriminate].
    injection Hc as <-. injection Hc' as <-.
    rewrite Forall_lookup in Hp. destruct (Hp k p Ep) as (_ & Hstrip & _).
    right. split.
    + unfold erase_index_tab_id_overlap, new_Chunk. simpl.
      rewrite Hstrip. reflexivity.
    + exists section. split; [exact Hin|]. split; [lia|].
      eexists. split; [reflexivity|]. simpl. auto.
Qed.

(** The loop over the sections, against groups of chunks that agree with
    what it produces section by section. *)
Lemma chunk_sections_agree (todo : list DocumentSection)
    (gs : list (list Chunk)) :
  Forall2 (fun s g =>
             forall i',
               exists g',
                 BasicChunkingStrategy._chunk_section basic s
                   (document_id document) i' (tab_title s) (tab_id s)
                 = Ret g'
                 /\ Forall2 agree g g') todo gs ->
  forall (chunk_index : Z) (chunks chunks' : list Chunk),
    Forall2 agree chunks' chunks ->
    exists cs,
      BasicChunkingStrategy.chunk_sections basic (document_id document) todo
        chunk_index chunks = Ret cs
      /\ Forall2 agree (chunks' ++ concat gs) cs.
Proof.
  induction 1 as [|s g todo gs Hg _ IH]; intros idx chunks chunks' Hacc;
    simpl.
  - exists chunks. rewrite app_nil_r. auto.
  - destruct (Hg idx) as (g' & -> & Hgg). simpl.
    destruct (IH (idx + len g') (chunks ++ g') (chunks' ++ g))
      as (res & E & Hres).
    + apply Forall2_app; assumption.
    + exists res. split; [exact E|]. rewrite app_assoc. exact Hres.
Qed.

Lemma failing_backend_document :
  Forall (fun s =>
            fits (SmartChunkingStrategy.max_chunk_size self) s
            \/ SmartChunkingStrategy._find_paragraph_breaks (get_full_text s)
               = []) (sections document) ->
  exists smart_chunks basic_chunks,
    SmartChunkingStrategy.chunk_document self submission_order document
    = Ret smart_chunks
    /\ BasicChunkingStrategy.chunk_document basic document = Ret basic_chunks
    /\ Forall2 agree smart_chunks basic_chunks.
Proof.
  intros Hsecs. rewrite Forall_lookup in Hsecs.
  pose proof (section_phase_submission_order self document
                (fun k s _ => section_tasks_return self max_size_pos
                                document k s)) as E0.
  set (gs := imap (fun k s => result_of (section_task self document k s))
               (sections document)) in E0.
  destruct (chunk_sections_agree (sections document) gs) with
    (chunk_index := 0) (chunks := @nil Chunk) (chunks' := @nil Chunk)
    as (basic0 & Eb & Hb).
  { apply Forall2_same_length_lookup_2.
    - unfold gs. rewrite length_imap. reflexivity.
    - intros k s g Hs Hg i'. unfold gs in Hg.
      rewrite list_lookup_imap, Hs in Hg. injection Hg as <-.
      destruct (failing_section_chunks s
                  (estimated_index document (Z.of_nat k)) i')
        as (g & g' & E & E' & Hgg).
      + apply list_elem_of_In, list_elem_of_lookup. exists k. exact Hs.
      + eapply Hsecs, Hs.
      + exists g'. split; [exact E'|].
        unfold section_task. rewrite E. exact Hgg. }
  { constructor. }
  simpl in Hb.
  rewrite (chunk_document_of_section_phase self submission_order document
             (concat gs) E0).
  unfold BasicChunkingStrategy.chunk_document. rewrite Eb. simpl.
  do 2 eexists. split; [reflexivity|]. split; [reflexivity|].
  assert (len (concat gs) = len basic0) as ->
    by (unfold len; rewrite (Forall2_length _ _ _ Hb); reflexivity).
  apply Forall2_fmap. eapply Forall2_impl; [exact Hb|].
  intros c c' Hcc. simpl.
  replace (if SmartChunkingStrategy.use_summaries self
           then annotate self c else c) with c.
  - apply agree_up_to_index_set_total_chunks, Hcc.
  - destruct (SmartChunkingStrategy.use_summaries self); [|reflexivity].
    symmetry. apply annotate_always_fails, backend_fails.
Qed.

End FailingBackend.




(** The chunks of the short and the long section under a failing backend:
    three chunks from each strategy, the two of the long section without
    tab id on the smart side. *)
Example short_and_long_chunks :
  exists smart basic,
    SmartChunkingStrategy.chunk_document (tiny_smart failing_backend)
      submission_order short_and_long = Ret smart
    /\ BasicChunkingStrategy.chunk_document tiny_basic short_and_long
       = Ret basic
    /\ map content smart
       = [text_of "Hi"; text_of "Hello worl"; text_of "d again"]
    /\ map content basic = map content smart
    /\ map tab_id_of smart = [None; None; None]
    /\ map tab_id_of basic
       = [None; Some "t.1"%string; Some "t.1"%string].
Proof.
  do 2 eexists. split; [vm_compute; reflexivity|].
  split; [vm_compute; reflexivity|]. repeat split; vm_compute; reflexivity.
Qed.
